(** * go-testdb: provisioning of migrated test databases

    A shallow embedding of the Go package [testdb] (files [migrate.go] and the
    Postgres backend) together with the properties its specification states.

    Go strings are byte strings: they are [string]s here, one [ascii] per byte.
    The regular expressions of the backend are translated by hand, character
    class by character class; calls into the database engine go through a
    small model of a Postgres server (databases, sessions, advisory locks). *)

From Stdlib Require Import ZArith NArith Ascii String Bool List Lia.
From stdpp Require Import base decidable option list gmap strings pretty.


(** ** Byte strings *)

Module Bytes.

Definition code (c : ascii) : N := N_of_ascii c.

(** [lo-hi] inside a bracket expression: the bytes from [lo] to [hi]. *)
Definition in_range (lo hi c : ascii) : bool :=
(code lo <=? code c)%N && (code c <=? code hi)%N.

(** A bracket expression is the union of its ranges. *)
Definition in_class (cls : list (ascii * ascii)) (c : ascii) : bool :=
existsb (fun r => in_range (fst r) (snd r) c) cls.

Fixpoint all_in (cls : list (ascii * ascii)) (s : string) : bool :=
match s with
| EmptyString => true
| String c s' => in_class cls c && all_in cls s'
end.

(** Longest prefix of [s] made of bytes of [cls], and what follows it. *)
Fixpoint span (cls : list (ascii * ascii)) (s : string) : string * string :=
match s with
| EmptyString => (EmptyString, EmptyString)
| String c s' =>
    if in_class cls c
    then let '(w, r) := span cls s' in (String c w, r)
    else (EmptyString, s)
end.

Fixpoint contains (c : ascii) (s : string) : bool :=
match s with
| EmptyString => false
| String d s' => Ascii.eqb c d || contains c s'
end.

(** [strings.ReplaceAll] of a one-byte [old] by the empty string. *)
Fixpoint remove_byte (old : ascii) (s : string) : string :=
match s with
| EmptyString => EmptyString
| String c s' =>
    if Ascii.eqb c old then remove_byte old s' else String c (remove_byte old s')
end.

Definition is_empty (s : string) : bool :=
match s with EmptyString => true | _ => false end.

Definition has_upper (s : string) : bool :=
negb (all_in [("000", "@"); ("[", "255")]%char s).

Definition lower_byte (c : ascii) : ascii :=
if in_range "A" "Z" c then ascii_of_N (code c + 32) else c.

(** ASCII lower-casing, as the engine folds unquoted identifiers. *)
Fixpoint to_lower (s : string) : string :=
match s with
| EmptyString => EmptyString
| String c s' => String (lower_byte c) (to_lower s')
end.

End Bytes.

(** ** Errors, reports and the halting error handler *)

(** Go [error] values, as far as the package tells them apart:
    [pgx.ErrNoRows], any other error (with its text), and a wrapped error. *)
Inductive error : Type :=
| ErrNoRows
| ErrNew (msg : string)
| ErrWrap (msg : string) (cause : error).

(** [errors.Is(err, target)]: [target] occurs in the chain of [err]. *)
Fixpoint errors_Is_NoRows (err : error) : bool :=
  match err with
  | ErrNoRows => true
  | ErrNew _ => false
  | ErrWrap _ cause => errors_Is_NoRows cause
  end.

(** Values of type [any] that reach the error handler. *)
Inductive any : Type :=
| AString (s : string)
| AError (e : error)
| ASlice (l : list any).

(** How a call ends: it returns, it halts the test through [t.Fatal], it
    panics, or it never returns because it waits for a lock. *)
Inductive res (A : Type) : Type :=
| Returns (a : A)
| Halts (report : any)
| Panics (msg : string)
| Blocks.
Arguments Returns {A} a.
Arguments Halts {A} report.
Arguments Panics {A} msg.
Arguments Blocks {A}.

Definition res_bind {A B} (r : res A) (k : A -> res B) : res B :=
  match r with
  | Returns a => k a
  | Halts rep => Halts rep
  | Panics msg => Panics msg
  | Blocks => Blocks
  end.

Definition is_returns {A} (r : res A) : bool :=
  match r with Returns _ => true | _ => false end.

Definition is_halts {A} (r : res A) : bool :=
  match r with Halts _ => true | _ => false end.

(** [ErrorHandler] (the default one): [t.Fatal] on the slice
    [["testdb initialisation failed", err] ++ extra]; the test stops there. *)
Definition ErrorHandler_report (err : error) (extra : list any) : any :=
  ASlice (AString "testdb initialisation failed" :: AError err :: extra).

Definition ErrorHandler {A} (err : error) (extra : list any) : res A :=
  Halts (ErrorHandler_report err extra).

(** [must(t, err, extra...)]: the variadic [extra] is handed to the handler
    as one value, the slice itself. *)
Definition must (err : option error) (extra : list any) : res unit :=
  match err with
  | None => Returns tt
  | Some e => ErrorHandler e [ASlice extra]
  end.

(** ** The two regular expressions of the backend *)

Module Regexp.
Import Bytes.

(** The bracket expression of [pgDbNameRegex], ["^[a-zA-z0-9_]+$"], range
  by range as it is written in the source. *)
Definition pgDbNameClass : list (ascii * ascii) :=
[("a", "z"); ("A", "z"); ("0", "9"); ("_", "_")]%char.

(** [pgDbNameRegex.MatchString]: anchored at both ends, one byte or more,
  every byte in the class. *)
Definition pgDbNameRegex_MatchString (name : string) : bool :=
negb (is_empty name) && all_in pgDbNameClass name.

(** [\w] in Go's syntax: [[0-9A-Za-z_]]. *)
Definition word : list (ascii * ascii) :=
[("0", "9"); ("A", "Z"); ("_", "_"); ("a", "z")]%char.

(** A match of ["/\w+\?"] that starts at the first byte of [s]: a slash, the
  longest run of word bytes (one at least), a question mark.  The result
  is the number of bytes matched. *)
Definition match_here (s : string) : option nat :=
match s with
| String "/" s1 =>
    match span word s1 with
    | (String c w, String "?" _) => Some (S (S (String.length (String c w))))
    | _ => None
    end
| _ => None
end.

(** [r.MatchString(base)] for [r = "/\w+\?"]: a match starts somewhere. *)
Fixpoint dsn_MatchString (s : string) : bool :=
match match_here s with
| Some _ => true
| None =>
    match s with
    | EmptyString => false
    | String _ s' => dsn_MatchString s'
    end
end.

(** Names of [$name] references of a replacement template (ASCII letters,
  digits and underscore). *)
Definition name_class : list (ascii * ascii) := word.

(** [extract] of package regexp: the name after a [$], braced or not, and
  the number of template bytes it takes. *)
Definition extract (s : string) : option (string * nat) :=
match s with
| EmptyString => None
| String "{" s1 =>
    match span name_class s1 with
    | (String c w, String "}" _) =>
        Some (String c w, S (S (String.length (String c w))))
    | _ => None
    end
| _ =>
    match span name_class s with
    | (String c w, _) => Some (String c w, String.length (String c w))
    | _ => None
    end
end.

(** [Regexp.expand] for a pattern without groups: [$$] is a dollar, [$0]
  and [${0}] are the matched text, any other reference is empty, and a
  dollar that starts no reference stands for itself.  [skip] counts the
  bytes of a reference still to be passed over. *)
Fixpoint expand (skip : nat) (template matched : string) : string :=
match template with
| EmptyString => EmptyString
| String c rest =>
    match skip with
    | S k => expand k rest matched
    | O =>
        if Ascii.eqb c "$" then
          match rest with
          | String "$" _ => String "$" (expand 1 rest matched)
          | _ =>
              match extract rest with
              | None => String "$" (expand 0 rest matched)
              | Some (name, len) =>
                  (if String.eqb name "0" then matched else EmptyString)
                    +:+ expand len rest matched
              end
          end
        else String c (expand 0 rest matched)
    end
end.

Fixpoint take (n : nat) (s : string) : string :=
match n, s with
| S k, String c s' => String c (take k s')
| _, _ => EmptyString
end.

(** [r.ReplaceAllString(src, template)] for [r = "/\w+\?"]: the matches are
  taken from the left and do not overlap; each is replaced by the expanded
  template and the bytes between them are copied.  [skip] counts the
  bytes of the current match still to be passed over. *)
Fixpoint replace_all (skip : nat) (src template : string) : string :=
match src with
| EmptyString => EmptyString
| String c rest =>
    match skip with
    | S k => replace_all k rest template
    | O =>
        match match_here src with
        | Some len =>
            expand 0 template (take len src) +:+ replace_all (len - 1) rest template
        | None => String c (replace_all 0 rest template)
        end
    end
end.

Definition dsn_ReplaceAllString (src template : string) : string :=
replace_all 0 src template.

End Regexp.

(** ** Name validation and DSN rewriting (Postgres backend) *)

(** [verifyPgDbName]: the name itself, or the error handler. *)
Definition verifyPgDbName (name : string) : res string :=
  if Regexp.pgDbNameRegex_MatchString name
  then Returns name
  else ErrorHandler
         (ErrNew (name +:+ " as a DB name may be unsafe. letters, numbers and _ only"))
         [].

(** [pgInitializer.NewDsn]. *)
Definition NewDsn (base newName : string) : res string :=
  if Regexp.dsn_MatchString base
  then Returns (Regexp.dsn_ReplaceAllString base ("/" +:+ newName +:+ "?"))
  else ErrorHandler
         (ErrNew ("invalid DSN provided, cannot find database name in `" +:+ base +:+ "`"))
         [].

(** ** State passing *)

(** A call that reads and changes a state [St] and ends as [res] says. *)
Definition M (St A : Type) : Type := St -> res A * St.

Definition ret {St A} (a : A) : M St A := fun s => (Returns a, s).

Definition bind {St A B} (m : M St A) (k : A -> M St B) : M St B :=
  fun s =>
    match m s with
    | (Returns a, s') => k a s'
    | (Halts rep, s') => (Halts rep, s')
    | (Panics msg, s') => (Panics msg, s')
    | (Blocks, s') => (Blocks, s')
    end.

Definition lift {St A} (r : res A) : M St A := fun s => (r, s).

Notation "'let*' x ':=' m 'in' k" := (bind m (fun x => k))
  (at level 10, x name, m at level 100, k at level 200).
Notation "'do' m 'then' k" := (bind m (fun _ => k))
  (at level 10, m at level 100, k at level 200).

(** ** The database engine *)

(** What the backend sends to the server.  [sql] gives each statement the
    text it has in the source. *)
Inductive Stmt : Type :=
| CreateDatabase (name : string)
| CreateDatabaseTemplate (name template : string)
| DropDatabaseIfExists (quoted : bool) (name : string)
| TerminateBackends (datname : string)
| AdvisoryLock (key : Z)
| AdvisoryUnlock (key : Z)
| SelectDatabase (datname : string).

(** [name] between double quotes (byte 34). *)
Definition quoted (name : string) : string :=
  String "034" (name +:+ String "034" EmptyString).

Definition sql (q : Stmt) : string :=
  match q with
  | CreateDatabase name => "CREATE DATABASE " +:+ quoted name
  | CreateDatabaseTemplate name template =>
      "CREATE DATABASE " +:+ quoted name +:+ " TEMPLATE " +:+ quoted template
  | DropDatabaseIfExists true name => "DROP DATABASE IF EXISTS " +:+ quoted name
  | DropDatabaseIfExists false name => "DROP DATABASE IF EXISTS " +:+ name
  | TerminateBackends datname =>
      String "010" ("SELECT pg_terminate_backend(pg_stat_activity.pid)"
        +:+ String "010" ("FROM pg_stat_activity"
        +:+ String "010" ("WHERE pg_stat_activity.datname = '" +:+ datname +:+ "'")))
  | AdvisoryLock _ => "SELECT pg_advisory_lock($1)"
  | AdvisoryUnlock _ => "SELECT pg_advisory_unlock($1)"
  | SelectDatabase _ => "SELECT true FROM pg_database WHERE datname = $1"
  end.

(** A server: its databases, its sessions (backend process id, and the
    database the session is connected to), the session-level advisory locks
    that are held (for a database and a key, the holder and the number of
    times it holds the key: advisory locks are local to a database), and the
    statements received so far. *)
Record Server : Type := mkServer {
  databases : gset string;
  sessions : gmap nat string;
  advisory : gmap (string * Z) (nat * nat);
  next_pid : nat;
  journal : list (nat * Stmt)
}.

Module Engine.
Import Bytes.

Definition set_databases (d : gset string) (s : Server) : Server :=
mkServer d (sessions s) (advisory s) (next_pid s) (journal s).
Definition set_advisory (a : gmap (string * Z) (nat * nat)) (s : Server) : Server :=
mkServer (databases s) (sessions s) a (next_pid s) (journal s).
Definition record (pid : nat) (q : Stmt) (s : Server) : Server :=
mkServer (databases s) (sessions s) (advisory s) (next_pid s) (journal s ++ [(pid, q)]).

(** Locks of sessions that are gone are released. *)
Definition release_dead (sess : gmap nat string) (adv : gmap (string * Z) (nat * nat))
: gmap (string * Z) (nat * nat) :=
filter (fun kv => bool_decide (is_Some (sess !! fst (snd kv))) = true) adv.

Definition set_sessions (sess : gmap nat string) (s : Server) : Server :=
mkServer (databases s) sess (release_dead sess (advisory s)) (next_pid s) (journal s).

(** Some session other than [self] is connected to [db]. *)
Definition in_use (s : Server) (self : nat) (db : string) : bool :=
bool_decide (map_Exists (fun pid d => pid ≠ self ∧ d = db) (sessions s)).

(** An identifier written without quotes: a letter or an underscore, then
  letters, digits, underscores and dollars.  (Reserved words are not
  modelled.) *)
Definition plain_identifier (name : string) : bool :=
match name with
| EmptyString => false
| String c rest =>
    in_class [("a", "z"); ("A", "Z"); ("_", "_")]%char c
    && all_in [("a", "z"); ("A", "Z"); ("_", "_"); ("0", "9"); ("$", "$")]%char rest
end.

(** [pgx.Connect] on an already parsed database name: a new session. *)
Definition connect (db : string) (s : Server) : (error + nat) * Server :=
if bool_decide (db ∈ databases s) then
  let pid := next_pid s in
  (inr pid,
   mkServer (databases s) (<[pid := db]> (sessions s)) (advisory s) (S pid) (journal s))
else (inl (ErrNew ("database " +:+ quoted db +:+ " does not exist")), s).

(** [conn.Close]. *)
Definition close (pid : nat) (s : Server) : Server :=
set_sessions (delete pid (sessions s)) s.

Definition drop_database (pid : nat) (name : string) (s : Server)
: res (option error) * Server :=
if bool_decide (name ∈ databases s) then
  if bool_decide (sessions s !! pid = Some name) then
    (Returns (Some (ErrNew "cannot drop the currently open database")), s)
  else if in_use s pid name then
    (Returns (Some (ErrNew ("database " +:+ quoted name +:+ " is being accessed by other users"))), s)
  else (Returns None, set_databases (databases s ∖ {[name]}) s)
else (Returns None, s).

(** The effect of a statement sent by a live session [pid] that is
  connected to the database [db]: the error the driver hands back ([None]
  when there is none), or [Blocks] while the statement has to wait.  An
  advisory lock is taken and released in the database of the session. *)
Definition effect (pid : nat) (db : string) (q : Stmt) (s : Server)
: res (option error) * Server :=
match q with
| CreateDatabase name =>
    if bool_decide (name ∈ databases s)
    then (Returns (Some (ErrNew ("database " +:+ quoted name +:+ " already exists"))), s)
    else (Returns None, set_databases ({[name]} ∪ databases s) s)
| CreateDatabaseTemplate name template =>
    if bool_decide (name ∈ databases s)
    then (Returns (Some (ErrNew ("database " +:+ quoted name +:+ " already exists"))), s)
    else if negb (bool_decide (template ∈ databases s))
    then (Returns (Some (ErrNew ("template database " +:+ quoted template +:+ " does not exist"))), s)
    else if in_use s pid template
    then (Returns (Some (ErrNew ("source database " +:+ quoted template +:+ " is being accessed by other users"))), s)
    else (Returns None, set_databases ({[name]} ∪ databases s) s)
| DropDatabaseIfExists true name => drop_database pid name s
| DropDatabaseIfExists false name =>
    if plain_identifier name
    then drop_database pid (to_lower name) s
    else (Returns (Some (ErrNew ("syntax error at or near " +:+ quoted name))), s)
| TerminateBackends datname =>
    let s' := set_sessions (filter (fun kv => snd kv ≠ datname) (sessions s)) s in
    if bool_decide (sessions s !! pid = Some datname)
    then (Returns (Some (ErrNew "terminating connection due to administrator command")), s')
    else (Returns None, s')
| AdvisoryLock key =>
    match advisory s !! (db, key) with
    | None => (Returns None, set_advisory (<[(db, key) := (pid, 1)]> (advisory s)) s)
    | Some (holder, n) =>
        if bool_decide (holder = pid)
        then (Returns None, set_advisory (<[(db, key) := (pid, S n)]> (advisory s)) s)
        else (Blocks, s)
    end
| AdvisoryUnlock key =>
    match advisory s !! (db, key) with
    | Some (holder, n) =>
        if bool_decide (holder = pid) then
          match n with
          | S (S m) =>
              (Returns None, set_advisory (<[(db, key) := (pid, S m)]> (advisory s)) s)
          | _ => (Returns None, set_advisory (delete (db, key) (advisory s)) s)
          end
        else (Returns None, s)
    | None => (Returns None, s)
    end
| SelectDatabase datname =>
    if bool_decide (datname ∈ databases s)
    then (Returns None, s)
    else (Returns (Some ErrNoRows), s)
end.

(** [conn.Exec] / [conn.QueryRow(...).Scan]: the statement is written to
  the journal and takes effect, unless the session is gone.  A statement
  that has to wait leaves no trace until it goes through. *)
Definition exec (pid : nat) (q : Stmt) : M Server (option error) :=
fun s =>
  match sessions s !! pid with
  | None => (Returns (Some (ErrNew "conn closed")), s)
  | Some db =>
      match effect pid db q s with
      | (Blocks, _) => (Blocks, s)
      | (r, s') => (r, record pid q s')
      end
  end.

End Engine.

(** ** The provisioner ([migrate.go]) *)

Section Provisioner.

(** [New] is generic in the connection type of the backend; handles are
  values of the interface [Db]. *)
Context {Conn Db : Type}.

(** The functions [New] hands to [t.Cleanup]. The first one reads the local
  variable [done] of [New], which it captures by reference. *)
Inductive Closure : Type :=
| RemoveUnlessDone (done : nat) (root : Conn) (templateName : string)
| DropDb (db : Db).

(** What [New] and its cleanups call: the methods of [Initializer], of
  [Migrator] and of [Db], [uuid.New().String()], [t.Cleanup], and the
  accesses to a captured local variable. *)
Inductive Op : Type :=
| OpConnect (dsn : string)
| OpHash
| OpMigrate (dsn : string)
| OpLock (conn : Conn) (name : string)
| OpUnlock (conn : Conn) (name : string)
| OpExists (conn : Conn) (name : string)
| OpCreate (conn : Conn) (name : string)
| OpCreateFromTemplate (conn : Conn) (template name : string)
| OpNewDsn (base newName : string)
| OpNewDb (rootDsn dsn : string)
| OpRemove (conn : Conn) (name : string)
| OpDrop (db : Db)
| OpUuid
| OpCleanup (f : Closure)
| OpVarNew (b : bool)
| OpVarSet (v : nat) (b : bool)
| OpVarGet (v : nat).

Definition Ret (o : Op) : Type :=
match o with
| OpConnect _ => Conn
| OpHash | OpNewDsn _ _ | OpUuid => string
| OpExists _ _ | OpVarGet _ => bool
| OpNewDb _ _ => Db
| OpVarNew _ => nat
| _ => unit
end.

(** Code: a result, or a call and what follows it. *)
Inductive Prog (A : Type) : Type :=
| Done (a : A)
| Do (o : Op) (k : Ret o -> Prog A).
Arguments Done {A} a.
Arguments Do {A} o k.

Notation "'call' x ':=' o 'in' k" := (Do o (fun x => k))
(at level 10, x name, o at level 100, k at level 200).
Notation "'invoke' o 'then' k" := (Do o (fun _ => k))
(at level 10, o at level 100, k at level 200).

(** Lines 173 to 187 of [New]: clone the template, release the lock, wrap
  the handle, register its teardown. *)
Definition New_clone (dsn : string) (root : Conn) (templateName : string) : Prog Db :=
call u := OpUuid in
let testDbName := "test_db_" +:+ Bytes.remove_byte "-" u in
invoke OpCreateFromTemplate root templateName testDbName then
invoke OpUnlock root templateName then
call testDbDsn := OpNewDsn dsn testDbName in
call db := OpNewDb dsn testDbDsn in
invoke OpCleanup (DropDb db) then
Done db.

(** Lines 157 to 170: the body of [if !h.Exists(...)], then the rest. *)
Definition New_build (dsn : string) (root : Conn) (templateName : string) : Prog Db :=
invoke OpCreate root templateName then
call done := OpVarNew false in
invoke OpCleanup (RemoveUnlessDone done root templateName) then
call templateDsn := OpNewDsn dsn templateName in
invoke OpMigrate templateDsn then
invoke OpVarSet done true then
New_clone dsn root templateName.

Definition New (dsn : string) : Prog Db :=
call root := OpConnect dsn in
call migrationHash := OpHash in
let templateName := "test_template_" +:+ migrationHash in
invoke OpLock root templateName then
call exists_ := OpExists root templateName in
if negb exists_
then New_build dsn root templateName
else New_clone dsn root templateName.

Definition closure_code (f : Closure) : Prog unit :=
match f with
| RemoveUnlessDone done root templateName =>
    call d := OpVarGet done in
    if negb d then invoke OpRemove root templateName then Done tt else Done tt
| DropDb db => invoke OpDrop db then Done tt
end.

(** *** The interfaces *)

Context {St : Type}.

Record Initializer : Type := {
Connect : string -> M St Conn;
Lock : Conn -> string -> M St unit;
Unlock : Conn -> string -> M St unit;
Exists : Conn -> string -> M St bool;
Create : Conn -> string -> M St unit;
CreateFromTemplate : Conn -> string -> string -> M St unit;
InitNewDsn : string -> string -> M St string;
NewDb : string -> string -> M St Db;
Remove : Conn -> string -> M St unit
}.

Record Migrator : Type := {
Hash : M St string;
Migrate : string -> M St unit
}.

(** The method of [Db] that [New] uses. *)
Record DbMethods : Type := {
Drop : Db -> M St unit
}.

(** The test [t]: its cleanups (the last registered first), the local
  variables captured by closures, and the identifiers [uuid.New] draws. *)
Record TB : Type := mkTB {
cleanups : list Closure;
vars : list bool;
uuids : nat -> string;
drawn : nat
}.

(** A running test: [t], the state behind the interfaces, and the calls
  made so far, the first one first. *)
Record World : Type := mkWorld {
tb : TB;
st : St;
calls : list Op
}.

Variable h : Initializer.
Variable m : option Migrator.
Variable d : DbMethods.

Definition on_st {A} (f : M St A) (w : World) : res A * World :=
let '(r, s) := f (st w) in (r, mkWorld (tb w) s (calls w)).

Definition on_tb {A} (f : TB -> A * TB) (w : World) : res A * World :=
let '(a, t) := f (tb w) in (Returns a, mkWorld t (st w) (calls w)).

(** A method called on a nil interface value panics. *)
Definition nil_dereference {A} (w : World) : res A * World :=
(Panics "runtime error: invalid memory address or nil pointer dereference", w).

Definition perform (o : Op) : World -> res (Ret o) * World :=
match o return World -> res (Ret o) * World with
| OpConnect dsn => on_st (Connect h dsn)
| OpHash =>
    match m with
    | Some mg => on_st (Hash mg)
    | None => nil_dereference
    end
| OpMigrate dsn =>
    match m with
    | Some mg => on_st (Migrate mg dsn)
    | None => nil_dereference
    end
| OpLock conn name => on_st (Lock h conn name)
| OpUnlock conn name => on_st (Unlock h conn name)
| OpExists conn name => on_st (Exists h conn name)
| OpCreate conn name => on_st (Create h conn name)
| OpCreateFromTemplate conn template name =>
    on_st (CreateFromTemplate h conn template name)
| OpNewDsn base newName => on_st (InitNewDsn h base newName)
| OpNewDb rootDsn dsn => on_st (NewDb h rootDsn dsn)
| OpRemove conn name => on_st (Remove h conn name)
| OpDrop db => on_st (Drop d db)
| OpUuid =>
    on_tb (fun t => (uuids t (drawn t),
                     mkTB (cleanups t) (vars t) (uuids t) (S (drawn t))))
| OpCleanup f =>
    on_tb (fun t => (tt, mkTB (f :: cleanups t) (vars t) (uuids t) (drawn t)))
| OpVarNew b =>
    on_tb (fun t => (length (vars t),
                     mkTB (cleanups t) (vars t ++ [b]) (uuids t) (drawn t)))
| OpVarSet v b =>
    on_tb (fun t => (tt, mkTB (cleanups t) (<[v := b]> (vars t)) (uuids t) (drawn t)))
| OpVarGet v =>
    on_tb (fun t => (default false (vars t !! v), t))
end.

(** A call is noted when it is made.  One that has to wait changes nothing
  else. *)
Definition step (o : Op) (w : World) : res (Ret o) * World :=
match perform o w with
| (Blocks, _) => (Blocks, mkWorld (tb w) (st w) (calls w ++ [o]))
| (r, w') => (r, mkWorld (tb w') (st w') (calls w' ++ [o]))
end.

(** Running code to its end: the first call that does not return ends it. *)
Fixpoint run {A} (p : Prog A) (w : World) : res A * World :=
match p with
| Done a => (Returns a, w)
| Do o k =>
    match step o w with
    | (Returns r, w') => run (k r) w'
    | (Halts rep, w') => (Halts rep, w')
    | (Panics msg, w') => (Panics msg, w')
    | (Blocks, w') => (Blocks, w')
    end
end.

(** The end of the test: the cleanups run, the last registered first, each
  of them to its end whatever became of the one before. *)
Fixpoint run_closures (fs : list Closure) (w : World) : World :=
match fs with
| [] => w
| f :: fs' =>
    match run (closure_code f) w with
    | (Blocks, w') => w'
    | (_, w') => run_closures fs' w'
    end
end.

Definition run_cleanups (w : World) : World :=
let t := tb w in
run_closures (cleanups t)
  (mkWorld (mkTB [] (vars t) (uuids t) (drawn t)) (st w) (calls w)).

(** A test that calls [New] and ends: how the call ended, the world when it
  ended, and the world once the cleanups have run. *)
Definition run_test (dsn : string) (w : World) : res Db * World * World :=
let '(r, w1) := run (New dsn) w in
(r, w1, match r with Blocks => w1 | _ => run_cleanups w1 end).

End Provisioner.

Arguments Closure : clear implicits.
Arguments Op : clear implicits.
Arguments Prog : clear implicits.
Arguments Done {Conn Db A} a.
Arguments Do {Conn Db A} o k.
Arguments Initializer : clear implicits.
Arguments Migrator : clear implicits.
Arguments DbMethods : clear implicits.
Arguments TB : clear implicits.
Arguments World : clear implicits.

(** ** The Postgres backend *)

(** [crc32.ChecksumIEEE]: the reflected CRC-32 (polynomial [0xEDB88320]),
    bit by bit. *)
Module Crc32.

Definition poly : Z := 0xEDB88320.
Definition mask : Z := 0xFFFFFFFF.

Definition shift_bit (c : Z) : Z :=
if Z.testbit c 0 then Z.lxor (Z.shiftr c 1) poly else Z.shiftr c 1.

Definition update_byte (crc : Z) (b : ascii) : Z :=
Nat.iter 8 shift_bit (Z.lxor crc (Z.of_N (N_of_ascii b))).

Fixpoint update (crc : Z) (s : string) : Z :=
match s with
| EmptyString => crc
| String b s' => update (update_byte crc b) s'
end.

Definition ChecksumIEEE (s : string) : Z := Z.lxor (update mask s) mask.

End Crc32.

Module Pgx.
Import Bytes.

Fixpoint strip_prefix (p s : string) : option string :=
match p, s with
| EmptyString, _ => Some s
| String a p', String b s' => if Ascii.eqb a b then strip_prefix p' s' else None
| _, _ => None
end.

Fixpoint trim_left (c : ascii) (s : string) : string :=
match s with
| String a s' => if Ascii.eqb a c then trim_left c s' else s
| EmptyString => EmptyString
end.

(** Every byte but [/], [?] and [#]; every byte but [?] and [#]. *)
Definition authority_bytes : list (ascii * ascii) :=
[("000", "034"); ("036", "046"); ("048", "062"); ("064", "255")]%char.
Definition path_bytes : list (ascii * ascii) :=
[("000", "034"); ("036", "062"); ("064", "255")]%char.

Definition url_database (rest : string) : string :=
let '(_, after_authority) := span authority_bytes rest in
let '(path, _) := span path_bytes after_authority in
trim_left "/" path.

(** [pgx.ParseConfig(dsn).Database] for a connection URL
  ([postgres://] or [postgresql://], then the authority, then the path):
  the path without its leading slashes.  Percent escapes, the
  keyword/value form of a DSN and the environment are not modelled; a
  string that is not a URL is reported as an error. *)
Definition ParseConfig_Database (dsn : string) : error + string :=
match strip_prefix "postgres://" dsn, strip_prefix "postgresql://" dsn with
| Some rest, _ | None, Some rest => inr (url_database rest)
| None, None => inl (ErrNew ("cannot parse `" +:+ dsn +:+ "`"))
end.

(** [pgx.Connect]. *)
Definition Connect (dsn : string) (s : Server) : (error + nat) * Server :=
match ParseConfig_Database dsn with
| inl err => (inl err, s)
| inr db => Engine.connect db s
end.

End Pgx.

(** [must] on what the driver returned. *)
Definition must_ok (extra : list any) (r : M Server (option error)) : M Server unit :=
  let* err := r in lift (must err extra).

(** *** The handle *)

Record PgDb : Type := mkPgDb {
  name : string;
  dsn : string;
  rootDsn : string;
  conns : gmap string nat
}.

Definition PgDb_Name (p : PgDb) : string := dsn p.

Definition PgDb_Dsn (p : PgDb) : string := dsn p.

Definition set_conns (c : gmap string nat) (p : PgDb) : PgDb :=
  mkPgDb (name p) (dsn p) (rootDsn p) c.

(** [PgDb.connect]: the connection kept for [dsn], or a new one, which is
    kept.  (A nil map reads as an empty one.) *)
Definition PgDb_connect (p : PgDb) (dsn : string) : M Server (nat * PgDb) :=
  match conns p !! dsn with
  | Some existing => ret (existing, p)
  | None =>
      fun s =>
        match Pgx.Connect dsn s with
        | (inl err, s') => (ErrorHandler err [ASlice []], s')
        | (inr conn, s') => (Returns (conn, set_conns (<[dsn := conn]> (conns p)) p), s')
        end
  end.

(** What [QueryValue] hands to [must] for the outcome [err] of [row.Scan]. *)
Definition QueryValue_must (err : option error) : res unit :=
  match err with
  | Some e =>
      if errors_Is_NoRows e
      then must err [AString "test database query for a single value returned 0 rows"]
      else must err []
  | None => must err []
  end.

(** [PgDb.QueryValue]; [scan] is what [row.Scan] returns for the query of
    the caller. *)
Definition PgDb_QueryValue (scan : option error) (p : PgDb) : M Server (unit * PgDb) :=
  let* cp := PgDb_connect p (dsn p) in
  let* _ := lift (QueryValue_must scan) in
  ret (tt, snd cp).

Definition QueryRow_must (err : option error) : res unit :=
  match err with
  | Some e =>
      if errors_Is_NoRows e
      then must err [AString "test database query for a single row returned 0 rows"]
      else must err []
  | None => must err []
  end.

(** [PgDb.QueryRow(...)(into...)]: the call, then the function it returns. *)
Definition PgDb_QueryRow (scan : option error) (p : PgDb) : M Server (unit * PgDb) :=
  let* cp := PgDb_connect p (dsn p) in
  let* _ := lift (QueryRow_must scan) in
  ret (tt, snd cp).

(** The sessions of the handle are closed. *)
Definition close_conns (c : gmap string nat) (s : Server) : Server :=
  map_fold (fun _ conn acc => Engine.close conn acc) s c.

(** The two statements of [Drop], each after its name check. *)
Definition Drop_statements (root : nat) (name : string) : M Server unit :=
  let* n1 := lift (verifyPgDbName name) in
  do must_ok [] (Engine.exec root (TerminateBackends n1)) then
  let* n2 := lift (verifyPgDbName name) in
  must_ok [] (Engine.exec root (DropDatabaseIfExists true n2)).

(** [PgDb.Drop].  The deferred [root.Close] runs however the statements end;
    [p.conns = nil] is reached only when they return. *)
Definition PgDb_Drop (p : PgDb) : M Server (unit * PgDb) :=
  fun s =>
    match PgDb_connect p (rootDsn p) (close_conns (conns p) s) with
    | (Returns (root, p'), s1) =>
        match Drop_statements root (name p) s1 with
        | (Returns _, s2) => (Returns (tt, set_conns ∅ p'), Engine.close root s2)
        | (Halts rep, s2) => (Halts rep, Engine.close root s2)
        | (Panics msg, s2) => (Panics msg, Engine.close root s2)
        | (Blocks, s2) => (Blocks, s2)
        end
    | (Halts rep, s1) => (Halts rep, s1)
    | (Panics msg, s1) => (Panics msg, s1)
    | (Blocks, s1) => (Blocks, s1)
    end.

(** *** [pgInitializer] *)

Module pgInitializer.

Definition Connect (dsn : string) : M Server nat :=
fun s =>
  match Pgx.Connect dsn s with
  | (inl err, s') => (ErrorHandler err [ASlice []], s')
  | (inr conn, s') => (Returns conn, s')
  end.

Definition Lock (conn : nat) (name : string) : M Server unit :=
must_ok [] (Engine.exec conn (AdvisoryLock (Crc32.ChecksumIEEE name))).

Definition Unlock (conn : nat) (name : string) : M Server unit :=
must_ok [] (Engine.exec conn (AdvisoryUnlock (Crc32.ChecksumIEEE name))).

Definition Exists (conn : nat) (name : string) : M Server bool :=
let* err := Engine.exec conn (SelectDatabase name) in
match err with
| Some e =>
    if errors_Is_NoRows e then ret false
    else do lift (must err []) then ret true
| None => ret true
end.

Definition Create (conn : nat) (name : string) : M Server unit :=
let* n := lift (verifyPgDbName name) in
must_ok [] (Engine.exec conn (CreateDatabase n)).

Definition CreateFromTemplate (conn : nat) (template name : string) : M Server unit :=
let* n := lift (verifyPgDbName name) in
let* tpl := lift (verifyPgDbName template) in
must_ok [] (Engine.exec conn (CreateDatabaseTemplate n tpl)).

Definition NewDsn (base newName : string) : M Server string :=
lift (NewDsn base newName).

Definition Remove (conn : nat) (name : string) : M Server unit :=
let* n := lift (verifyPgDbName name) in
must_ok [] (Engine.exec conn (DropDatabaseIfExists false n)).

Definition NewDb (rootDsn dsn : string) : M Server PgDb :=
match Pgx.ParseConfig_Database dsn with
| inl err => lift (ErrorHandler err [ASlice []])
| inr database => ret (mkPgDb database dsn rootDsn ∅)
end.

End pgInitializer.

Definition pgInit : Initializer nat PgDb Server := {|
  Connect := pgInitializer.Connect;
  Lock := pgInitializer.Lock;
  Unlock := pgInitializer.Unlock;
  Exists := pgInitializer.Exists;
  Create := pgInitializer.Create;
  CreateFromTemplate := pgInitializer.CreateFromTemplate;
  InitNewDsn := pgInitializer.NewDsn;
  NewDb := pgInitializer.NewDb;
  Remove := pgInitializer.Remove
|}.

Definition pgDb : DbMethods PgDb Server := {|
  Drop := fun p => let* _ := PgDb_Drop p in ret tt
|}.

(** A test that calls [NewPg(t, dsn, migrator)] and ends. *)
Definition NewPg (migrator : option (Migrator Server)) (dsn : string)
    (w : World nat PgDb Server) : res PgDb * World nat PgDb Server * World nat PgDb Server :=
  run_test pgInit migrator pgDb dsn w.

(** *** Migrators *)

(** A migrator that works outside the server: its fingerprint and the outcome
    of applying the migrations at a DSN are given. *)
Definition staticMigrator (hash : res string) (migrate : string -> res unit)
    : Migrator Server := {|
  Hash := lift hash;
  Migrate := fun dsn => lift (migrate dsn)
|}.

(** How an external command ended: it ran to the end; or it did not end
    well, an [*exec.ExitError] with its [ExitCode()] (-1 when a signal ended
    the process), the text of its [Error()] ([exit status 1],
    [signal: killed]) and what it wrote to standard error; or it could not
    be run at all. *)
Inductive CmdResult : Type :=
| CmdOk (stdout : string)
| CmdExit (code : Z) (state : string) (stderr : string)
| CmdError (err : error).

Module cliMigrator.

Fixpoint trim_left_space (s : string) : string :=
match s with
| String c s' => if Ascii.is_space c then trim_left_space s' else s
| EmptyString => EmptyString
end.

Fixpoint trim_right_space (s : string) : string :=
match s with
| String c s' =>
    match trim_right_space s' with
    | EmptyString => if Ascii.is_space c then EmptyString else String c EmptyString
    | t => String c t
    end
| EmptyString => EmptyString
end.

Definition TrimSpace (s : string) : string := trim_right_space (trim_left_space s).

(** [Hash], from what [md5sum dir/* | md5sum | awk ...] gave. *)
Definition Hash (md5 : CmdResult) : res string :=
match md5 with
| CmdOk out => Returns (TrimSpace out)
| CmdExit code state stderr => ErrorHandler (ErrNew state) [ASlice []]
| CmdError err => ErrorHandler err [ASlice []]
end.

(** [Migrate], from what [migrate -database dsn -path dir up] gave: only an
  exit status is reported. *)
Definition Migrate (migrate_up : string -> CmdResult) (dsn : string) : res unit :=
match migrate_up dsn with
| CmdExit code state stderr =>
    must (Some (ErrNew ("failed to migrate test DB (exit code: "
                          +:+ pretty code +:+ "): " +:+ stderr))) []
| _ => Returns tt
end.

End cliMigrator.

Definition CliMigrator (md5 : CmdResult) (migrate_up : string -> CmdResult)
    : Migrator Server :=
  staticMigrator (cliMigrator.Hash md5) (cliMigrator.Migrate migrate_up).

(** ** Sample worlds *)

Definition empty_tb (uuids : nat -> string) : TB nat PgDb := mkTB [] [] uuids 0.

Definition fresh_server (dbs : gset string) : Server := mkServer dbs ∅ ∅ 0 [].

Definition fresh_world (dbs : gset string) (uuids : nat -> string) : World nat PgDb Server :=
  mkWorld (empty_tb uuids) (fresh_server dbs) [].

(** The same server seen by the next test. *)
Definition next_test (uuids : nat -> string) (w : World nat PgDb Server)
    : World nat PgDb Server :=
  mkWorld (empty_tb uuids) (st w) [].

Definition readme_dsn : string :=
  "postgresql://db/test_db?user=testuser&password=testpassword".

(** ** Calls and their order *)

Section Traces.

Context {Conn Db : Type}.

(** The ways code can go: [follows p r l] when a run of [p] may end as [r]
  after the calls [l], whatever the calls return.  A call that does not
  return is the last one. *)
Fixpoint follows {A} (p : Prog Conn Db A) (r : res A) (l : list (Op Conn Db)) : Prop :=
match p with
| Done a => r = Returns a /\ l = []
| Do o k =>
    (is_returns r = false /\ l = [o])
    \/ (exists x l', l = o :: l' /\ follows (k x) r l')
end.

Definition isConnect (o : Op Conn Db) : bool :=
match o with OpConnect _ => true | _ => false end.
Definition isHash (o : Op Conn Db) : bool :=
match o with OpHash => true | _ => false end.
Definition isMigrate (o : Op Conn Db) : bool :=
match o with OpMigrate _ => true | _ => false end.
Definition isLock (o : Op Conn Db) : bool :=
match o with OpLock _ _ => true | _ => false end.
Definition isUnlock (o : Op Conn Db) : bool :=
match o with OpUnlock _ _ => true | _ => false end.
Definition isExists (o : Op Conn Db) : bool :=
match o with OpExists _ _ => true | _ => false end.
Definition isCreate (o : Op Conn Db) : bool :=
match o with OpCreate _ _ => true | _ => false end.
Definition isCreateFromTemplate (o : Op Conn Db) : bool :=
match o with OpCreateFromTemplate _ _ _ => true | _ => false end.
Definition isRemove (o : Op Conn Db) : bool :=
match o with OpRemove _ _ => true | _ => false end.

(** The connection and the name of a call to [Lock], of a call to [Unlock]. *)
Definition lock_of (o : Op Conn Db) : option (Conn * string) :=
match o with OpLock c n => Some (c, n) | _ => None end.
Definition unlock_of (o : Op Conn Db) : option (Conn * string) :=
match o with OpUnlock c n => Some (c, n) | _ => None end.

(** The connection and the template name of a call that is given one, and
  of the cleanup that [New] registers for the template. *)
Definition on_template (o : Op Conn Db) : option (Conn * string) :=
match o with
| OpLock c n | OpUnlock c n | OpExists c n | OpCreate c n => Some (c, n)
| OpCreateFromTemplate c template _ => Some (c, template)
| OpCleanup (RemoveUnlessDone _ c n) => Some (c, n)
| _ => None
end.

(** The calls a cleanup of [New] can make. *)
Definition isCleanupCall (o : Op Conn Db) : bool :=
match o with OpVarGet _ | OpRemove _ _ | OpDrop _ => true | _ => false end.

(** How many of the calls [l] are of the kind [f]. *)
Fixpoint count (f : Op Conn Db -> bool) (l : list (Op Conn Db)) : nat :=
match l with
| [] => 0
| o :: l' => (if f o then 1 else 0) + count f l'
end.

(** No call of the kind [g] comes before the first call of the kind [f]. *)
Fixpoint preceded (f g : Op Conn Db -> bool) (l : list (Op Conn Db)) : bool :=
match l with
| [] => true
| o :: l' => if f o then true else negb (g o) && preceded f g l'
end.

(** The calls made from the [n]-th on. *)
Definition calls_from {St} (n : nat) (w : World Conn Db St) : list (Op Conn Db) :=
drop n (calls w).

End Traces.

(** ** Auxiliary notions for the properties *)

(** Every call that [p] can make is of the kind [P]. *)
Fixpoint all_ops {Conn Db A} (P : Op Conn Db -> bool) (p : Prog Conn Db A) : Prop :=
  match p with
  | Done _ => True
  | Do o k => P o = true /\ forall x, all_ops P (k x)
  end.

Definition non_removing {Conn Db} (o : Op Conn Db) : bool :=
  match o with OpRemove _ _ | OpDrop _ => false | _ => true end.

(** A migrator with the fingerprint [hash]. *)
Definition migrator_of (hash : string) (migrate : string -> res unit)
    : option (Migrator Server) :=
  Some (staticMigrator (Returns hash) migrate).

(** The name of the template for a fingerprint, and its lock key. *)
Definition template_of (hash : string) : string := "test_template_" +:+ hash.
Definition key_of (hash : string) : Z := Crc32.ChecksumIEEE (template_of hash).

(** Identifiers for the sample runs: the [n]-th draw ends in [n]. *)
Definition sample_uuids (n : nat) : string :=
  "6ba7b810-9dad-11d1-80b4-00c04fd430c" +:+ pretty n.

Definition migrate_ok (dsn : string) : res unit := Returns tt.

Definition migrate_fails (dsn : string) : res unit :=
  must (Some (ErrNew "failed to migrate test DB (exit code: 1): error: migration failed")) [].

(** The value a call returned ([dflt] when it did not return). *)
Definition returned {A} (dflt : A) (r : res A) : A :=
  match r with Returns a => a | _ => dflt end.

Definition no_handle : PgDb := mkPgDb "" "" "" ∅.

(** Two calls in a row on a server without the template. *)
Definition reuse_w0 : World nat PgDb Server := fresh_world {["test_db"]} sample_uuids.
Definition reuse_first : res PgDb * World nat PgDb Server :=
  run pgInit (migrator_of "abc" migrate_ok) pgDb (New readme_dsn) reuse_w0.
Definition reuse_w1 : World nat PgDb Server := snd reuse_first.
Definition reuse_second : res PgDb * World nat PgDb Server :=
  run pgInit (migrator_of "abc" migrate_ok) pgDb (New readme_dsn)
    (mkWorld (tb reuse_w1) (st reuse_w1) []).

(** A handle on an instance database of the sample server. *)
Definition sample_handle : PgDb :=
  mkPgDb "test_db_1" "postgresql://db/test_db_1?user=testuser" "postgresql://db/test_db?user=testuser" ∅.

(** A server where a second session is connected to the database [victim]. *)
Definition busy_server : Server :=
  mkServer {["postgres"; "victim"]} {[0 := "postgres"; 1 := "victim"]} ∅ 2 [].

(** A server with a database whose name has an upper-case letter. *)
Definition mixed_case_server : Server :=
  mkServer {["postgres"; "Victim"]} {[0 := "postgres"]} ∅ 1 [].

(** ** Tests that run at the same time *)

Section Concurrency.

Context {Conn Db St : Type}.
Variable h : Initializer Conn Db St.
Variable m : option (Migrator St).
Variable d : DbMethods Db St.

(** A test: the code of its call to [New] that is still to run, or how the
    call ended; and its [t]. *)
Record Thread : Type := mkThread {
  code : Prog Conn Db Db + res Db;
  ttb : TB Conn Db
}.

(** The tests, the state they share, and all their calls in the order in
    which they were made. *)
Record System : Type := mkSystem {
  threads : list Thread;
  shared : St;
  history : list (Op Conn Db)
}.

Definition halted {A B} (r : res A) : res B :=
  match r with
  | Halts rep => Halts rep
  | Panics msg => Panics msg
  | _ => Blocks
  end.

(** One step of a test: the next call of [New], which must not have to wait;
    or, once [New] has ended, the cleanup registered last. *)
Definition thread_step (t : Thread) (s : St) (hist : list (Op Conn Db))
    : option (Thread * St * list (Op Conn Db)) :=
  match code t with
  | inl (Done db) => Some (mkThread (inr (Returns db)) (ttb t), s, hist)
  | inl (Do o k) =>
      match step h m d o (mkWorld (ttb t) s hist) with
      | (Returns x, w') => Some (mkThread (inl (k x)) (tb w'), st w', calls w')
      | (Blocks, _) => None
      | (r, w') => Some (mkThread (inr (halted r)) (tb w'), st w', calls w')
      end
  | inr Blocks => None
  | inr r =>
      match cleanups (ttb t) with
      | [] => None
      | f :: fs =>
          let t' := mkTB fs (vars (ttb t)) (uuids (ttb t)) (drawn (ttb t)) in
          match run h m d (closure_code f) (mkWorld t' s hist) with
          | (Blocks, _) => None
          | (_, w') => Some (mkThread (inr r) (tb w'), st w', calls w')
          end
      end
  end.

(** A step of the system is a step of one of its tests. *)
Definition sys_step (i : nat) (sys : System) : option System :=
  match threads sys !! i with
  | None => None
  | Some t =>
      match thread_step t (shared sys) (history sys) with
      | Some (t', s', hist') => Some (mkSystem (<[i := t']> (threads sys)) s' hist')
      | None => None
      end
  end.

Inductive reachable (sys0 : System) : System -> Prop :=
| reach_start : reachable sys0 sys0
| reach_step sys i sys' :
    reachable sys0 sys -> sys_step i sys = Some sys' -> reachable sys0 sys'.

(** The tests named in [schedule] step in turn; a test that cannot step is
    passed over. *)
Fixpoint run_schedule (schedule : list nat) (sys : System) : System :=
  match schedule with
  | [] => sys
  | i :: rest =>
      match sys_step i sys with
      | Some sys' => run_schedule rest sys'
      | None => run_schedule rest sys
      end
  end.

(** Tests that are about to call [New], each with its DSN and its source of
    identifiers. *)
Definition start (jobs : list (string * (nat -> string))) (s0 : St) : System :=
  mkSystem (map (fun job => mkThread (inl (New (fst job))) (mkTB [] [] (snd job) 0)) jobs)
           s0 [].


End Concurrency.

Arguments Thread : clear implicits.
Arguments System : clear implicits.

(** ** Where a call to [New] stands *)

Section Stages.

Context {Conn Db : Type}.

(** The call a test will make next, with the values [New] has by then. *)
Inductive Stage : Type :=
| SConnect
| SHash (root : Conn)
| SLock (root : Conn)
| SExists (root : Conn)
| SCreate (root : Conn)
| SVarNew (root : Conn)
| SRegister (root : Conn) (v : nat)
| STemplateDsn (root : Conn) (v : nat)
| SMigrate (root : Conn) (v : nat) (templateDsn : string)
| SMarkDone (root : Conn) (v : nat)
| SUuid (root : Conn)
| SClone (root : Conn) (u : string)
| SUnlock (root : Conn) (testDbName : string)
| SInstanceDsn (testDbName : string)
| SNewDb (testDbName testDbDsn : string)
| SRegisterDrop (db : Db)
| SReturn (db : Db).

Variable dsn : string.
Variable tn : string.

(** The code of [New] from each stage on, the last stage first. *)
Definition code_return (db : Db) : Prog Conn Db Db := Done db.
Definition code_register_drop (db : Db) : Prog Conn Db Db :=
  Do (OpCleanup (DropDb db)) (fun _ => code_return db).
Definition code_newdb (testDbDsn : string) : Prog Conn Db Db :=
  Do (OpNewDb dsn testDbDsn) code_register_drop.
Definition code_instance_dsn (testDbName : string) : Prog Conn Db Db :=
  Do (OpNewDsn dsn testDbName) code_newdb.
Definition code_unlock (root : Conn) (testDbName : string) : Prog Conn Db Db :=
  Do (OpUnlock root tn) (fun _ => code_instance_dsn testDbName).
Definition instance_name (u : string) : string := "test_db_" +:+ Bytes.remove_byte "-" u.
Definition code_clone (root : Conn) (u : string) : Prog Conn Db Db :=
  Do (OpCreateFromTemplate root tn (instance_name u))
     (fun _ => code_unlock root (instance_name u)).
Definition code_uuid (root : Conn) : Prog Conn Db Db := Do OpUuid (code_clone root).
Definition code_mark_done (root : Conn) (v : nat) : Prog Conn Db Db :=
  Do (OpVarSet v true) (fun _ => code_uuid root).
Definition code_migrate (root : Conn) (v : nat) (templateDsn : string) : Prog Conn Db Db :=
  Do (OpMigrate templateDsn) (fun _ => code_mark_done root v).
Definition code_template_dsn (root : Conn) (v : nat) : Prog Conn Db Db :=
  Do (OpNewDsn dsn tn) (code_migrate root v).
Definition code_register (root : Conn) (v : nat) : Prog Conn Db Db :=
  Do (OpCleanup (RemoveUnlessDone v root tn)) (fun _ => code_template_dsn root v).
Definition code_var_new (root : Conn) : Prog Conn Db Db :=
  Do (OpVarNew false) (code_register root).
Definition code_create (root : Conn) : Prog Conn Db Db :=
  Do (OpCreate root tn) (fun _ => code_var_new root).
Definition code_exists (root : Conn) : Prog Conn Db Db :=
  Do (OpExists root tn)
     (fun exists_ => if negb exists_ then code_create root else code_uuid root).
Definition code_lock (root : Conn) : Prog Conn Db Db :=
  Do (OpLock root tn) (fun _ => code_exists root).

Definition stage_code (s : Stage) : Prog Conn Db Db :=
  match s with
  | SConnect => New dsn
  | SHash root =>
      Do OpHash (fun migrationHash =>
        let templateName := "test_template_" +:+ migrationHash in
        Do (OpLock root templateName) (fun _ =>
        Do (OpExists root templateName) (fun exists_ =>
        if negb exists_
        then New_build dsn root templateName
        else New_clone dsn root templateName)))
  | SLock root => code_lock root
  | SExists root => code_exists root
  | SCreate root => code_create root
  | SVarNew root => code_var_new root
  | SRegister root v => code_register root v
  | STemplateDsn root v => code_template_dsn root v
  | SMigrate root v templateDsn => code_migrate root v templateDsn
  | SMarkDone root v => code_mark_done root v
  | SUuid root => code_uuid root
  | SClone root u => code_clone root u
  | SUnlock root testDbName => code_unlock root testDbName
  | SInstanceDsn testDbName => code_instance_dsn testDbName
  | SNewDb _ testDbDsn => code_newdb testDbDsn
  | SRegisterDrop db => code_register_drop db
  | SReturn db => code_return db
  end.

(** What the invariant remembers of a test: the stage of its call, or that
    the call has ended, outside the lock or inside it. *)
Inductive Ghost : Type :=
| GRun (s : Stage)
| GFree
| GStuck (root : Conn).

(** The connection of a test that holds the lock. *)
Definition in_cr (g : Ghost) : option Conn :=
  match g with
  | GRun (SExists r) | GRun (SCreate r) | GRun (SVarNew r) | GRun (SRegister r _)
  | GRun (STemplateDsn r _) | GRun (SMigrate r _ _) | GRun (SMarkDone r _)
  | GRun (SUuid r) | GRun (SClone r _) | GRun (SUnlock r _) | GStuck r => Some r
  | _ => None
  end.

(** The connection of a test that has not released the lock yet. *)
Definition root_of (g : Ghost) : option Conn :=
  match g with
  | GRun (SHash r) | GRun (SLock r) => Some r
  | _ => in_cr g
  end.

(** The test has made the template and not migrated it, or it stopped while
    it held the lock. *)
Definition building (g : Ghost) : bool :=
  match g with
  | GRun (SVarNew _) | GRun (SRegister _ _) | GRun (STemplateDsn _ _)
  | GRun (SMigrate _ _ _) | GStuck _ => true
  | _ => false
  end.

Definition stuck (g : Ghost) : bool :=
  match g with GStuck _ => true | _ => false end.

End Stages.

Arguments Stage : clear implicits.
Arguments Ghost : clear implicits.

(** ** The invariant of concurrent provisioning on Postgres *)

(** A DSN of the usual form: its database is not named like an instance, and
    the handle made from a rewritten DSN names the database written into it. *)
Definition admin_dsn (dsn : string) : Prop :=
  (forall D, Pgx.ParseConfig_Database dsn = inr D -> String.prefix "test_db_" D = false)
  /\ (forall n out, verifyPgDbName n = Returns n -> NewDsn dsn n = Returns out ->
        Pgx.ParseConfig_Database out = inr n).

Section Invariant.

(** The database the tests connect to, their fingerprint, and the databases
    of the server at the start. *)
Variable D : string.
Variable hash : string.
Variable dbs0 : gset string.

Definition live (s : Server) (root : nat) : Prop := is_Some (sessions s !! root).

Definition connected (s : Server) (root : nat) : Prop := sessions s !! root = Some D.

(** The session holds the lock of the template, in the database of the
    tests. *)
Definition holds (s : Server) (root : nat) : Prop :=
  advisory s !! (D, key_of hash) = Some (root, 1) /\ connected s root.

(** Some migration has been applied, unless the template was there from the
    start. *)
Definition fingerprinted (k : nat) : Prop := template_of hash ∉ dbs0 -> 1 <= k.

Definition instance_handle (dsn : string) (p : PgDb) : Prop :=
  String.prefix "test_db_" (name p) = true /\ conns p = ∅ /\ rootDsn p = dsn.

(** A cleanup that will not call [Remove]. *)
Definition closure_ok (dsn : string) (vs : list bool) (f : Closure nat PgDb) : Prop :=
  match f with
  | DropDb p => instance_handle dsn p
  | RemoveUnlessDone v _ _ => vs !! v = Some true
  end.

(** A cleanup that drops instances only, if it drops a handle. *)
Definition closure_safe (dsn : string) (f : Closure nat PgDb) : Prop :=
  match f with
  | DropDb p => instance_handle dsn p
  | RemoveUnlessDone _ _ _ => True
  end.

Definition settled (dsn : string) (t : TB nat PgDb) : Prop :=
  Forall (closure_ok dsn (vars t)) (cleanups t).

Definition pending (t : TB nat PgDb) (v root : nat) : Prop :=
  cleanups t = [RemoveUnlessDone v root (template_of hash)] /\ vars t !! v = Some false.

Definition verified_instance (n : string) : Prop :=
  verifyPgDbName n = Returns n /\ String.prefix "test_db_" n = true.

Definition stage_ok (dsn : string) (s : Server) (k : nat) (t : TB nat PgDb)
    (g : Stage nat PgDb) : Prop :=
  match g with
  | SConnect => cleanups t = []
  | SHash root | SLock root => connected s root /\ cleanups t = []
  | SExists root => holds s root /\ cleanups t = []
  | SCreate root => holds s root /\ cleanups t = [] /\ k = 0 /\ template_of hash ∉ dbs0
  | SVarNew root =>
      holds s root /\ cleanups t = [] /\ k = 0 /\ template_of hash ∈ databases s
      /\ template_of hash ∉ dbs0
  | SRegister root v =>
      holds s root /\ cleanups t = [] /\ vars t !! v = Some false
      /\ k = 0 /\ template_of hash ∈ databases s /\ template_of hash ∉ dbs0
  | STemplateDsn root v | SMigrate root v _ =>
      holds s root /\ pending t v root /\ k = 0 /\ template_of hash ∈ databases s
      /\ template_of hash ∉ dbs0
  | SMarkDone root v =>
      holds s root /\ pending t v root /\ template_of hash ∈ databases s /\ 1 <= k
  | SUuid root | SClone root _ =>
      holds s root /\ settled dsn t /\ template_of hash ∈ databases s /\ fingerprinted k
  | SUnlock root n =>
      holds s root /\ settled dsn t /\ template_of hash ∈ databases s /\ fingerprinted k
      /\ verified_instance n
  | SInstanceDsn n => settled dsn t /\ fingerprinted k /\ verified_instance n
  | SNewDb n out =>
      settled dsn t /\ fingerprinted k /\ verified_instance n /\ NewDsn dsn n = Returns out
  | SRegisterDrop db => settled dsn t /\ fingerprinted k /\ instance_handle dsn db
  | SReturn db => settled dsn t /\ fingerprinted k
  end.

Definition ghost_ok (dsn : string) (s : Server) (k : nat) (th : Thread nat PgDb)
    (g : Ghost nat PgDb) : Prop :=
  match g with
  | GRun sg =>
      code th = inl (stage_code dsn (template_of hash) sg) /\ stage_ok dsn s k (ttb th) sg
  | GFree =>
      (exists r, code th = inr r /\ (is_returns r = true -> fingerprinted k))
      /\ settled dsn (ttb th)
  | GStuck root =>
      (exists r, code th = inr r /\ is_returns r = false)
      /\ holds s root
      /\ Forall (closure_safe dsn) (cleanups (ttb th))
      /\ (template_of hash ∈ dbs0 -> settled dsn (ttb th))
  end.

(** No test but [i] holds the lock. *)
Definition alone (gs : list (Ghost nat PgDb)) (i : nat) : Prop :=
  forall j g, j <> i -> gs !! j = Some g -> in_cr g = None.

(** The sessions are administrative ones, every lock is held by a live
    session, and process ids are given out in increasing order. *)
Record server_ok (s : Server) : Prop := {
  ok_admin : forall pid db, sessions s !! pid = Some db -> String.prefix "test_db_" db = false;
  ok_holder : forall key holder c, advisory s !! key = Some (holder, c) -> live s holder;
  ok_pids : forall pid, live s pid -> pid < next_pid s
}.

Record Inv (jobs : list (string * (nat -> string))) (sys : System nat PgDb Server)
    (gs : list (Ghost nat PgDb)) : Prop := {
  inv_jobs : length (threads sys) = length jobs;
  inv_ghosts : length gs = length jobs;
  inv_threads : forall i job th g,
      jobs !! i = Some job -> threads sys !! i = Some th -> gs !! i = Some g ->
      ghost_ok (fst job) (shared sys) (count isMigrate (history sys)) th g;
  inv_server : server_ok (shared sys);
  inv_roots : forall i j gi gj r,
      gs !! i = Some gi -> gs !! j = Some gj ->
      root_of gi = Some r -> root_of gj = Some r -> i = j;
  inv_lock : forall holder c,
      advisory (shared sys) !! (D, key_of hash) = Some (holder, c) ->
      exists i g, gs !! i = Some g /\ in_cr g = Some holder;
  inv_once : count isMigrate (history sys) <= 1;
  inv_template : count isMigrate (history sys) = 1 ->
      template_of hash ∈ databases (shared sys)
      \/ exists i g, gs !! i = Some g /\ stuck g = true;
  inv_origin : template_of hash ∉ dbs0 -> count isMigrate (history sys) = 0 ->
      template_of hash ∈ databases (shared sys) ->
      exists i g, gs !! i = Some g /\ building g = true;
  inv_warm : template_of hash ∈ dbs0 ->
      template_of hash ∈ databases (shared sys) /\ count isMigrate (history sys) = 0
}.

End Invariant.

(** ** Sample concurrent runs *)

(** The tests step in turn, [rounds] times over. *)
Definition round_robin (n rounds : nat) : list nat := concat (replicate rounds (seq 0 n)).

(** Two tests on the DSN of the README, with identifiers of their own. *)
Definition two_tests : list (string * (nat -> string)) :=
  [(readme_dsn, sample_uuids); (readme_dsn, fun n => sample_uuids (S n))].






(** ** Further notions *)

(** Lower-case letters, digits and the underscore: the bytes of a name that
    reads the same with and without quotes. *)
Definition lower_word : list (ascii * ascii) := [("a", "z"); ("0", "9"); ("_", "_")]%char.


(** The next call of the test is one of those [New] makes between [Lock] and
    [Unlock]: lines 156 to 174 of [New]. *)
Definition in_region {Conn Db} (templateName : string) (c : Prog Conn Db Db + res Db) : bool :=
  match c with
  | inl (Do o _) =>
      match o with
      | OpExists _ _ | OpCreate _ _ | OpVarNew _ | OpMigrate _ | OpVarSet _ _ | OpUuid
      | OpCreateFromTemplate _ _ _ | OpUnlock _ _
      | OpCleanup (RemoveUnlessDone _ _ _) => true
      | OpNewDsn _ newName => String.eqb newName templateName
      | _ => false
      end
  | _ => false
  end.


(** ** [Insert] *)

Module PgInsert.

Section Insert.

(** The values handed to the driver as statement arguments. *)
Context {V : Type}.

(** [strings.Join]. *)
Fixpoint Join (elems : list string) (sep : string) : string :=
  match elems with
  | [] => ""
  | [x] => x
  | x :: rest => x +:+ sep +:+ Join rest sep
  end.

(** The body of [for name, val := range entry]: one column more.  [i] is the
    number of the next placeholder. *)
Record Columns : Type := mkColumns {
  args : list V;
  cols : list string;
  vals : list string;
  i : nat
}.

Definition add_column (acc : Columns) (nv : string * V) : Columns :=
  mkColumns (args acc ++ [snd nv]) (cols acc ++ [fst nv])
            (vals acc ++ ["$" +:+ pretty (i acc)]) (S (i acc)).

(** The inner loop.  A Go map is ranged over in an order of its own; [entry]
    lists the pairs of the map in the order in which this loop meets them. *)
Definition Insert_columns (entry : list (string * V)) : Columns :=
  fold_left add_column entry (mkColumns [] [] [] 1).

(** The statement for one entry, and its arguments. *)
Definition Insert_statement (table : string) (entry : list (string * V))
    : string * list V :=
  let c := Insert_columns entry in
  ("INSERT INTO " +:+ table +:+ "(" +:+ Join (cols c) "," +:+ ") VALUES("
     +:+ Join (vals c) "," +:+ ")",
   args c).

(** What [conn.Exec] answers to a statement, given the statements this
    connection has sent before. *)
Variable Exec : list (string * list V) -> string * list V -> option error.

(** The outer loop: [sent] is what has been sent so far. *)
Fixpoint Insert_entries (table : string) (data : list (list (string * V)))
    (sent : list (string * list V)) : res unit * list (string * list V) :=
  match data with
  | [] => (Returns tt, sent)
  | entry :: rest =>
      let q := Insert_statement table entry in
      match must (Exec sent q) [] with
      | Returns _ => Insert_entries table rest (sent ++ [q])
      | Halts rep => (Halts rep, sent ++ [q])
      | Panics msg => (Panics msg, sent ++ [q])
      | Blocks => (Blocks, sent ++ [q])
      end
  end.

(** [PgDb.Insert]: the connection for [p.dsn], then the entries.  The result
    holds what was sent. *)
Definition PgDb_Insert (table : string) (data : list (list (string * V))) (p : PgDb)
    : M Server (list (string * list V) * PgDb) :=
  let* cp := PgDb_connect p (dsn p) in
  fun s =>
    match Insert_entries table data [] with
    | (Returns _, sent) => (Returns (sent, snd cp), s)
    | (Halts rep, _) => (Halts rep, s)
    | (Panics msg, _) => (Panics msg, s)
    | (Blocks, _) => (Blocks, s)
    end.

End Insert.

End PgInsert.

(** ** Sample servers *)

(** A server with one administrative session, and a test on it for which
    that session holds the lock of the fingerprint [abc]. *)
Definition admin_server : Server :=
  mkServer {["test_db"]} {[0 := "test_db"]} ∅ 1 [].

Definition locked_world : World nat PgDb Server :=
  mkWorld (empty_tb sample_uuids)
    (mkServer {["test_db"]} {[0 := "test_db"]} {[("test_db", key_of "abc") := (0, 1)]} 1 []) [].

(** A server that has the database of [sample_handle]. *)
Definition instance_server : Server :=
  mkServer {["test_db"; "test_db_1"]} ∅ ∅ 0 [].

(** A handle whose name does not pass the check. *)
Definition unsafe_handle : PgDb :=
  mkPgDb "my-db" "postgresql://db/my-db?user=testuser" "postgresql://db/test_db?user=testuser" ∅.

(** Two tests three rounds into their run: the first one holds the lock. *)
Definition lock_held_run : System nat PgDb Server :=
  run_schedule pgInit (migrator_of "abc" migrate_ok) pgDb (round_robin 2 3)
    (start two_tests (fresh_server {["test_db"]})).

(** The test at position [k] of a run. *)
Definition test_at (k : nat) (sys : System nat PgDb Server) : Thread nat PgDb :=
  nth k (threads sys) (mkThread (inr Blocks) (empty_tb sample_uuids)).

(** * Properties *)

(** ** Byte strings and the regular expressions *)

Module StringFacts.
Import Bytes Regexp.

Lemma app_cons c s t : String c s +:+ t = String c (s +:+ t).
Proof. reflexivity. Qed.

Lemma app_nil_r s : s +:+ "" = s.
Proof. induction s as [|c s IH]; [reflexivity|]. now rewrite app_cons, IH. Qed.

Lemma app_assoc s t u : (s +:+ t) +:+ u = s +:+ t +:+ u.
Proof. induction s as [|c s IH]; [reflexivity|]. now rewrite !app_cons, IH. Qed.

Lemma length_app s t : String.length (s +:+ t) = String.length s + String.length t.
Proof. induction s as [|c s IH]; [reflexivity|]. rewrite app_cons. simpl. now rewrite IH. Qed.

Lemma all_in_app cls s t : all_in cls (s +:+ t) = all_in cls s && all_in cls t.
Proof.
induction s as [|c s IH]; [reflexivity|].
rewrite app_cons. simpl. now rewrite IH, andb_assoc.
Qed.

(** The run of class bytes stops at the first byte outside the class. *)
Lemma span_stop cls s c r :
all_in cls s = true -> in_class cls c = false ->
span cls (s +:+ String c r) = (s, String c r).
Proof.
intros Hs Hc. induction s as [|a s IH].
- change (span cls (String c r) = ("", String c r)). simpl. now rewrite Hc.
- rewrite app_cons. simpl in *. apply andb_true_iff in Hs as [Ha Hs].
  now rewrite Ha, (IH Hs).
Qed.

(** Appending a text that starts outside the class leaves the run alone. *)
Lemma span_app_stop cls s c t :
in_class cls c = false ->
span cls (s +:+ String c t) = (fst (span cls s), snd (span cls s) +:+ String c t).
Proof.
intros Hc. induction s as [|a s IH].
- change (span cls (String c t) = ("", String c t)). simpl. now rewrite Hc.
- rewrite app_cons. simpl. destruct (in_class cls a); [|reflexivity].
  rewrite IH. now destruct (span cls s).
Qed.

Lemma span_length cls s :
String.length (fst (span cls s)) + String.length (snd (span cls s)) = String.length s.
Proof.
induction s as [|a s IH]; [reflexivity|]. simpl.
destruct (in_class cls a); [|reflexivity].
destruct (span cls s); simpl in *. lia.
Qed.

Lemma take_app s t : take (String.length s) (s +:+ t) = s.
Proof. induction s as [|c s IH]; [now destruct t|]. rewrite app_cons. simpl. now rewrite IH. Qed.

(** *** Matches of ["/\w+\?"] *)

Lemma match_here_hit db post :
db <> "" -> all_in word db = true ->
match_here ("/" +:+ db +:+ "?" +:+ post) = Some (S (S (String.length db))).
Proof.
intros Hne Hw.
change ("/" +:+ db +:+ "?" +:+ post) with (String "/" (db +:+ String "?" post)).
unfold match_here. rewrite (span_stop word db "?" post Hw eq_refl).
destruct db; [congruence|reflexivity].
Qed.

Lemma match_here_bound s len : match_here s = Some len -> len <= String.length s.
Proof.
unfold match_here. destruct s as [|c s1]; [discriminate|].
destruct (Ascii.eqb_spec c "/") as [->|Hc].
- pose proof (span_length word s1) as Hl.
  destruct (span word s1) as [[|a w] [|q r]]; try discriminate.
  destruct (Ascii.eqb_spec q "?") as [->|Hq].
  + intros [= <-]. simpl in *. lia.
  + destruct q as [[] [] [] [] [] [] [] []]; try discriminate; congruence.
- destruct c as [[] [] [] [] [] [] [] []]; try discriminate; congruence.
Qed.

Lemma match_here_slash s : match_here s <> None -> exists s1, s = String "/" s1.
Proof.
destruct s as [|c s1]; [easy|].
destruct (Ascii.eqb_spec c "/") as [->|Hc]; [eauto|].
intros H. exfalso. apply H. unfold match_here.
destruct c as [[] [] [] [] [] [] [] []]; try reflexivity; congruence.
Qed.

Lemma match_here_cons_slash s1 :
match_here (String "/" s1) =
match span word s1 with
| (String c w, String "?" _) => Some (S (S (String.length (String c w))))
| _ => None
end.
Proof. reflexivity. Qed.

(** A text put after [s], a slash first, neither adds a match that starts
  in [s] nor takes one away. *)
Lemma match_here_app_slash s t :
s <> "" -> match_here (s +:+ String "/" t) = match_here s.
Proof.
intros Hne. destruct (match_here s) as [len|] eqn:Hm.
- destruct (match_here_slash s) as [s1 ->]; [congruence|].
  rewrite app_cons, match_here_cons_slash in *.
  rewrite (span_app_stop word s1 "/" t eq_refl).
  destruct (span word s1) as [[|a w] [|q r]]; simpl in *; try discriminate.
  exact Hm.
- destruct s as [|c s1]; [congruence|].
  destruct (Ascii.eqb_spec c "/") as [->|Hc].
  + rewrite app_cons, match_here_cons_slash in *.
    rewrite (span_app_stop word s1 "/" t eq_refl).
    destruct (span word s1) as [[|a w] [|q r]]; simpl in *; try reflexivity.
    exact Hm.
  + rewrite app_cons. unfold match_here.
    destruct c as [[] [] [] [] [] [] [] []]; try reflexivity; congruence.
Qed.

(** *** Replacement *)

Lemma replace_all_nil k tpl : replace_all k "" tpl = "".
Proof. now destruct k. Qed.

Lemma replace_all_skip s t tpl :
replace_all (String.length s) (s +:+ t) tpl = replace_all 0 t tpl.
Proof. induction s as [|c s IH]; [reflexivity|]. rewrite app_cons. simpl. exact IH. Qed.

Lemma take_app_le n s t : n <= String.length s -> take n (s +:+ t) = take n s.
Proof.
revert n. induction s as [|c s IH]; intros [|n] Hn; simpl in Hn.
- reflexivity.
- lia.
- reflexivity.
- rewrite app_cons. simpl. rewrite IH by lia. reflexivity.
Qed.

Lemma replace_all_unfold c rest tpl :
replace_all 0 (String c rest) tpl =
match match_here (String c rest) with
| Some len =>
    expand 0 tpl (take len (String c rest)) +:+ replace_all (len - 1) rest tpl
| None => String c (replace_all 0 rest tpl)
end.
Proof. reflexivity. Qed.

Lemma replace_all_app_slash tpl t pre k :
k <= String.length pre ->
replace_all k (pre +:+ String "/" t) tpl
= replace_all k pre tpl +:+ replace_all 0 (String "/" t) tpl.
Proof.
revert k. induction pre as [|c pre IH]; intros k Hk.
- simpl in Hk. assert (k = 0) as -> by lia. reflexivity.
- destruct k as [|k].
  + rewrite (replace_all_unfold c pre).
    pose proof (match_here_app_slash (String c pre) t) as Hm.
    rewrite app_cons in *. rewrite replace_all_unfold, Hm by discriminate.
    destruct (match_here (String c pre)) as [len|] eqn:Hlen.
    * apply match_here_bound in Hlen as Hb. simpl in Hb.
      rewrite IH by lia. rewrite app_assoc. f_equal.
      rewrite <- app_cons. now rewrite take_app_le.
    * rewrite IH by lia. reflexivity.
  + rewrite app_cons. cbn [replace_all]. apply IH. simpl in Hk. lia.
Qed.

Lemma replace_all_no_match s tpl :
dsn_MatchString s = false -> replace_all 0 s tpl = s.
Proof.
induction s as [|c s IH]; [reflexivity|].
intros H. rewrite replace_all_unfold.
cbn [dsn_MatchString] in H.
destruct (match_here (String c s)); [discriminate|].
now rewrite IH.
Qed.

Lemma dsn_MatchString_app pre s :
match_here s <> None -> dsn_MatchString (pre +:+ s) = true.
Proof.
intros Hs. induction pre as [|c pre IH].
- change ("" +:+ s) with s. destruct s; cbn [dsn_MatchString];
    destruct (match_here _); congruence.
- rewrite app_cons. cbn [dsn_MatchString].
  destruct (match_here (String c (pre +:+ s))); [reflexivity|exact IH].
Qed.

(** *** Templates *)

Lemma expand_literal tpl matched :
contains "$" tpl = false -> expand 0 tpl matched = tpl.
Proof.
induction tpl as [|c tpl IH]; [reflexivity|].
cbn [contains expand]. intros H. apply orb_false_iff in H as [Hc H].
rewrite Ascii.eqb_sym, Hc. now rewrite IH.
Qed.

Lemma contains_app c s t : contains c (s +:+ t) = contains c s || contains c t.
Proof.
induction s as [|a s IH]; [reflexivity|].
rewrite app_cons. simpl. now rewrite IH, orb_assoc.
Qed.

Lemma all_in_contains cls c s :
in_class cls c = false -> all_in cls s = true -> contains c s = false.
Proof.
intros Hc. induction s as [|a s IH]; [reflexivity|]. simpl.
intros [Ha Hs]%andb_true_iff. rewrite (IH Hs), orb_false_r.
destruct (Ascii.eqb_spec c a) as [->|]; congruence.
Qed.

(** A name that [verifyPgDbName] lets through holds no dollar. *)
Lemma verified_no_dollar n : verifyPgDbName n = Returns n -> contains "$" n = false.
Proof.
unfold verifyPgDbName, pgDbNameRegex_MatchString.
destruct (negb (is_empty n) && all_in pgDbNameClass n) eqn:H; [|discriminate].
intros _. apply andb_true_iff in H as [_ H].
now apply (all_in_contains pgDbNameClass).
Qed.

(** The rewriting of a DSN, match by match. *)
Lemma NewDsn_rewrite pre db post newName :
db <> "" -> all_in word db = true -> contains "$" newName = false ->
NewDsn (pre +:+ "/" +:+ db +:+ "?" +:+ post) newName
= Returns (replace_all 0 pre ("/" +:+ newName +:+ "?")
             +:+ "/" +:+ newName +:+ "?"
             +:+ replace_all 0 post ("/" +:+ newName +:+ "?")).
Proof.
intros Hne Hw Hd. unfold NewDsn, dsn_ReplaceAllString.
rewrite dsn_MatchString_app by (rewrite match_here_hit by assumption; discriminate).
f_equal.
change ("/" +:+ db +:+ "?" +:+ post) with (String "/" (db +:+ "?" +:+ post)).
rewrite replace_all_app_slash by lia. f_equal.
rewrite replace_all_unfold.
change (String "/" (db +:+ "?" +:+ post)) with ("/" +:+ db +:+ "?" +:+ post).
rewrite match_here_hit by assumption.
rewrite expand_literal.
2:{ change ("/" +:+ newName +:+ "?") with (String "/" (newName +:+ "?")).
    cbn [contains]. rewrite contains_app, Hd. reflexivity. }
replace (S (S (String.length db)) - 1) with (String.length (db +:+ "?"))
  by (rewrite length_app; simpl; lia).
rewrite <- (app_assoc db "?" post), replace_all_skip.
now rewrite !app_assoc.
Qed.
End StringFacts.

Section TraceFacts.

Context {Conn Db St : Type}.
Variable h : Initializer Conn Db St.
Variable m : option (Migrator St).
Variable d : DbMethods Db St.

Lemma on_st_calls {A} (f : M St A) (w : World Conn Db St) :
calls (snd (on_st f w)) = calls w.
Proof. unfold on_st. now destruct (f (st w)). Qed.

Lemma on_tb_calls {A} (f : TB Conn Db -> A * TB Conn Db) (w : World Conn Db St) :
calls (snd (on_tb f w)) = calls w.
Proof. unfold on_tb. now destruct (f (tb w)). Qed.

Lemma perform_calls o (w : World Conn Db St) : calls (snd (perform h m d o w)) = calls w.
Proof.
destruct o; cbn [perform]; try apply on_st_calls; try apply on_tb_calls;
  destruct m; try apply on_st_calls; reflexivity.
Qed.

Lemma calls_from_app (w w' : World Conn Db St) l :
calls w' = calls w ++ l -> calls_from (length (calls w)) w' = l.
Proof. intros H. unfold calls_from. rewrite H. apply drop_app_length. Qed.

(** A call is added to the list when it is made. *)
Lemma step_calls o (w : World Conn Db St) :
calls (snd (step h m d o w)) = calls w ++ [o].
Proof.
unfold step. pose proof (perform_calls o w) as Hc.
destruct (perform h m d o w) as [[x|rep|msg|] w']; cbn in *; congruence.
Qed.

Lemma run_follows {A} (p : Prog Conn Db A) (w : World Conn Db St) :
exists l, calls (snd (run h m d p w)) = calls w ++ l
          /\ follows p (fst (run h m d p w)) l.
Proof.
revert w. induction p as [a|o k IH]; intros w; cbn [run follows].
- exists []. now rewrite app_nil_r.
- pose proof (step_calls o w) as Hs.
  destruct (step h m d o w) as [[x|rep|msg|] w']; cbn [snd] in Hs;
    [|exists [o]; cbn; auto ..].
  destruct (IH x w') as (l & Hl & Hf). exists (o :: l). split.
  + rewrite Hl, Hs. now rewrite <- app_assoc.
  + right. eauto.
Qed.

Lemma closure_calls f (w : World Conn Db St) :
exists l, calls (snd (run h m d (closure_code f) w)) = calls w ++ l
          /\ forallb isCleanupCall l = true.
Proof.
destruct (run_follows (closure_code f) w) as (l & Hl & Hf).
exists l. split; [exact Hl|]. clear Hl.
destruct f as [v root tn|db]; cbn [closure_code follows] in Hf.
- destruct Hf as [[_ ->]|(x & l' & -> & Hf)]; try reflexivity.
  destruct x; cbn [negb follows] in Hf.
  + destruct Hf as [_ ->]. reflexivity.
  + destruct Hf as [[_ ->]|(x & l'' & -> & _ & ->)]; reflexivity.
- destruct Hf as [[_ ->]|(x & l' & -> & _ & ->)]; reflexivity.
Qed.

Lemma run_closures_calls fs (w : World Conn Db St) :
exists l, calls (run_closures h m d fs w) = calls w ++ l
          /\ forallb isCleanupCall l = true.
Proof.
revert w. induction fs as [|f fs IH]; intros w; cbn [run_closures].
- exists []. now rewrite app_nil_r.
- destruct (closure_calls f w) as (l1 & H1 & F1).
  destruct (run h m d (closure_code f) w) as [r w'] eqn:E. cbn [snd] in H1.
  assert (exists l, calls (run_closures h m d fs w') = calls w ++ l
                    /\ forallb isCleanupCall l = true) as Hgo.
  { destruct (IH w') as (l2 & H2 & F2). exists (l1 ++ l2). split.
    - rewrite H2, H1. now rewrite <- app_assoc.
    - rewrite forallb_app. now rewrite F1, F2. }
  destruct r; eauto.
Qed.

(** The calls of a test: those of [New], then those of the cleanups. *)
Lemma run_test_calls dsn (w : World Conn Db St) :
let '(r, w1, w2) := run_test h m d dsn w in
exists l l', calls w1 = calls w ++ l /\ calls w2 = calls w1 ++ l'
             /\ follows (New dsn) r l /\ forallb isCleanupCall l' = true.
Proof.
unfold run_test. destruct (run_follows (New dsn) w) as (l & Hl & Hf).
destruct (run h m d (New dsn) w) as [r w1] eqn:E. cbn [fst snd] in *.
assert (exists l', calls (run_cleanups h m d w1) = calls w1 ++ l'
                   /\ forallb isCleanupCall l' = true) as (l' & Hl' & Hc).
{ unfold run_cleanups.
  destruct (run_closures_calls (cleanups (tb w1))
    (mkWorld (mkTB [] (vars (tb w1)) (uuids (tb w1)) (drawn (tb w1))) (st w1) (calls w1)))
    as (l' & Hl' & Hc).
  exists l'. auto. }
destruct r; [exists l, l'; auto ..|].
exists l, []. rewrite app_nil_r. auto.
Qed.

End TraceFacts.

Section NewTraces.

Context {Conn Db : Type}.

Lemma count_cleanup_calls (f : Op Conn Db -> bool) l :
(forall o, isCleanupCall o = true -> f o = false) ->
forallb isCleanupCall l = true -> count f l = 0.
Proof.
intros Hf. induction l as [|o l IH]; [reflexivity|]. cbn.
intros [Ho Hl]%andb_true_iff. now rewrite (Hf o Ho), (IH Hl).
Qed.

(** One step of the case analysis on the ways [New] can go. *)
Ltac follow H :=
cbn [follows New New_build New_clone negb] in H;
lazymatch type of H with
| _ \/ _ =>
    let x := fresh "x" in let l := fresh "l" in
    destruct H as [[H ->]|(x & l & -> & H)]
| _ /\ _ => let E := fresh "E" in destruct H as [E ->]; try injection E as E; subst
| follows (if ?b then _ else _) _ _ => destruct b
end.

(** The lock is taken once at most, released once at most and only after
  the clone was made, and both exactly once when [New] returns. *)
Lemma New_lock_discipline dsn (r : res Db) (l : list (Op Conn Db)) :
follows (New dsn) r l ->
count isLock l <= 1 /\ count isUnlock l <= count isLock l
/\ preceded isCreateFromTemplate isUnlock l = true
/\ preceded isExists isCreateFromTemplate l = true
/\ preceded isLock isExists l = true
/\ (is_returns r = true -> count isLock l = 1 /\ count isUnlock l = 1)
/\ (omap lock_of l = []
    \/ exists root hash, omap lock_of l = [(root, "test_template_" +:+ hash)])
/\ (omap unlock_of l = [] \/ omap unlock_of l = omap lock_of l)
/\ (omap on_template l = []
    \/ exists root hash,
         omap lock_of l = [(root, "test_template_" +:+ hash)]
         /\ Forall (eq (root, "test_template_" +:+ hash)) (omap on_template l)).
Proof.
intros H. repeat follow H; cbn; repeat split; try lia; try discriminate; eauto.
all: try congruence.
all: right; do 2 eexists; split; [reflexivity|repeat constructor].
Qed.

End NewTraces.

(** ** The Postgres backend, call by call *)

Section PgCalls.

Variable hash : string.
Variable migrate : string -> res unit.

Abbreviation mg := (migrator_of hash migrate).
Abbreviation W := (World nat PgDb Server).

(** Only [DROP DATABASE] takes a database away. *)
Lemma effect_databases pid db q s :
(forall b n, q <> DropDatabaseIfExists b n) ->
databases s ⊆ databases (snd (Engine.effect pid db q s)).
Proof.
intros Hq. destruct q as [n|n t|b n|n|k|k|n]; cbn [Engine.effect].
- case_bool_decide; cbn; set_solver.
- repeat (case_bool_decide; cbn; try set_solver). destruct (Engine.in_use _ _ _); cbn; set_solver.
- now destruct (Hq b n).
- case_bool_decide; cbn; set_solver.
- destruct (advisory s !! (db, k)) as [[holder c]|]; [case_bool_decide|]; cbn; set_solver.
- destruct (advisory s !! (db, k)) as [[holder [|[|c]]]|]; try case_bool_decide; cbn;
    set_solver.
- case_bool_decide; cbn; set_solver.
Qed.

Lemma exec_databases pid q s :
(forall b n, q <> DropDatabaseIfExists b n) ->
databases s ⊆ databases (snd (Engine.exec pid q s)).
Proof.
intros Hq. unfold Engine.exec. destruct (sessions s !! pid) as [db|]; [|set_solver].
pose proof (effect_databases pid db q s Hq) as H.
destruct (Engine.effect pid db q s) as [[e|rep|msg|] s']; cbn in *; set_solver.
Qed.

Lemma must_ok_databases pid q s :
(forall b n, q <> DropDatabaseIfExists b n) ->
databases s ⊆ databases (snd (must_ok [] (Engine.exec pid q) s)).
Proof.
intros Hq. unfold must_ok, bind. pose proof (exec_databases pid q s Hq) as H.
destruct (Engine.exec pid q s) as [[[e|]|rep|msg|] s']; cbn in *; set_solver.
Qed.

Lemma lift_state {A} (r : res A) (s : Server) : snd (lift r s) = s.
Proof. reflexivity. Qed.

Lemma verified_bind {A} name (k : string -> M Server A) s :
bind (lift (verifyPgDbName name)) k s
= if Regexp.pgDbNameRegex_MatchString name then k name s
  else (ErrorHandler
          (ErrNew (name +:+ " as a DB name may be unsafe. letters, numbers and _ only")) [],
        s).
Proof.
unfold bind, lift, verifyPgDbName.
now destruct (Regexp.pgDbNameRegex_MatchString name).
Qed.

(** No call of [New] itself takes a database away. *)
Lemma step_grows (o : Op nat PgDb) (w : W) :
non_removing o = true ->
databases (st w) ⊆ databases (st (snd (step pgInit mg pgDb o w))).
Proof.
intros Ho. unfold step.
assert (databases (st w) ⊆ databases (st (snd (perform pgInit mg pgDb o w)))) as H.
{ destruct o; try discriminate; cbn [perform pgInit mg migrator_of staticMigrator
    Connect Lock Unlock Exists Create CreateFromTemplate InitNewDsn NewDb Hash Migrate];
    unfold on_st, on_tb; cbn [st].
  - unfold pgInitializer.Connect, Pgx.Connect, Engine.connect.
    destruct (Pgx.ParseConfig_Database dsn0); [cbn; set_solver|].
    case_bool_decide; cbn; set_solver.
  - cbn. set_solver.
  - cbn. set_solver.
  - pose proof (must_ok_databases conn (AdvisoryLock (Crc32.ChecksumIEEE name0)) (st w)) as H.
    unfold pgInitializer.Lock. destruct (must_ok _ _ _). cbn in *. apply H. congruence.
  - pose proof (must_ok_databases conn (AdvisoryUnlock (Crc32.ChecksumIEEE name0)) (st w)) as H.
    unfold pgInitializer.Unlock. destruct (must_ok _ _ _). cbn in *. apply H. congruence.
  - unfold pgInitializer.Exists, bind.
    pose proof (exec_databases conn (SelectDatabase name0) (st w)) as H.
    destruct (Engine.exec conn (SelectDatabase name0) (st w)) as [[[e|]|rep|msg|] s'];
      cbn in *; try (apply H; congruence).
    destruct (errors_Is_NoRows e); cbn; apply H; congruence.
  - unfold pgInitializer.Create. rewrite verified_bind.
    destruct (Regexp.pgDbNameRegex_MatchString name0); [|cbn; set_solver].
    pose proof (must_ok_databases conn (CreateDatabase name0) (st w)) as H.
    destruct (must_ok _ _ _). cbn in *. apply H. congruence.
  - unfold pgInitializer.CreateFromTemplate. rewrite verified_bind.
    destruct (Regexp.pgDbNameRegex_MatchString name0); [|cbn; set_solver].
    rewrite verified_bind.
    destruct (Regexp.pgDbNameRegex_MatchString template); [|cbn; set_solver].
    pose proof (must_ok_databases conn (CreateDatabaseTemplate name0 template) (st w)) as H.
    destruct (must_ok _ _ _). cbn in *. apply H. congruence.
  - unfold pgInitializer.NewDsn. cbn. set_solver.
  - unfold pgInitializer.NewDb. destruct (Pgx.ParseConfig_Database dsn0); cbn; set_solver.
  - cbn. set_solver.
  - cbn. set_solver.
  - cbn. set_solver.
  - cbn. set_solver.
  - cbn. set_solver. }
destruct (perform pgInit mg pgDb o w) as [[x|rep|msg|] w']; cbn in *; set_solver.
Qed.

Lemma run_grows {A} (p : Prog nat PgDb A) (w : W) :
all_ops non_removing p ->
databases (st w) ⊆ databases (st (snd (run pgInit mg pgDb p w))).
Proof.
revert w. induction p as [a|o k IH]; intros w; cbn [run all_ops]; [set_solver|].
intros [Ho Hk]. pose proof (step_grows o w Ho) as Hs.
destruct (step pgInit mg pgDb o w) as [[x|rep|msg|] w']; cbn [snd] in *; try exact Hs.
specialize (IH x w' (Hk x)). set_solver.
Qed.

Lemma New_build_non_removing dsn root tn :
all_ops non_removing (@New_build nat PgDb dsn root tn).
Proof. cbn. repeat split. Qed.

Lemma New_clone_non_removing dsn root tn :
all_ops non_removing (@New_clone nat PgDb dsn root tn).
Proof. cbn. repeat split. Qed.

(** Before the existence check nothing is created. *)
Lemma step_keeps (o : Op nat PgDb) (w : W) :
isConnect o || isHash o || isLock o || isExists o = true ->
databases (st (snd (step pgInit mg pgDb o w))) = databases (st w).
Proof.
intros Ho. unfold step.
assert (databases (st (snd (perform pgInit mg pgDb o w))) = databases (st w)) as H.
{ destruct o; try discriminate; cbn [perform pgInit mg migrator_of staticMigrator
    Connect Lock Exists Hash]; unfold on_st; cbn [st].
  - unfold pgInitializer.Connect, Pgx.Connect, Engine.connect.
    destruct (Pgx.ParseConfig_Database dsn0); [reflexivity|].
    case_bool_decide; reflexivity.
  - reflexivity.
  - unfold pgInitializer.Lock, must_ok, bind, Engine.exec.
    destruct (sessions (st w) !! conn); [|reflexivity]. cbn [Engine.effect].
    destruct (advisory (st w) !! _) as [[holder c]|]; [case_bool_decide|]; reflexivity.
  - unfold pgInitializer.Exists, bind, Engine.exec.
    destruct (sessions (st w) !! conn); [|reflexivity]. cbn [Engine.effect].
    case_bool_decide; reflexivity. }
destruct (perform pgInit mg pgDb o w) as [[x|rep|msg|] w']; cbn in *; congruence.
Qed.

(** [Exists] answers by the databases of the server. *)
Lemma step_Exists_returns conn name (w w' : W) x :
step pgInit mg pgDb (OpExists conn name) w = (Returns x, w') ->
x = bool_decide (name ∈ databases (st w)).
Proof.
unfold step. cbn [perform pgInit Exists]. unfold on_st, pgInitializer.Exists, bind, Engine.exec.
destruct (sessions (st w) !! conn); [|discriminate]. cbn [Engine.effect].
case_bool_decide; cbn; congruence.
Qed.

(** After a [Create] that returned, the database is there. *)
Lemma step_Create_returns conn name (w w' : W) x :
step pgInit mg pgDb (OpCreate conn name) w = (Returns x, w') ->
name ∈ databases (st w').
Proof.
unfold step. cbn [perform pgInit Create]. unfold on_st, pgInitializer.Create.
rewrite verified_bind. destruct (Regexp.pgDbNameRegex_MatchString name); [|discriminate].
unfold must_ok, bind, Engine.exec.
destruct (sessions (st w) !! conn); [|discriminate]. cbn [Engine.effect].
case_bool_decide; cbn; [discriminate|]. intros [= _ <-]. cbn. set_solver.
Qed.

Lemma run_Do_returns {A} o (k : Ret o -> Prog nat PgDb A) (w w' : W) a :
run pgInit mg pgDb (Do o k) w = (Returns a, w') ->
exists x wx, step pgInit mg pgDb o w = (Returns x, wx)
             /\ run pgInit mg pgDb (k x) wx = (Returns a, w').
Proof.
cbn [run]. destruct (step pgInit mg pgDb o w) as [[x| | |] wx]; try discriminate. eauto.
Qed.

(** A call to [New] that returns: up to the existence check the databases
  are those it found; then it builds the template, or goes on to clone. *)
Lemma New_returns_inv dsn (w w1 : W) db :
run pgInit mg pgDb (New dsn) w = (Returns db, w1) ->
exists root l,
  calls w1 = calls w ++ [OpConnect dsn; OpHash; OpLock root (template_of hash);
                          OpExists root (template_of hash)] ++ l
  /\ databases (st w) ⊆ databases (st w1)
  /\ (if bool_decide (template_of hash ∈ databases (st w))
      then follows (New_clone dsn root (template_of hash)) (Returns db) l
      else follows (New_build dsn root (template_of hash)) (Returns db) l
           /\ template_of hash ∈ databases (st w1)).
Proof.
unfold New. cbn [run]. intros H.
pose proof (step_keeps (OpConnect dsn) w eq_refl) as K1.
pose proof (step_calls pgInit mg pgDb (OpConnect dsn) w) as C1.
destruct (step pgInit mg pgDb (OpConnect dsn) w) as [[root| | |] wa]; try discriminate.
cbn [Ret] in root. cbn [snd] in *.
pose proof (step_keeps OpHash wa eq_refl) as K2.
pose proof (step_calls pgInit mg pgDb OpHash wa) as C2.
destruct (step pgInit mg pgDb OpHash wa) as [[hsh| | |] wb] eqn:E2; try discriminate.
assert (hsh = hash) as ->.
{ unfold step in E2. cbn in E2. congruence. }
cbn [snd] in *. fold (template_of hash) in H.
pose proof (step_keeps (OpLock root (template_of hash)) wb eq_refl) as K3.
pose proof (step_calls pgInit mg pgDb (OpLock root (template_of hash)) wb) as C3.
destruct (step pgInit mg pgDb (OpLock root (template_of hash)) wb) as [[[]| | |] wc];
  try discriminate.
cbn [snd] in *.
pose proof (step_keeps (OpExists root (template_of hash)) wc eq_refl) as K4.
pose proof (step_calls pgInit mg pgDb (OpExists root (template_of hash)) wc) as C4.
destruct (step pgInit mg pgDb (OpExists root (template_of hash)) wc) as [[x| | |] wd] eqn:E4;
  try discriminate.
cbn [snd] in *. apply step_Exists_returns in E4.
assert (databases (st wc) = databases (st w)) as Kc by congruence.
assert (databases (st wd) = databases (st w)) as Kd by congruence.
rewrite Kc in E4. subst x.
assert (calls wd = calls w ++ [OpConnect dsn; OpHash; OpLock root (template_of hash);
                               OpExists root (template_of hash)]) as Cd.
{ rewrite C4, C3, C2, C1. now rewrite <- !app_assoc. }
case_bool_decide as Hin; cbn [negb] in H.
- destruct (run_follows pgInit mg pgDb (New_clone dsn root (template_of hash)) wd)
    as (l & Hl & Hf).
  pose proof (run_grows _ wd (New_clone_non_removing dsn root (template_of hash))) as G.
  rewrite H in Hl, Hf, G. cbn [fst snd] in *.
  exists root, l. repeat split; [|rewrite <- Kd; exact G|exact Hf].
  rewrite Hl, Cd. now rewrite <- app_assoc.
- destruct (run_follows pgInit mg pgDb (New_build dsn root (template_of hash)) wd)
    as (l & Hl & Hf).
  pose proof (run_grows _ wd (New_build_non_removing dsn root (template_of hash))) as G.
  assert (template_of hash ∈ databases (st w1)) as Ht.
  { clear Hl Hf G. unfold New_build in H.
    apply run_Do_returns in H as (x & we & E5 & H).
    apply step_Create_returns in E5.
    match type of H with run _ _ _ ?p we = _ =>
      pose proof (run_grows p we) as G; rewrite H in G end.
    cbn [snd] in G. apply G; [|exact E5]. cbn. repeat split. }
  rewrite H in Hl, Hf, G. cbn [fst snd] in *.
  exists root, l. repeat split; [|rewrite <- Kd; exact G|exact Hf|exact Ht].
  rewrite Hl, Cd. now rewrite <- app_assoc.
Qed.

End PgCalls.

Section CloneAndBuild.

Context {Conn Db : Type}.

Ltac follow H :=
cbn [follows New New_build New_clone negb] in H;
lazymatch type of H with
| _ \/ _ =>
    let x := fresh "x" in let l := fresh "l" in
    destruct H as [[H ->]|(x & l & -> & H)]
| _ /\ _ => let E := fresh "E" in destruct H as [E ->]; injection E as E
| follows (if ?b then _ else _) _ _ => destruct b
end.

(** The calls of a build that returns. *)
Lemma New_build_returns_calls dsn (root : Conn) tn (db : Db) l :
follows (New_build dsn root tn) (Returns db) l ->
count isCreate l = 1 /\ count isMigrate l = 1
/\ preceded isCreate isMigrate l = true
/\ count isCreateFromTemplate l = 1
/\ count isExists l = 0
/\ In (OpCreate root tn) l
/\ exists templateDsn, In (OpNewDsn dsn tn) l /\ In (OpMigrate templateDsn) l.
Proof.
intros H. repeat follow H; try discriminate.
repeat split; try reflexivity.
- cbn. auto.
- eexists. split; cbn; eauto 12.
Qed.

(** The calls of a clone that returns. *)
Lemma New_clone_returns_calls dsn (root : Conn) tn (db : Db) l :
follows (New_clone dsn root tn) (Returns db) l ->
count isCreate l = 0 /\ count isMigrate l = 0 /\ count isCreateFromTemplate l = 1
/\ count isExists l = 0.
Proof.
intros H. repeat follow H; try discriminate.
cbn. repeat split.
Qed.

End CloneAndBuild.

(** ** Template reuse *)

Lemma absent_by_decide (x : string) (X : gset string) :
  bool_decide (x ∈ X) = false -> x ∉ X.
Proof. apply bool_decide_eq_false_1. Qed.

Lemma present_by_decide (x : string) (X : gset string) :
  bool_decide (x ∈ X) = true -> x ∈ X.
Proof. apply bool_decide_eq_true_1. Qed.

(** A build that returns has handed [Migrate] the DSN that [NewDsn] made
    from the DSN of the caller and the name of the template, which passed
    the name check of [Create]. *)
Lemma New_build_migrates_the_template hash migrate dsn root tn
    (w w1 : World nat PgDb Server) db :
  run pgInit (migrator_of hash migrate) pgDb (New_build dsn root tn) w = (Returns db, w1) ->
  exists templateDsn l,
    verifyPgDbName tn = Returns tn
    /\ NewDsn dsn tn = Returns templateDsn
    /\ migrate templateDsn = Returns tt
    /\ calls w1 = calls w ++ l
    /\ In (OpMigrate templateDsn) l.
Proof.
  intros H. unfold New_build in H.
  apply run_Do_returns in H as ([] & wa & Ea & H).
  apply run_Do_returns in H as (v & wb & Eb & H).
  apply run_Do_returns in H as ([] & wc & Ec & H).
  apply run_Do_returns in H as (templateDsn & wd & Ed & H).
  apply run_Do_returns in H as ([] & we & Ee & H).
  pose proof (step_calls pgInit (migrator_of hash migrate) pgDb (OpCreate root tn) w) as Ca.
  pose proof (step_calls pgInit (migrator_of hash migrate) pgDb (OpVarNew false) wa) as Cb.
  pose proof (step_calls pgInit (migrator_of hash migrate) pgDb
                (OpCleanup (RemoveUnlessDone v root tn)) wb) as Cc.
  pose proof (step_calls pgInit (migrator_of hash migrate) pgDb (OpNewDsn dsn tn) wc) as Cd.
  pose proof (step_calls pgInit (migrator_of hash migrate) pgDb (OpMigrate templateDsn) wd)
    as Ce.
  rewrite Ea in Ca. rewrite Eb in Cb. rewrite Ec in Cc. rewrite Ed in Cd. rewrite Ee in Ce.
  cbn [snd] in *.
  destruct (run_follows pgInit (migrator_of hash migrate) pgDb
              (Do (OpVarSet v true) (fun _ => New_clone dsn root tn)) we) as (l & Hl & _).
  rewrite H in Hl. cbn [snd] in Hl.
  exists templateDsn,
    ([OpCreate root tn; OpVarNew false; OpCleanup (RemoveUnlessDone v root tn);
      OpNewDsn dsn tn; OpMigrate templateDsn] ++ l).
  split; [|split; [|split; [|split]]].
  - unfold step in Ea. cbn [perform pgInit Create] in Ea. unfold on_st in Ea.
    unfold pgInitializer.Create in Ea. rewrite verified_bind in Ea.
    unfold verifyPgDbName. destruct (Regexp.pgDbNameRegex_MatchString tn); [reflexivity|].
    discriminate.
  - unfold step in Ed. cbn [perform pgInit InitNewDsn] in Ed. unfold on_st in Ed.
    unfold pgInitializer.NewDsn, lift in Ed.
    destruct (NewDsn dsn tn); cbn in Ed; congruence.
  - unfold step in Ee. cbn in Ee. unfold on_st, lift in Ee. cbn in Ee.
    destruct (migrate templateDsn) as [[]| | |]; cbn in Ee; congruence.
  - rewrite Hl, Ce, Cd, Cc, Cb, Ca. now rewrite <- !app_assoc.
  - cbn. auto 10.
Qed.

(** C2, as amended: when the template of the fingerprint does not exist yet
    and two calls to [New] in a row both return a handle, the first call makes
    exactly one [Create], of the template, and then exactly one [Migrate], on
    the template: at the DSN that [NewDsn] makes from the DSN of the caller
    and the name of the template, which names the template as its database
    when the DSN of the caller is one of the usual form.  The second call
    finds the template and makes no [Create] and no [Migrate]; each call
    makes exactly one [CreateFromTemplate]. *)
Theorem template_built_once_then_cloned
    hash migrate dsn1 dsn2 (w0 w1 w2 : World nat PgDb Server) t2 c2 db1 db2 :
  template_of hash ∉ databases (st w0) ->
  run pgInit (migrator_of hash migrate) pgDb (New dsn1) w0 = (Returns db1, w1) ->
  run pgInit (migrator_of hash migrate) pgDb (New dsn2) (mkWorld t2 (st w1) c2)
    = (Returns db2, w2) ->
  let first := calls_from (length (calls w0)) w1 in
  let second := calls_from (length c2) w2 in
  (count isCreate first = 1 /\ count isMigrate first = 1
   /\ preceded isCreate isMigrate first = true
   /\ count isCreateFromTemplate first = 1
   /\ (exists root, In (OpCreate root (template_of hash)) first)
   /\ exists templateDsn,
        NewDsn dsn1 (template_of hash) = Returns templateDsn
        /\ In (OpMigrate templateDsn) first
        /\ (admin_dsn dsn1 ->
            Pgx.ParseConfig_Database templateDsn = inr (template_of hash)))
  /\ template_of hash ∈ databases (st w1)
  /\ (count isExists second = 1 /\ count isCreate second = 0
      /\ count isMigrate second = 0 /\ count isCreateFromTemplate second = 1).
Proof.
  intros Hfresh H1 H2.
  assert (Hm : exists templateDsn,
             NewDsn dsn1 (template_of hash) = Returns templateDsn
             /\ In (OpMigrate templateDsn) (calls_from (length (calls w0)) w1)
             /\ (admin_dsn dsn1 ->
                 Pgx.ParseConfig_Database templateDsn = inr (template_of hash))).
  { pose proof H1 as H. unfold New in H. unfold template_of in *.
    apply run_Do_returns in H as (root & wa & Ea & H). cbn [Ret] in root.
    apply run_Do_returns in H as (hsh & wb & Eb & H). cbn [Ret] in hsh.
    assert (hsh = hash) as ->.
    { unfold step in Eb. cbn in Eb. congruence. }
    apply run_Do_returns in H as ([] & wc & Ec & H).
    apply run_Do_returns in H as (x & wd & Ed & H).
    pose proof (step_keeps hash migrate (OpConnect dsn1) w0 eq_refl) as Ka.
    pose proof (step_keeps hash migrate OpHash wa eq_refl) as Kb.
    pose proof (step_keeps hash migrate (OpLock root ("test_template_" +:+ hash)) wb eq_refl)
      as Kc.
    pose proof (step_calls pgInit (migrator_of hash migrate) pgDb (OpConnect dsn1) w0) as Ca.
    pose proof (step_calls pgInit (migrator_of hash migrate) pgDb OpHash wa) as Cb.
    pose proof (step_calls pgInit (migrator_of hash migrate) pgDb
                  (OpLock root ("test_template_" +:+ hash)) wb) as Cc.
    pose proof (step_calls pgInit (migrator_of hash migrate) pgDb
                  (OpExists root ("test_template_" +:+ hash)) wc) as Cd.
    rewrite Ea in Ka, Ca. rewrite Eb in Kb, Cb. rewrite Ec in Kc, Cc. rewrite Ed in Cd.
    cbn [snd] in *.
    apply step_Exists_returns in Ed. rewrite Kc, Kb, Ka in Ed.
    rewrite bool_decide_eq_false_2 in Ed by exact Hfresh. subst x. cbn [negb] in H.
    apply New_build_migrates_the_template in H
      as (templateDsn & l & Hv & Hdsn & _ & Hl & Hin).
    exists templateDsn. split; [exact Hdsn|]. split.
    - erewrite calls_from_app; [|rewrite Hl, Cd, Cc, Cb, Ca, <- !app_assoc; reflexivity].
      apply in_or_app. right. cbn. auto 10.
    - intros Hadm. exact (proj2 Hadm _ _ Hv Hdsn). }
  apply New_returns_inv in H1 as (root1 & l1 & C1 & _ & F1).
  apply New_returns_inv in H2 as (root2 & l2 & C2 & _ & F2).
  cbn [st calls] in *.
  rewrite bool_decide_eq_false_2 in F1 by exact Hfresh.
  destruct F1 as [F1 Hin].
  rewrite bool_decide_eq_true_2 in F2 by exact Hin.
  apply New_build_returns_calls in F1 as (A1 & A2 & A3 & A4 & _ & A5 & _).
  apply New_clone_returns_calls in F2 as (B1 & B2 & B3 & B4).
  cbn zeta. cbn zeta in Hm. rewrite (calls_from_app w0 w1 _ C1) in *.
  pose proof (calls_from_app (mkWorld t2 (st w1) c2) w2 _ C2) as C3.
  cbn [calls] in C3. rewrite C3.
  cbn [count preceded isCreate isMigrate isCreateFromTemplate isExists app].
  rewrite A1, A2, A3, A4, B1, B2, B3, B4.
  repeat split; try reflexivity; try exact Hin; try exact Hm.
  exists root1. cbn. auto 10.
Qed.

Lemma template_built_once_then_cloned_witness :
  template_of "abc" ∉ databases (st reuse_w0)
  /\ reuse_first = (Returns (returned no_handle (fst reuse_first)), reuse_w1)
  /\ reuse_second = (Returns (returned no_handle (fst reuse_second)), snd reuse_second)
  /\ let first := calls_from (length (calls reuse_w0)) reuse_w1 in
     let second := calls_from (length (@nil (Op nat PgDb))) (snd reuse_second) in
     (count isCreate first = 1 /\ count isMigrate first = 1
      /\ preceded isCreate isMigrate first = true
      /\ count isCreateFromTemplate first = 1
      /\ (exists root, In (OpCreate root (template_of "abc")) first)
      /\ exists templateDsn,
           NewDsn readme_dsn (template_of "abc") = Returns templateDsn
           /\ In (OpMigrate templateDsn) first
           /\ (admin_dsn readme_dsn ->
               Pgx.ParseConfig_Database templateDsn = inr (template_of "abc")))
     /\ template_of "abc" ∈ databases (st reuse_w1)
     /\ (count isExists second = 1 /\ count isCreate second = 0
         /\ count isMigrate second = 0 /\ count isCreateFromTemplate second = 1).
Proof.
  assert (template_of "abc" ∉ databases (st reuse_w0)) as H0.
  { apply absent_by_decide. vm_compute. reflexivity. }
  assert (reuse_first = (Returns (returned no_handle (fst reuse_first)), reuse_w1)) as H1.
  { vm_compute. reflexivity. }
  assert (reuse_second
          = (Returns (returned no_handle (fst reuse_second)), snd reuse_second)) as H2.
  { vm_compute. reflexivity. }
  split; [exact H0|]. split; [exact H1|]. split; [exact H2|].
  exact (template_built_once_then_cloned "abc" migrate_ok readme_dsn readme_dsn
           reuse_w0 reuse_w1 (snd reuse_second) (tb reuse_w1) [] _ _ H0 H1 H2).
Defined.

(** C2 as stated fails on a server that already holds the template, which is
    what the second run of a test suite finds: the first of the two calls
    makes no [Create] and no [Migrate]. *)
Lemma warm_template_is_not_rebuilt :
  let w0 := fresh_world {["test_db"; "test_template_abc"]} sample_uuids in
  let first := run pgInit (migrator_of "abc" migrate_ok) pgDb (New readme_dsn) w0 in
  is_returns (fst first) = true
  /\ count isCreate (calls (snd first)) = 0
  /\ count isMigrate (calls (snd first)) = 0
  /\ count isCreateFromTemplate (calls (snd first)) = 1.
Proof. vm_compute. repeat split. Qed.

(** ** The lock and the fingerprint in every call *)

Section EveryCall.

Context {Conn Db : Type}.

Ltac follow H :=
cbn [follows New New_build New_clone negb] in H;
lazymatch type of H with
| _ \/ _ =>
    let x := fresh "x" in let l := fresh "l" in
    destruct H as [[H ->]|(x & l & -> & H)]
| _ /\ _ => let E := fresh "E" in destruct H as [E ->]; try injection E as E; subst
| follows (if ?b then _ else _) _ _ => destruct b
end.

(** [Hash] is called once at most, right after [Connect], and before the
  lock and the existence check. *)
Lemma New_hash_discipline dsn (r : res Db) (l : list (Op Conn Db)) :
follows (New dsn) r l ->
count isHash l <= 1
/\ preceded isHash isLock l = true
/\ preceded isHash isExists l = true
/\ (is_returns r = true -> count isHash l = 1)
/\ ((l = [OpConnect dsn] /\ is_returns r = false)
    \/ exists l0, l = OpConnect dsn :: OpHash :: l0 /\ count isHash l0 = 0).
Proof.
intros H. repeat follow H; cbn; repeat split; try lia; try discriminate; eauto.
all: try congruence.
Qed.

End EveryCall.

(** C4, as amended: in every call to [New], [Lock] is called once at most,
    before the existence check, on the name of the template, which is the
    name given to [Exists], [Create] and [CreateFromTemplate] on the same
    connection; [Unlock] is called once at most, on the same connection and
    name, and only after [CreateFromTemplate], which comes after the
    existence check; a call that returns a handle has called each of them
    exactly once; the cleanups call neither.  (A call that stops between the
    two leaves the lock taken.) *)
Theorem lock_released_only_after_clone
    {Conn Db St} (h : Initializer Conn Db St) (m : option (Migrator St))
    (d : DbMethods Db St) (dsn : string) (w : World Conn Db St) :
  let '(r, w1, w2) := run_test h m d dsn w in
  let l := calls_from (length (calls w)) w1 in
  let l' := calls_from (length (calls w1)) w2 in
  count isLock l <= 1
  /\ count isUnlock l <= count isLock l
  /\ preceded isCreateFromTemplate isUnlock l = true
  /\ preceded isExists isCreateFromTemplate l = true
  /\ preceded isLock isExists l = true
  /\ (is_returns r = true -> count isLock l = 1 /\ count isUnlock l = 1)
  /\ (omap lock_of l = []
      \/ exists root hash, omap lock_of l = [(root, "test_template_" +:+ hash)])
  /\ (omap unlock_of l = [] \/ omap unlock_of l = omap lock_of l)
  /\ (omap on_template l = []
      \/ exists root hash,
           omap lock_of l = [(root, "test_template_" +:+ hash)]
           /\ Forall (eq (root, "test_template_" +:+ hash)) (omap on_template l))
  /\ count isLock l' = 0 /\ count isUnlock l' = 0.
Proof.
  pose proof (run_test_calls h m d dsn w) as H.
  destruct (run_test h m d dsn w) as [[r w1] w2].
  destruct H as (l & l' & Hl & Hl' & Hf & Hc).
  cbn zeta. rewrite (calls_from_app w w1 l Hl), (calls_from_app w1 w2 l' Hl').
  pose proof (New_lock_discipline dsn r l Hf)
    as (A1 & A2 & A3 & A4 & A5 & A6 & A7 & A8 & A9).
  repeat split; try assumption; try (apply A6; assumption).
  - apply count_cleanup_calls; [|exact Hc]. now intros [].
  - apply count_cleanup_calls; [|exact Hc]. now intros [].
Qed.

(** C4 as stated fails when [Migrate] fails: the lock was taken, [Unlock] is
    never called, and the advisory lock is still held by the session of the
    call once the cleanups have run. *)
Lemma failed_migration_keeps_the_lock :
  let '(r, w1, w2) :=
    NewPg (migrator_of "abc" migrate_fails) readme_dsn (fresh_world {["test_db"]} sample_uuids) in
  is_halts r = true
  /\ count isLock (calls w2) = 1
  /\ count isUnlock (calls w2) = 0
  /\ advisory (st w2) !! ("test_db", key_of "abc") = Some (0, 1).
Proof. vm_compute. repeat split. Qed.

Section Fingerprint.

Context {Conn Db St : Type}.
Variable h : Initializer Conn Db St.
Variable m : option (Migrator St).
Variable d : DbMethods Db St.

Lemma run_Do_calls {A} o (k : Ret o -> Prog Conn Db A) (w : World Conn Db St) :
exists l0, calls (snd (run h m d (Do o k) w)) = calls w ++ o :: l0.
Proof.
cbn [run]. pose proof (step_calls h m d o w) as Hs.
destruct (step h m d o w) as [[x| | |] w']; cbn [snd] in *;
  [|exists []; exact Hs ..].
destruct (run_follows h m d (k x) w') as (l & Hl & _).
exists l. rewrite Hl, Hs. now rewrite <- app_assoc.
Qed.

Lemma run_Do_goes {A} o (k : Ret o -> Prog Conn Db A) (w w' : World Conn Db St) x :
step h m d o w = (Returns x, w') -> run h m d (Do o k) w = run h m d (k x) w'.
Proof. intros E. cbn [run]. now rewrite E. Qed.

Lemma run_Do_panics {A} o (k : Ret o -> Prog Conn Db A) (w w' : World Conn Db St) msg :
step h m d o w = (Panics msg, w') -> run h m d (Do o k) w = (Panics msg, w').
Proof. intros E. cbn [run]. now rewrite E. Qed.

Lemma run_Do_stops {A} o (k : Ret o -> Prog Conn Db A) (w : World Conn Db St) :
is_returns (fst (step h m d o w)) = false ->
is_returns (fst (run h m d (Do o k) w)) = false
/\ calls (snd (run h m d (Do o k) w)) = calls w ++ [o].
Proof.
cbn [run]. pose proof (step_calls h m d o w) as Hs.
destruct (step h m d o w) as [[x| | |] w']; cbn; auto. discriminate.
Qed.

Lemma step_Connect_returns dsn (w : World Conn Db St) :
is_returns (fst (step h m d (OpConnect dsn) w))
= is_returns (fst (Connect h dsn (st w))).
Proof.
unfold step. cbn [perform]. unfold on_st.
now destruct (Connect h dsn (st w)) as [[root| | |] s1].
Qed.

(** What [New] does about [Connect]. *)
Lemma run_New_connect dsn (w : World Conn Db St) :
let l := calls_from (length (calls w)) (snd (run h m d (New dsn) w)) in
(is_returns (fst (Connect h dsn (st w))) = true ->
 exists l0, l = OpConnect dsn :: OpHash :: l0)
/\ (is_returns (fst (Connect h dsn (st w))) = false -> l = [OpConnect dsn]).
Proof.
cbn zeta. rewrite <- step_Connect_returns. unfold New. split; intros Hr.
- pose proof (step_calls h m d (OpConnect dsn) w) as C1.
  destruct (step h m d (OpConnect dsn) w) as [[root| | |] w1] eqn:E; try discriminate.
  rewrite (run_Do_goes _ _ _ _ _ E).
  match goal with |- context [run h m d (Do OpHash ?k) w1] =>
    destruct (run_Do_calls OpHash k w1) as (l0 & Hl) end.
  exists l0. unfold calls_from. rewrite Hl. cbn [snd] in C1. rewrite C1.
  rewrite <- app_assoc. now rewrite drop_app_length.
- match goal with |- context [run h m d (Do _ ?k) w] =>
    destruct (run_Do_stops (OpConnect dsn) k w Hr) as [_ Hl] end.
  unfold calls_from. rewrite Hl. now rewrite drop_app_length.
Qed.

End Fingerprint.

(** With a nil migrator [New] gets no further than [Hash]. *)
Lemma run_New_nil_migrator {Conn Db St} (h : Initializer Conn Db St)
    (d : DbMethods Db St) dsn (w : World Conn Db St) :
  let r := fst (run h None d (New dsn) w) in
  let l := calls_from (length (calls w)) (snd (run h None d (New dsn) w)) in
  is_returns r = false
  /\ (l = [OpConnect dsn] \/ l = [OpConnect dsn; OpHash])
  /\ (is_returns (fst (Connect h dsn (st w))) = true ->
      r = Panics "runtime error: invalid memory address or nil pointer dereference"
      /\ l = [OpConnect dsn; OpHash]).
Proof.
  cbn zeta. rewrite <- step_Connect_returns with (m := None) (d := d). unfold New.
  pose proof (step_calls h None d (OpConnect dsn) w) as C1.
  destruct (step h None d (OpConnect dsn) w) as [r1 w1] eqn:E.
  destruct r1 as [root| | |].
  - rewrite (run_Do_goes h None d _ _ _ _ _ E).
    erewrite run_Do_panics by reflexivity.
    cbn [fst snd calls is_returns]. unfold calls_from. cbn [snd calls] in *.
    rewrite C1, <- app_assoc, drop_app_length. cbn. auto.
  - match goal with |- context [run h None d (Do _ ?k) w] =>
      destruct (run_Do_stops h None d (OpConnect dsn) k w) as [Hr Hl] end.
    { now rewrite E. }
    split; [exact Hr|]. unfold calls_from. rewrite Hl, drop_app_length.
    split; [left; reflexivity|intros Hx; discriminate Hx].
  - match goal with |- context [run h None d (Do _ ?k) w] =>
      destruct (run_Do_stops h None d (OpConnect dsn) k w) as [Hr Hl] end.
    { now rewrite E. }
    split; [exact Hr|]. unfold calls_from. rewrite Hl, drop_app_length.
    split; [left; reflexivity|intros Hx; discriminate Hx].
  - match goal with |- context [run h None d (Do _ ?k) w] =>
      destruct (run_Do_stops h None d (OpConnect dsn) k w) as [Hr Hl] end.
    { now rewrite E. }
    split; [exact Hr|]. unfold calls_from. rewrite Hl, drop_app_length.
    split; [left; reflexivity|intros Hx; discriminate Hx].
Qed.

(** C10, as amended: a call to [New] calls [Hash] once at most, right after
    [Connect] and before [Lock] and [Exists]; it calls it exactly once when
    [Connect] returns, and not at all when [Connect] fails; the cleanups do
    not call it.  There is no test for a nil migrator: with one, [New] returns
    no handle and makes no [Exists], [Create] or [CreateFromTemplate], and
    when [Connect] returns it panics in [Hash]. *)
Theorem fingerprint_taken_right_after_connect
    {Conn Db St} (h : Initializer Conn Db St) (m : option (Migrator St))
    (d : DbMethods Db St) (dsn : string) (w : World Conn Db St) :
  (let '(r, w1, w2) := run_test h m d dsn w in
   let l := calls_from (length (calls w)) w1 in
   let l' := calls_from (length (calls w1)) w2 in
   count isHash l <= 1
   /\ preceded isHash isLock l = true
   /\ preceded isHash isExists l = true
   /\ (is_returns r = true -> count isHash l = 1)
   /\ (is_returns (fst (Connect h dsn (st w))) = true -> count isHash l = 1)
   /\ (is_returns (fst (Connect h dsn (st w))) = false -> l = [OpConnect dsn])
   /\ count isHash l' = 0)
  /\ (let '(r, w1, _) := run_test h None d dsn w in
      let l := calls_from (length (calls w)) w1 in
      is_returns r = false
      /\ count isExists l = 0 /\ count isCreate l = 0 /\ count isCreateFromTemplate l = 0
      /\ (is_returns (fst (Connect h dsn (st w))) = true ->
          r = Panics "runtime error: invalid memory address or nil pointer dereference"
          /\ l = [OpConnect dsn; OpHash])).
Proof.
  split.
  - pose proof (run_test_calls h m d dsn w) as H.
    pose proof (run_New_connect h m d dsn w) as [HC1 HC2].
    unfold run_test in *. destruct (run h m d (New dsn) w) as [r w1]. cbn [snd] in *.
    set (w2 := match r with Blocks => w1 | _ => run_cleanups h m d w1 end) in *.
    destruct H as (l & l' & Hl & Hl' & Hf & Hc).
    cbn zeta. rewrite (calls_from_app w w1 l Hl) in *. rewrite (calls_from_app w1 w2 l' Hl').
    pose proof (New_hash_discipline dsn r l Hf) as (A1 & A2 & A3 & A4 & A5).
    repeat split; try assumption.
    + intros Hr. destruct (HC1 Hr) as (l0 & ->).
      destruct A5 as [[[=] _]|(l1 & [= <-] & A5)]. cbn. now rewrite A5.
    + apply count_cleanup_calls; [|exact Hc]. now intros [].
  - pose proof (run_New_nil_migrator h d dsn w) as H. cbn zeta in H.
    unfold run_test. destruct (run h None d (New dsn) w) as [r w1]. cbn [fst snd] in H.
    destruct H as (H1 & H2 & H3). cbn zeta.
    repeat split; try assumption.
    1-3: destruct H2 as [-> | ->]; reflexivity.
    all: apply H3; assumption.
Qed.

(** C10 as stated fails when [Connect] fails: the call stops there and
    [Hash] is not called at all. *)
Lemma failed_connect_skips_hash :
  let '(r, w1, w2) :=
    NewPg (migrator_of "abc" migrate_ok) "postgresql://db/no_such_db?user=testuser"
      (fresh_world {["test_db"]} sample_uuids) in
  is_halts r = true /\ calls w2 = [OpConnect "postgresql://db/no_such_db?user=testuser"]
  /\ count isHash (calls w2) = 0.
Proof. vm_compute. repeat split. Qed.

(** ** Concurrent provisioning *)

(** *** The calls of the backend, case by case *)

Section BackendCases.

Lemma Connect_unfold dsn s :
  pgInitializer.Connect dsn s =
  match Pgx.ParseConfig_Database dsn with
  | inl err => (ErrorHandler err [ASlice []], s)
  | inr db =>
      if bool_decide (db ∈ databases s)
      then (Returns (next_pid s),
            mkServer (databases s) (<[next_pid s := db]> (sessions s)) (advisory s)
                     (S (next_pid s)) (journal s))
      else (ErrorHandler (ErrNew ("database " +:+ quoted db +:+ " does not exist")) [ASlice []], s)
  end.
Proof.
  unfold pgInitializer.Connect, Pgx.Connect, Engine.connect.
  destruct (Pgx.ParseConfig_Database dsn); [reflexivity|].
  now case_bool_decide.
Qed.

Lemma Lock_unfold conn name s :
  pgInitializer.Lock conn name s =
  match sessions s !! conn with
  | None => (ErrorHandler (ErrNew "conn closed") [ASlice []], s)
  | Some db =>
      match advisory s !! (db, Crc32.ChecksumIEEE name) with
      | None =>
          (Returns tt,
           Engine.record conn (AdvisoryLock (Crc32.ChecksumIEEE name))
             (Engine.set_advisory
                (<[(db, Crc32.ChecksumIEEE name) := (conn, 1)]> (advisory s)) s))
      | Some (holder, n) =>
          if bool_decide (holder = conn)
          then (Returns tt,
                Engine.record conn (AdvisoryLock (Crc32.ChecksumIEEE name))
                  (Engine.set_advisory
                     (<[(db, Crc32.ChecksumIEEE name) := (conn, S n)]> (advisory s)) s))
          else (Blocks, s)
      end
  end.
Proof.
  unfold pgInitializer.Lock, must_ok, bind, Engine.exec.
  destruct (sessions s !! conn) as [db|]; [|reflexivity]. cbn [Engine.effect].
  destruct (advisory s !! _) as [[holder n]|]; [case_bool_decide|]; reflexivity.
Qed.

Lemma Unlock_unfold conn name s :
  pgInitializer.Unlock conn name s =
  match sessions s !! conn with
  | None => (ErrorHandler (ErrNew "conn closed") [ASlice []], s)
  | Some db =>
      (Returns tt,
       Engine.record conn (AdvisoryUnlock (Crc32.ChecksumIEEE name))
         (match advisory s !! (db, Crc32.ChecksumIEEE name) with
          | Some (holder, n) =>
              if bool_decide (holder = conn) then
                match n with
                | S (S k) =>
                    Engine.set_advisory
                      (<[(db, Crc32.ChecksumIEEE name) := (conn, S k)]> (advisory s)) s
                | _ =>
                    Engine.set_advisory
                      (delete (db, Crc32.ChecksumIEEE name) (advisory s)) s
                end
              else s
          | None => s
          end))
  end.
Proof.
  unfold pgInitializer.Unlock, must_ok, bind, Engine.exec.
  destruct (sessions s !! conn) as [db|]; [|reflexivity]. cbn [Engine.effect].
  destruct (advisory s !! _) as [[holder [|[|n]]]|]; try case_bool_decide; reflexivity.
Qed.

Lemma Exists_unfold conn name s :
  pgInitializer.Exists conn name s =
  match sessions s !! conn with
  | None => (ErrorHandler (ErrNew "conn closed") [ASlice []], s)
  | Some _ =>
      (Returns (bool_decide (name ∈ databases s)), Engine.record conn (SelectDatabase name) s)
  end.
Proof.
  unfold pgInitializer.Exists, bind, Engine.exec.
  destruct (sessions s !! conn); [|reflexivity]. cbn [Engine.effect].
  case_bool_decide; reflexivity.
Qed.

Lemma Create_unfold conn name s :
  pgInitializer.Create conn name s =
  if Regexp.pgDbNameRegex_MatchString name then
    match sessions s !! conn with
    | None => (ErrorHandler (ErrNew "conn closed") [ASlice []], s)
    | Some _ =>
        if bool_decide (name ∈ databases s)
        then (ErrorHandler (ErrNew ("database " +:+ quoted name +:+ " already exists"))
                [ASlice []],
              Engine.record conn (CreateDatabase name) s)
        else (Returns tt,
              Engine.record conn (CreateDatabase name)
                (Engine.set_databases ({[name]} ∪ databases s) s))
    end
  else (ErrorHandler
          (ErrNew (name +:+ " as a DB name may be unsafe. letters, numbers and _ only")) [],
        s).
Proof.
  unfold pgInitializer.Create. rewrite verified_bind.
  destruct (Regexp.pgDbNameRegex_MatchString name); [|reflexivity].
  unfold must_ok, bind, Engine.exec.
  destruct (sessions s !! conn); [|reflexivity]. cbn [Engine.effect].
  case_bool_decide; reflexivity.
Qed.

(** [CreateFromTemplate] adds the new database or nothing, and returns only
    for a name that passed the check. *)
Lemma CreateFromTemplate_effect conn template name s :
  let '(r, s') := pgInitializer.CreateFromTemplate conn template name s in
  sessions s' = sessions s /\ advisory s' = advisory s /\ next_pid s' = next_pid s
  /\ r <> Blocks
  /\ match r with
     | Returns _ =>
         databases s' = {[name]} ∪ databases s /\ verifyPgDbName name = Returns name
     | _ => databases s' = databases s
     end.
Proof.
  unfold pgInitializer.CreateFromTemplate. rewrite verified_bind. unfold verifyPgDbName at 2.
  destruct (Regexp.pgDbNameRegex_MatchString name); [|cbn; repeat split; discriminate].
  rewrite verified_bind.
  destruct (Regexp.pgDbNameRegex_MatchString template); [|cbn; repeat split; discriminate].
  unfold must_ok, bind, Engine.exec.
  destruct (sessions s !! conn); [|cbn; repeat split; discriminate]. cbn [Engine.effect].
  repeat (case_bool_decide; cbn [negb]; [cbn; repeat split; discriminate|]).
  case_bool_decide; cbn [negb]; [|cbn; repeat split; discriminate].
  destruct (Engine.in_use _ _ _); cbn; repeat split; discriminate.
Qed.

(** [Remove] ends no session and releases no lock; it takes databases away
    at most. *)
Lemma Remove_effect conn name s :
  let '(r, s') := pgInitializer.Remove conn name s in
  sessions s' = sessions s /\ advisory s' = advisory s /\ next_pid s' = next_pid s
  /\ databases s' ⊆ databases s /\ r <> Blocks.
Proof.
  unfold pgInitializer.Remove. rewrite verified_bind.
  destruct (Regexp.pgDbNameRegex_MatchString name); [|cbn; repeat split; [set_solver|discriminate]].
  unfold must_ok, bind, Engine.exec.
  destruct (sessions s !! conn); [|cbn; repeat split; [set_solver|discriminate]].
  cbn [Engine.effect]. destruct (Engine.plain_identifier name);
    [|cbn; repeat split; [set_solver|discriminate]].
  unfold Engine.drop_database.
  case_bool_decide; [|cbn; repeat split; [set_solver|discriminate]].
  case_bool_decide; [cbn; repeat split; [set_solver|discriminate]|].
  destruct (Engine.in_use _ _ _); cbn; repeat split; try set_solver; discriminate.
Qed.

End BackendCases.

(** *** Teardown of an instance *)

Section Teardown.

Lemma release_dead_id (sess : gmap nat string) (adv : gmap (string * Z) (nat * nat)) :
  (forall key holder c, adv !! key = Some (holder, c) -> is_Some (sess !! holder)) ->
  Engine.release_dead sess adv = adv.
Proof.
  intros H. unfold Engine.release_dead. apply map_filter_id.
  intros key [holder c] E. cbn. apply bool_decide_eq_true_2. eapply H, E.
Qed.

Lemma prefix_differs (a b : string) :
  String.prefix "test_db_" a = true -> String.prefix "test_db_" b = false -> a <> b.
Proof. intros Ha Hb ->. congruence. Qed.

Lemma template_not_instance hash : String.prefix "test_db_" (template_of hash) = false.
Proof. reflexivity. Qed.

(** The statements of [Drop], sent by an administrative session for an
    instance, end no session and release no lock. *)
Lemma Drop_statements_effect root n s :
  String.prefix "test_db_" n = true ->
  (forall pid db, sessions s !! pid = Some db -> String.prefix "test_db_" db = false) ->
  (forall key holder c, advisory s !! key = Some (holder, c) -> is_Some (sessions s !! holder)) ->
  let '(r, s') := Drop_statements root n s in
  sessions s' = sessions s /\ advisory s' = advisory s /\ next_pid s' = next_pid s
  /\ databases s' ⊆ databases s
  /\ (forall x, x ∈ databases s -> x <> n -> x ∈ databases s')
  /\ r <> Blocks.
Proof.
  intros Hn Hadm Hhold. unfold Drop_statements. rewrite verified_bind.
  destruct (Regexp.pgDbNameRegex_MatchString n) eqn:Hv;
    [|cbn; repeat split; [set_solver|tauto|discriminate]].
  assert (Hf : filter (fun kv : nat * string => snd kv <> n) (sessions s) = sessions s).
  { apply map_filter_id. intros pid db E. cbn. intros ->.
    apply Hadm in E. congruence. }
  unfold bind at 1. unfold must_ok at 1. unfold bind at 1. unfold Engine.exec at 1.
  destruct (sessions s !! root) as [D|] eqn:Hroot;
    [|cbn; repeat split; [set_solver|tauto|discriminate]].
  cbn [Engine.effect]. rewrite Hf.
  assert (Hset : Engine.set_sessions (sessions s) s
                 = mkServer (databases s) (sessions s) (advisory s) (next_pid s) (journal s)).
  { unfold Engine.set_sessions. now rewrite (release_dead_id _ _ Hhold). }
  rewrite Hset. case_bool_decide as Hopen.
  { rewrite Hroot in Hopen. injection Hopen as ->. apply Hadm in Hroot. congruence. }
  cbn [lift must]. rewrite verified_bind, Hv.
  unfold must_ok, bind, Engine.exec. cbn [sessions Engine.record]. rewrite Hroot.
  cbn [Engine.effect]. unfold Engine.drop_database. cbn [databases sessions].
  case_bool_decide; [|cbn; repeat split; [set_solver|tauto|discriminate]].
  case_bool_decide; [cbn; repeat split; [set_solver|tauto|discriminate]|].
  destruct (Engine.in_use _ _ _); cbn; repeat split; try set_solver; discriminate.
Qed.

(** [Drop] on the handle of an instance leaves the sessions and the locks as
    they were, and every database that is not an instance in place. *)
Lemma Drop_effect dsn p s :
  admin_dsn dsn -> instance_handle dsn p -> server_ok s ->
  let '(r, s') := Drop pgDb p s in
  sessions s' = sessions s /\ advisory s' = advisory s /\ next_pid s <= next_pid s'
  /\ databases s' ⊆ databases s
  /\ (forall x, x ∈ databases s -> String.prefix "test_db_" x = false -> x ∈ databases s').
Proof.
  intros [Hadmin _] (Hname & Hconns & Hroot) [Hadm Hhold Hpids].
  cbn [Drop pgDb]. unfold bind, PgDb_Drop, PgDb_connect. rewrite Hconns, Hroot.
  unfold close_conns. rewrite map_fold_empty, lookup_empty.
  unfold Pgx.Connect. destruct (Pgx.ParseConfig_Database dsn) as [err|D] eqn:HD;
    [cbn; repeat split; [lia|set_solver|tauto]|].
  specialize (Hadmin D eq_refl).
  unfold Engine.connect. case_bool_decide; [|cbn; repeat split; [lia|set_solver|tauto]].
  set (s1 := mkServer _ _ _ _ _).
  assert (Hfresh : sessions s !! next_pid s = None).
  { destruct (sessions s !! next_pid s) eqn:E; [|reflexivity].
    assert (next_pid s < next_pid s) by (apply Hpids; now exists s0). lia. }
  pose proof (Drop_statements_effect (next_pid s) (name p) s1 Hname) as Hst.
  destruct (Drop_statements (next_pid s) (name p) s1) as [r s2].
  destruct Hst as (Es & Ea & En & Hsub & Hkeep & Hnb).
  { intros pid db. subst s1. cbn. intros [[_ <-]|[_ E]]%lookup_insert_Some; [assumption|].
    eapply Hadm, E. }
  { intros key holder c E. subst s1. cbn in *. destruct (Hhold _ _ _ E) as [x Hx].
    destruct (decide (next_pid s = holder)) as [<-|Hne]; [congruence|].
    rewrite lookup_insert_ne by assumption. now exists x. }
  assert (Hclose : sessions (Engine.close (next_pid s) s2) = sessions s
                   /\ advisory (Engine.close (next_pid s) s2) = advisory s
                   /\ databases (Engine.close (next_pid s) s2) = databases s2
                   /\ next_pid (Engine.close (next_pid s) s2) = S (next_pid s)).
  { unfold Engine.close, Engine.set_sessions. cbn. rewrite Es, Ea, En. subst s1. cbn.
    rewrite delete_insert_id by assumption. split; [reflexivity|].
    split; [|split; reflexivity]. apply release_dead_id. exact Hhold. }
  destruct Hclose as (Cs & Ca & Cd & Cn).
  assert (Hk : forall x, x ∈ databases s ->
                 String.prefix "test_db_" x = false -> x ∈ databases s2).
  { intros x Hx Hp. apply Hkeep; [exact Hx|]. intros ->. congruence. }
  destruct r; cbn -[Engine.close]; rewrite ?Cs, ?Ca, ?Cd, ?Cn; [| | |congruence];
    (repeat split; [lia|exact Hsub|exact Hk]).
Qed.

End Teardown.

(** *** The invariant, and the steps that keep it *)

Section Preservation.

Variable D : string.
Variable hash : string.
Variable dbs0 : gset string.
Variable jobs : list (string * (nat -> string)).

Abbreviation tn := (template_of hash).
Abbreviation key := ((D, key_of hash)).
Abbreviation Sys := (System nat PgDb Server).
Abbreviation migrations sys := (count isMigrate (history sys)).

Lemma in_cr_root (g : Ghost nat PgDb) r : in_cr g = Some r -> root_of g = Some r.
Proof. destruct g as [[]| |]; cbn; congruence. Qed.

Lemma in_cr_holds dsn s k th (g : Ghost nat PgDb) r :
  ghost_ok D hash dbs0 dsn s k th g -> in_cr g = Some r -> holds D hash s r.
Proof.
  destruct g as [[]| |]; cbn; intros H [=]; subst; tauto.
Qed.

Lemma connected_live s r : connected D s r -> live s r.
Proof. intros H. now exists D. Qed.

Lemma root_connected dsn s k th (g : Ghost nat PgDb) r :
  ghost_ok D hash dbs0 dsn s k th g -> root_of g = Some r -> connected D s r.
Proof.
  intros Hg Hr.
  destruct (in_cr g) as [r'|] eqn:E.
  - rewrite (in_cr_root _ _ E) in Hr. injection Hr as ->.
    eapply in_cr_holds; eassumption.
  - destruct g as [[]| |]; cbn in *; try discriminate; injection Hr as ->; tauto.
Qed.

Lemma root_live dsn s k th (g : Ghost nat PgDb) r :
  ghost_ok D hash dbs0 dsn s k th g -> root_of g = Some r -> live s r.
Proof. intros Hg Hr. eapply connected_live, root_connected; eassumption. Qed.

Lemma fingerprinted_mono k k' : k <= k' -> fingerprinted hash dbs0 k -> fingerprinted hash dbs0 k'.
Proof. unfold fingerprinted. intros ? H ?. specialize (H ltac:(assumption)). lia. Qed.

(** A step of another test leaves a test where the invariant has it: always
    when the test is outside the lock, and when the step touches neither the
    lock nor the template nor the migrations otherwise. *)
Lemma ghost_frame dsn s s' k k' th (g : Ghost nat PgDb) :
  ghost_ok D hash dbs0 dsn s k th g ->
  (forall r, connected D s r -> connected D s' r) -> k <= k' ->
  (in_cr g = None
   \/ (advisory s' !! key = advisory s !! key
       /\ (tn ∈ databases s -> tn ∈ databases s') /\ k' = k)) ->
  ghost_ok D hash dbs0 dsn s' k' th g.
Proof.
  intros Hg Hlive Hk Hq.
  pose proof (fingerprinted_mono k k' Hk) as Hf.
  assert (Hh : advisory s' !! key = advisory s !! key ->
               forall r, holds D hash s r -> holds D hash s' r).
  { intros Ea r [H1 H2]. split; [now rewrite Ea|now apply Hlive]. }
  destruct g as [[]| |]; cbn in *;
    try (destruct Hq as [[=]|(Ea & Ed & ->)]; specialize (Hh Ea); intuition eauto; fail);
    try (destruct Hq as [_|(Ea & Ed & ->)]; intuition eauto; fail).
  destruct Hg as [(r & E & Hr) Hs]. split; [|exact Hs]. exists r. intuition.
Qed.

Section OneSystem.

Variable sys : Sys.
Variable gs : list (Ghost nat PgDb).
Hypothesis HI : Inv D hash dbs0 jobs sys gs.

Lemma inv_ghost i g :
  gs !! i = Some g ->
  exists job th, jobs !! i = Some job /\ threads sys !! i = Some th
    /\ ghost_ok D hash dbs0 (fst job) (shared sys) (migrations sys) th g.
Proof.
  intros Hg. pose proof (lookup_lt_Some _ _ _ Hg) as Hlt.
  rewrite (inv_ghosts _ _ _ _ _ _ HI) in Hlt.
  destruct (lookup_lt_is_Some_2 jobs i Hlt) as [job Hjob].
  rewrite <- (inv_jobs _ _ _ _ _ _ HI) in Hlt.
  destruct (lookup_lt_is_Some_2 (threads sys) i Hlt) as [th Hth].
  exists job, th. repeat split; try assumption.
  eapply inv_threads; eassumption.
Qed.

Lemma inv_thread i th :
  threads sys !! i = Some th ->
  exists job g, jobs !! i = Some job /\ gs !! i = Some g
    /\ ghost_ok D hash dbs0 (fst job) (shared sys) (migrations sys) th g.
Proof.
  intros Hth. pose proof (lookup_lt_Some _ _ _ Hth) as Hlt.
  rewrite (inv_jobs _ _ _ _ _ _ HI) in Hlt.
  destruct (lookup_lt_is_Some_2 jobs i Hlt) as [job Hjob].
  rewrite <- (inv_ghosts _ _ _ _ _ _ HI) in Hlt.
  destruct (lookup_lt_is_Some_2 gs i Hlt) as [g Hg].
  exists job, g. repeat split; try assumption.
  eapply inv_threads; eassumption.
Qed.

Lemma mutex i g r : gs !! i = Some g -> in_cr g = Some r -> alone gs i.
Proof.
  intros Hg Hr j gj Hne Hgj.
  destruct (in_cr gj) as [r'|] eqn:E; [|reflexivity]. exfalso. apply Hne.
  destruct (inv_ghost _ _ Hg) as (job & th & _ & _ & Hok).
  destruct (inv_ghost _ _ Hgj) as (job' & th' & _ & _ & Hok').
  pose proof (in_cr_holds _ _ _ _ _ _ Hok Hr) as H1.
  pose proof (in_cr_holds _ _ _ _ _ _ Hok' E) as H2.
  destruct H1 as [H1 _], H2 as [H2 _]. rewrite H1 in H2. injection H2 as <-.
  eapply (inv_roots _ _ _ _ _ _ HI); eauto using in_cr_root.
Qed.

(** A test that finds the lock free is alone once it has it. *)
Lemma free_alone i : advisory (shared sys) !! key = None -> alone gs i.
Proof.
  intros Hfree j gj _ Hgj.
  destruct (in_cr gj) as [r'|] eqn:E; [|reflexivity]. exfalso.
  destruct (inv_ghost _ _ Hgj) as (job' & th' & _ & _ & Hok').
  pose proof (in_cr_holds _ _ _ _ _ _ Hok' E) as [H2 _].
  congruence.
Qed.

(** The general form of a step of test [i]. *)
Lemma update i job th g th' s' hist' g' :
  jobs !! i = Some job -> threads sys !! i = Some th -> gs !! i = Some g ->
  ghost_ok D hash dbs0 (fst job) s' (count isMigrate hist') th' g' ->
  server_ok s' ->
  (forall r, connected D (shared sys) r -> connected D s' r) ->
  migrations sys <= count isMigrate hist' <= 1 ->
  ((advisory s' !! key = advisory (shared sys) !! key
    /\ (tn ∈ databases (shared sys) -> tn ∈ databases s')
    /\ count isMigrate hist' = migrations sys)
   \/ alone gs i) ->
  (root_of g' = None \/ root_of g' = root_of g
   \/ exists r, root_of g' = Some r /\ ~ live (shared sys) r) ->
  (forall holder c, advisory s' !! key = Some (holder, c) ->
     exists j gj, <[i := g']> gs !! j = Some gj /\ in_cr gj = Some holder) ->
  (count isMigrate hist' = 1 ->
     tn ∈ databases s' \/ exists j gj, <[i := g']> gs !! j = Some gj /\ stuck gj = true) ->
  (tn ∉ dbs0 -> count isMigrate hist' = 0 -> tn ∈ databases s' ->
     exists j gj, <[i := g']> gs !! j = Some gj /\ building gj = true) ->
  (tn ∈ dbs0 -> tn ∈ databases s' /\ count isMigrate hist' = 0) ->
  Inv D hash dbs0 jobs (mkSystem (<[i := th']> (threads sys)) s' hist') (<[i := g']> gs).
Proof.
  intros Hjob Hth Hg Hok Hs Hlive Hk Hq Hroot Hlock Htpl Horg Hwarm.
  pose proof (lookup_lt_Some _ _ _ Hth) as Lth.
  pose proof (lookup_lt_Some _ _ _ Hg) as Lg.
  constructor; cbn [threads shared history].
  - rewrite length_insert. apply (inv_jobs _ _ _ _ _ _ HI).
  - rewrite length_insert. apply (inv_ghosts _ _ _ _ _ _ HI).
  - intros j job_j th_j g_j Hj Htj Hgj.
    destruct (decide (i = j)) as [<-|Hne].
    + rewrite list_lookup_insert_eq in Htj by assumption.
      rewrite list_lookup_insert_eq in Hgj by assumption.
      injection Htj as <-. injection Hgj as <-.
      rewrite Hjob in Hj. injection Hj as <-. exact Hok.
    + rewrite list_lookup_insert_ne in Htj by assumption.
      rewrite list_lookup_insert_ne in Hgj by assumption.
      eapply ghost_frame.
      * eapply (inv_threads _ _ _ _ _ _ HI); eassumption.
      * exact Hlive.
      * lia.
      * destruct Hq as [Hq|Hal]; [right; exact Hq|left].
        eapply Hal; [|eassumption]. congruence.
  - exact Hs.
  - intros a b ga gb r Ha Hb Hra Hrb.
    assert (Hnew : forall j gj, gs !! j = Some gj -> j <> i -> root_of gj = Some r ->
                     root_of g' = Some r -> False).
    { intros j gj Hgj Hne Hrj Hr'.
      destruct (inv_ghost _ _ Hgj) as (job' & thj & _ & _ & Hokj).
      pose proof (root_live _ _ _ _ _ _ Hokj Hrj) as Hl.
      destruct Hroot as [E|[E|(r' & E & Hdead)]].
      - congruence.
      - apply Hne. eapply (inv_roots _ _ _ _ _ _ HI); [exact Hgj|exact Hg|exact Hrj|congruence].
      - rewrite E in Hr'. injection Hr' as ->. tauto. }
    destruct (decide (a = i)) as [->|Na], (decide (b = i)) as [->|Nb]; [reflexivity|..].
    + rewrite list_lookup_insert_eq in Ha by assumption. injection Ha as <-.
      rewrite list_lookup_insert_ne in Hb by congruence.
      exfalso. eapply Hnew; eassumption.
    + rewrite list_lookup_insert_eq in Hb by assumption. injection Hb as <-.
      rewrite list_lookup_insert_ne in Ha by congruence.
      exfalso. eapply Hnew; eassumption.
    + rewrite list_lookup_insert_ne in Ha by congruence.
      rewrite list_lookup_insert_ne in Hb by congruence.
      eapply (inv_roots _ _ _ _ _ _ HI); eassumption.
  - exact Hlock.
  - lia.
  - exact Htpl.
  - exact Horg.
  - exact Hwarm.
Qed.

(** Other tests are where they were. *)
Lemma others_stay i (g' : Ghost nat PgDb) (P : Ghost nat PgDb -> Prop) :
  (exists j gj, gs !! j = Some gj /\ P gj) ->
  (forall g, gs !! i = Some g -> P g -> P g') ->
  exists j gj, <[i := g']> gs !! j = Some gj /\ P gj.
Proof.
  intros (j & gj & Hj & HP) Hi.
  destruct (decide (i = j)) as [->|Hne].
  - exists j, g'. split; [|eauto].
    apply list_lookup_insert_eq. eapply lookup_lt_Some, Hj.
  - exists j, gj. split; [|exact HP]. now rewrite list_lookup_insert_ne.
Qed.

Lemma here i g (g' : Ghost nat PgDb) (P : Ghost nat PgDb -> Prop) :
  gs !! i = Some g -> P g' -> exists j gj, <[i := g']> gs !! j = Some gj /\ P gj.
Proof.
  intros Hg HP. exists i, g'. split; [|exact HP].
  apply list_lookup_insert_eq. eapply lookup_lt_Some, Hg.
Qed.

(** A step that leaves the lock, the template and the migrations alone, and
    the test on the side of the lock where it was. *)
Lemma quiet i job th g th' s' hist' g' :
  jobs !! i = Some job -> threads sys !! i = Some th -> gs !! i = Some g ->
  ghost_ok D hash dbs0 (fst job) s' (count isMigrate hist') th' g' ->
  server_ok s' ->
  (forall r, connected D (shared sys) r -> connected D s' r) ->
  advisory s' !! key = advisory (shared sys) !! key ->
  (tn ∈ databases (shared sys) <-> tn ∈ databases s') ->
  count isMigrate hist' = migrations sys ->
  in_cr g' = in_cr g ->
  (root_of g' = None \/ root_of g' = root_of g
   \/ exists r, root_of g' = Some r /\ ~ live (shared sys) r) ->
  (stuck g = true -> stuck g' = true) ->
  (building g = true -> building g' = true) ->
  Inv D hash dbs0 jobs (mkSystem (<[i := th']> (threads sys)) s' hist') (<[i := g']> gs).
Proof.
  intros Hjob Hth Hg Hok Hs Hlive Ha Hd Hk Hcr Hroot Hst Hbd.
  eapply update; try eassumption.
  - rewrite Hk. pose proof (inv_once _ _ _ _ _ _ HI). lia.
  - left. tauto.
  - intros holder c E. rewrite Ha in E.
    apply (others_stay i g' (fun x => in_cr x = Some holder)).
    + eapply (inv_lock _ _ _ _ _ _ HI), E.
    + intros g0 Hg0 H0. rewrite Hg in Hg0. injection Hg0 as <-. congruence.
  - rewrite Hk. intros K1.
    destruct (inv_template _ _ _ _ _ _ HI K1) as [Hin|Hex]; [left; tauto|right].
    apply (others_stay i g' (fun x => stuck x = true)); [exact Hex|].
    intros g0 Hg0 H0. rewrite Hg in Hg0. injection Hg0 as <-. auto.
  - rewrite Hk. intros Habs K0 Hin.
    apply (others_stay i g' (fun x => building x = true)).
    + apply (inv_origin _ _ _ _ _ _ HI Habs K0). tauto.
    + intros g0 Hg0 H0. rewrite Hg in Hg0. injection Hg0 as <-. auto.
  - rewrite Hk. intros Hw. destruct (inv_warm _ _ _ _ _ _ HI Hw). tauto.
Qed.

End OneSystem.

End Preservation.

(** *** One step of a test on Postgres *)

Section Steps.

Variable D : string.
Variable hash : string.
Variable migrate : string -> res unit.
Variable dbs0 : gset string.
Variable jobs : list (string * (nat -> string)).

Abbreviation tn := (template_of hash).
Abbreviation key := ((D, key_of hash)).
Abbreviation mgr := (migrator_of hash migrate).
Abbreviation Sys := (System nat PgDb Server).
Abbreviation migrations sys := (count isMigrate (history sys)).

Lemma count_snoc (f : Op nat PgDb -> bool) l o :
  count f (l ++ [o]) = count f l + (if f o then 1 else 0).
Proof. induction l as [|a l IH]; cbn; [lia|]. rewrite IH. lia. Qed.

(** A call that goes to the server. *)
Lemma thread_step_st (th : Thread nat PgDb) s hist o k (f : M Server (Ret o)) :
  code th = inl (Do o k) ->
  (forall w, perform pgInit mgr pgDb o w = on_st f w) ->
  thread_step pgInit mgr pgDb th s hist =
  match f s with
  | (Returns x, s') => Some (mkThread (inl (k x)) (ttb th), s', hist ++ [o])
  | (Blocks, _) => None
  | (r, s') => Some (mkThread (inr (halted r)) (ttb th), s', hist ++ [o])
  end.
Proof.
  intros E P. unfold thread_step, step. rewrite E, P. unfold on_st. cbn.
  destruct (f s) as [[] ?]; reflexivity.
Qed.

(** A call on [t]. *)
Lemma thread_step_tb (th : Thread nat PgDb) s hist o k
    (f : TB nat PgDb -> Ret o * TB nat PgDb) :
  code th = inl (Do o k) ->
  (forall w, perform pgInit mgr pgDb o w = on_tb f w) ->
  thread_step pgInit mgr pgDb th s hist =
  Some (mkThread (inl (k (fst (f (ttb th))))) (snd (f (ttb th))), s, hist ++ [o]).
Proof.
  intros E P. unfold thread_step, step. rewrite E, P. unfold on_tb. cbn.
  destruct (f (ttb th)); reflexivity.
Qed.

Lemma server_ok_same s s' :
  sessions s' = sessions s -> advisory s' = advisory s -> next_pid s <= next_pid s' ->
  server_ok s -> server_ok s'.
Proof.
  intros Es Ea En [H1 H2 H3]. constructor; unfold live in *; rewrite ?Es, ?Ea.
  - exact H1.
  - exact H2.
  - intros pid Hp. specialize (H3 pid Hp). lia.
Qed.

Lemma server_ok_connect s D' :
  String.prefix "test_db_" D' = false -> server_ok s ->
  server_ok (mkServer (databases s) (<[next_pid s := D']> (sessions s)) (advisory s)
                      (S (next_pid s)) (journal s))
  /\ ~ live s (next_pid s).
Proof.
  intros HD [H1 H2 H3].
  assert (Hfresh : ~ live s (next_pid s)).
  { intros Hl. specialize (H3 _ Hl). lia. }
  split; [|exact Hfresh]. constructor; unfold live in *; cbn.
  - intros pid db [[_ <-]|[_ E]]%lookup_insert_Some; [exact HD|eapply H1, E].
  - intros k holder c E. destruct (H2 _ _ _ E) as [x Hx].
    destruct (decide (next_pid s = holder)) as [<-|Hne]; [exfalso; apply Hfresh; now exists x|].
    rewrite lookup_insert_ne by assumption. now exists x.
  - intros pid [x [[<- _]|[_ E]]%lookup_insert_Some]; [lia|].
    assert (pid < next_pid s) by (apply H3; now exists x). lia.
Qed.

Lemma instance_name_prefix u : String.prefix "test_db_" (instance_name u) = true.
Proof.
  unfold instance_name. destruct (Bytes.remove_byte "-" u); reflexivity.
Qed.

(** What a cleanup does. *)
Lemma thread_step_done (th : Thread nat PgDb) r s hist th' s' hist' :
  code th = inr r ->
  thread_step pgInit mgr pgDb th s hist = Some (th', s', hist') ->
  exists f fs r' w',
    cleanups (ttb th) = f :: fs
    /\ run pgInit mgr pgDb (closure_code f)
         (mkWorld (mkTB fs (vars (ttb th)) (uuids (ttb th)) (drawn (ttb th))) s hist)
       = (r', w')
    /\ r' <> Blocks
    /\ th' = mkThread (inr r) (tb w') /\ s' = st w' /\ hist' = calls w'.
Proof.
  intros E H. unfold thread_step in H. rewrite E in H.
  destruct r; try discriminate;
    (destruct (cleanups (ttb th)) as [|f fs]; [discriminate|]);
    (destruct (run _ _ _ _ _) as [[] w'] eqn:R; try discriminate);
    injection H as <- <- <-; exists f, fs; do 2 eexists;
    (split; [reflexivity|]); (split; [exact R|]); (split; [discriminate|]);
    repeat split.
Qed.

Lemma closure_ok_safe dsn vs (f : Closure nat PgDb) :
  closure_ok dsn vs f -> closure_safe dsn f.
Proof. destruct f; cbn; tauto. Qed.

Lemma closure_effect dsn (f : Closure nat PgDb) t s hist r' w' :
  admin_dsn dsn -> server_ok s -> closure_safe dsn f ->
  run pgInit mgr pgDb (closure_code f) (mkWorld t s hist) = (r', w') ->
  r' <> Blocks ->
  tb w' = t /\ count isMigrate (calls w') = count isMigrate hist
  /\ sessions (st w') = sessions s /\ advisory (st w') = advisory s
  /\ next_pid s <= next_pid (st w')
  /\ databases (st w') ⊆ databases s
  /\ (closure_ok dsn (vars t) f -> tn ∈ databases s -> tn ∈ databases (st w')).
Proof.
  intros Hadm Hs Hf Hrun Hnb. destruct f as [v root name|p].
  - cbn [closure_code run] in Hrun. unfold step in Hrun. cbn [perform] in Hrun.
    unfold on_tb in Hrun. cbn [tb st calls] in Hrun.
    destruct (default false (vars t !! v)) eqn:Hv; cbn [negb run] in Hrun.
    + injection Hrun as <- <-. cbn. rewrite count_snoc. cbn.
      repeat split; try reflexivity; try lia; try tauto.
    + unfold step in Hrun. cbn [perform pgInit Remove] in Hrun. unfold on_st in Hrun.
      cbn [tb st calls] in Hrun.
      pose proof (Remove_effect root name s) as He.
      destruct (pgInitializer.Remove root name s) as [r1 s1].
      destruct He as (Es & Ea & En & Hsub & Hnb1).
      assert (Hw : tb w' = t /\ st w' = s1
                   /\ calls w' = (hist ++ [OpVarGet v]) ++ [OpRemove root name]).
      { destruct r1; cbn in Hrun; try congruence; injection Hrun as <- <-; cbn; tauto. }
      destruct Hw as (-> & -> & ->). rewrite !count_snoc. cbn.
      repeat split; try assumption; try lia.
      cbn. intros Hv'. rewrite Hv' in Hv. discriminate.
  - cbn [closure_code run] in Hrun. unfold step in Hrun. cbn [perform] in Hrun.
    unfold on_st in Hrun. cbn [tb st calls] in Hrun.
    pose proof (Drop_effect dsn p s Hadm Hf Hs) as He.
    destruct (Drop pgDb p s) as [r1 s1].
    destruct He as (Es & Ea & En & Hsub & Hkeep).
    assert (Hw : tb w' = t /\ st w' = s1 /\ calls w' = hist ++ [OpDrop p]).
    { destruct r1; cbn in Hrun; injection Hrun as <- <-; cbn; tauto. }
    destruct Hw as (-> & -> & ->). rewrite !count_snoc. cbn.
    repeat split; try assumption; try lia.
    intros _ Hin. apply Hkeep; [exact Hin|reflexivity].
Qed.

Section Cases.

Variable sys : Sys.
Variable gs : list (Ghost nat PgDb).
Hypothesis HI : Inv D hash dbs0 jobs sys gs.
Variable i : nat.
Variable job : string * (nat -> string).
Variable th : Thread nat PgDb.
Hypothesis Hjob : jobs !! i = Some job.
Hypothesis Hth : threads sys !! i = Some th.
Hypothesis Hadm : admin_dsn (fst job).
Hypothesis HD : Pgx.ParseConfig_Database (fst job) = inr D.

Abbreviation Next th' s' hist' :=
  (exists g', Inv D hash dbs0 jobs (mkSystem (<[i := th']> (threads sys)) s' hist') (<[i := g']> gs)).

(** The server is as it was but for its journal and its next process id. *)
Lemma calm g th' s' hist' g' :
  gs !! i = Some g ->
  ghost_ok D hash dbs0 (fst job) s' (count isMigrate hist') th' g' ->
  sessions s' = sessions (shared sys) -> advisory s' = advisory (shared sys) ->
  next_pid (shared sys) <= next_pid s' ->
  (tn ∈ databases (shared sys) <-> tn ∈ databases s') ->
  count isMigrate hist' = migrations sys ->
  in_cr g' = in_cr g ->
  (root_of g' = None \/ root_of g' = root_of g) ->
  (stuck g = true -> stuck g' = true) ->
  (building g = true -> building g' = true) ->
  Inv D hash dbs0 jobs (mkSystem (<[i := th']> (threads sys)) s' hist') (<[i := g']> gs).
Proof.
  intros Hg Hok Es Ea En Hd Hk Hcr Hroot Hst Hbd.
  eapply (quiet D hash dbs0 jobs sys gs HI); try eassumption.
  - eapply server_ok_same; try eassumption. apply (inv_server _ _ _ _ _ _ HI).
  - unfold connected. now rewrite Es.
  - now rewrite Ea.
  - tauto.
Qed.

Lemma settled_nil t : cleanups t = [] -> settled (fst job) t.
Proof. unfold settled. intros ->. constructor. Qed.

Lemma settled_safe t : settled (fst job) t -> Forall (closure_safe (fst job)) (cleanups t).
Proof.
  unfold settled. intros H. eapply Forall_impl; [exact H|].
  intros [] H'; cbn in *; tauto.
Qed.

Lemma outside_lock (g : Ghost nat PgDb) :
  in_cr g = None -> stuck g = false /\ building g = false.
Proof. destruct g as [[]| |]; cbn; intros [=]; split; reflexivity. Qed.

(** The call of a test outside the lock does not return. *)
Lemma halt_free g (r : res PgDb) s' o :
  gs !! i = Some g -> in_cr g = None ->
  is_returns r = false -> settled (fst job) (ttb th) ->
  sessions s' = sessions (shared sys) -> advisory s' = advisory (shared sys) ->
  next_pid (shared sys) <= next_pid s' ->
  (tn ∈ databases (shared sys) <-> tn ∈ databases s') ->
  isMigrate o = false ->
  Next (mkThread (inr r) (ttb th)) s' (history sys ++ [o]).
Proof.
  intros Hg Hcr Hr Hset Es Ea En Hd Ho. exists GFree.
  destruct (outside_lock _ Hcr) as [Hst Hbd].
  eapply calm; try eassumption; cbn; rewrite ?count_snoc, ?Ho; try lia; try tauto;
    try congruence.
  split; [|exact Hset]. exists r. split; [reflexivity|congruence].
Qed.

(** The call of a test that holds the lock does not return. *)
Lemma holds_same s' root :
  sessions s' = sessions (shared sys) -> advisory s' = advisory (shared sys) ->
  holds D hash (shared sys) root -> holds D hash s' root.
Proof. intros Es Ea [H1 H2]. unfold holds, connected in *. now rewrite Ea, Es. Qed.

Lemma halt_stuck g root (r : res PgDb) s' o :
  gs !! i = Some g -> in_cr g = Some root -> holds D hash (shared sys) root ->
  is_returns r = false -> Forall (closure_safe (fst job)) (cleanups (ttb th)) ->
  (tn ∈ dbs0 -> settled (fst job) (ttb th)) ->
  sessions s' = sessions (shared sys) -> advisory s' = advisory (shared sys) ->
  next_pid (shared sys) <= next_pid s' ->
  (tn ∈ databases (shared sys) <-> tn ∈ databases s') ->
  isMigrate o = false ->
  Next (mkThread (inr r) (ttb th)) s' (history sys ++ [o]).
Proof.
  intros Hg Hcr Hh Hr Hset Hw Es Ea En Hd Ho. exists (GStuck root).
  eapply calm; try eassumption; cbn; rewrite ?count_snoc, ?Ho; try lia; try tauto;
    try congruence.
  - split; [exists r; split; [reflexivity|exact Hr]|].
    split; [now apply holds_same|]. split; [exact Hset|exact Hw].
  - right. symmetry. now apply in_cr_root.
Qed.

Lemma building_in_cr (g : Ghost nat PgDb) : building g = true -> exists r, in_cr g = Some r.
Proof. destruct g as [[]| |]; cbn; intros [=]; eauto. Qed.

Lemma stuck_in_cr (g : Ghost nat PgDb) : stuck g = true -> exists r, in_cr g = Some r.
Proof. destruct g as [[]| |]; cbn; intros [=]; eauto. Qed.

(** The test that holds the lock and finds the template made, without having
    made it, finds it migrated. *)
Lemma template_found g r :
  gs !! i = Some g -> in_cr g = Some r -> building g = false ->
  tn ∈ databases (shared sys) -> fingerprinted hash dbs0 (migrations sys).
Proof.
  intros Hg Hcr Hb Hin Habs.
  destruct (migrations sys) as [|k] eqn:K; [exfalso|lia].
  destruct (inv_origin _ _ _ _ _ _ HI Habs K Hin) as (j & gj & Hj & Hbj).
  destruct (building_in_cr _ Hbj) as [rj Hrj].
  destruct (decide (j = i)) as [->|Hne]; [congruence|].
  pose proof (mutex D hash dbs0 jobs sys gs HI i g r Hg Hcr j gj Hne Hj). congruence.
Qed.

(** The test that holds the lock and finds no template is the first. *)
Lemma template_missing g r :
  gs !! i = Some g -> in_cr g = Some r -> stuck g = false ->
  tn ∉ databases (shared sys) -> migrations sys = 0.
Proof.
  intros Hg Hcr Hs Hout.
  pose proof (inv_once _ _ _ _ _ _ HI) as Hle.
  destruct (migrations sys) as [|[|k]] eqn:K; [reflexivity|exfalso|lia].
  destruct (inv_template _ _ _ _ _ _ HI K) as [Hin|(j & gj & Hj & Hsj)]; [tauto|].
  destruct (stuck_in_cr _ Hsj) as [rj Hrj].
  destruct (decide (j = i)) as [->|Hne]; [congruence|].
  pose proof (mutex D hash dbs0 jobs sys gs HI i g r Hg Hcr j gj Hne Hj). congruence.
Qed.

(** The template was not there at the start when it is not there now. *)
Lemma cold_start : tn ∉ databases (shared sys) -> tn ∉ dbs0.
Proof. intros Hout Hw. destruct (inv_warm _ _ _ _ _ _ HI Hw). contradiction. Qed.

Lemma warm_kept s' (hist' : list (Op nat PgDb)) :
  (tn ∈ databases (shared sys) -> tn ∈ databases s') ->
  count isMigrate hist' = migrations sys ->
  tn ∈ dbs0 -> tn ∈ databases s' /\ count isMigrate hist' = 0.
Proof.
  intros Hd Hk Hw. destruct (inv_warm _ _ _ _ _ _ HI Hw) as [H1 H2].
  split; [now apply Hd|congruence].
Qed.

Ltac same_server :=
  cbn; rewrite ?count_snoc; cbn; rewrite ?Nat.add_0_r;
  try reflexivity; try lia; try tauto; try congruence; try discriminate.

Lemma case_connect th' s' hist' :
  gs !! i = Some (GRun SConnect) ->
  code th = inl (stage_code (fst job) tn SConnect) ->
  stage_ok D hash dbs0 (fst job) (shared sys) (migrations sys) (ttb th) SConnect ->
  thread_step pgInit mgr pgDb th (shared sys) (history sys) = Some (th', s', hist') ->
  Next th' s' hist'.
Proof.
  intros Hg Hcode Hok Hstep. cbn in Hok.
  rewrite (thread_step_st _ _ _ (OpConnect (fst job)) _ (pgInitializer.Connect (fst job))
             Hcode (fun _ => eq_refl)) in Hstep.
  rewrite Connect_unfold, HD in Hstep.
  case_bool_decide.
  - injection Hstep as <- <- <-. exists (GRun (SHash (next_pid (shared sys)))).
    destruct (server_ok_connect (shared sys) D) as [Hs' Hfresh].
    { now apply (proj1 Hadm). }
    { apply (inv_server _ _ _ _ _ _ HI). }
    eapply (quiet D hash dbs0 jobs sys gs HI); try eassumption; same_server.
    + split; [reflexivity|]. split; [|assumption].
      unfold connected. cbn. apply lookup_insert_eq.
    + unfold connected. cbn. intros r Hx.
      destruct (decide (next_pid (shared sys) = r)) as [<-|Hne];
        [exfalso; apply Hfresh; now exists D|].
      now rewrite lookup_insert_ne by assumption.
    + right. right. eexists. split; [reflexivity|exact Hfresh].
  - cbn in Hstep. injection Hstep as <- <- <-.
    eapply halt_free; try eassumption; try reflexivity; auto using settled_nil.
Qed.

Lemma case_hash root th' s' hist' :
  gs !! i = Some (GRun (SHash root)) ->
  code th = inl (stage_code (fst job) tn (SHash root)) ->
  stage_ok D hash dbs0 (fst job) (shared sys) (migrations sys) (ttb th) (SHash root) ->
  thread_step pgInit mgr pgDb th (shared sys) (history sys) = Some (th', s', hist') ->
  Next th' s' hist'.
Proof.
  intros Hg Hcode Hok Hstep. cbn in Hok.
  rewrite (thread_step_st _ _ _ OpHash _ (lift (Returns hash)) Hcode (fun _ => eq_refl))
    in Hstep.
  cbn in Hstep. injection Hstep as <- <- <-. exists (GRun (SLock root)).
  eapply calm; try eassumption; same_server.
Qed.

Lemma case_lock root th' s' hist' :
  gs !! i = Some (GRun (SLock root)) ->
  code th = inl (stage_code (fst job) tn (SLock root)) ->
  stage_ok D hash dbs0 (fst job) (shared sys) (migrations sys) (ttb th) (SLock root) ->
  thread_step pgInit mgr pgDb th (shared sys) (history sys) = Some (th', s', hist') ->
  Next th' s' hist'.
Proof.
  intros Hg Hcode Hok Hstep. cbn in Hok. destruct Hok as [Hcon Hcl].
  rewrite (thread_step_st _ _ _ (OpLock root tn) _ (pgInitializer.Lock root tn)
             Hcode (fun _ => eq_refl)) in Hstep.
  rewrite Lock_unfold, Hcon in Hstep. fold (key_of hash) in Hstep.
  destruct (advisory (shared sys) !! key) as [[holder n]|] eqn:Hadv.
  - case_bool_decide as Hh; [exfalso|discriminate]. subst holder.
    destruct (inv_lock _ _ _ _ _ _ HI _ _ Hadv) as (j & gj & Hj & Hcr).
    assert (i = j) as <-.
    { eapply (inv_roots _ _ _ _ _ _ HI); [exact Hg|exact Hj|reflexivity|].
      now apply in_cr_root. }
    rewrite Hg in Hj. injection Hj as <-. discriminate.
  - injection Hstep as <- <- <-. exists (GRun (SExists root)).
    eapply (update D hash dbs0 jobs sys gs HI); try eassumption; same_server.
    + split; [reflexivity|]. split; [|assumption].
      split; [cbn; apply lookup_insert_eq|exact Hcon].
    + destruct (inv_server _ _ _ _ _ _ HI) as [H1 H2 H3].
      constructor; unfold live in *; cbn; try assumption.
      intros k holder c [[_ [= <- _]]|[_ E]]%lookup_insert_Some; [eauto|eapply H2, E].
    + pose proof (inv_once _ _ _ _ _ _ HI). lia.
    + right. now apply (free_alone D hash dbs0 jobs sys gs HI).
    + intros holder c. rewrite lookup_insert_eq. intros [= <- _].
      eapply here; [exact Hg|reflexivity].
    + intros K1. destruct (inv_template _ _ _ _ _ _ HI K1) as [Hin|Hex]; [left; exact Hin|right].
      eapply (others_stay gs i _ (fun x => stuck x = true)); [exact Hex|].
      intros g0 Hg0. rewrite Hg in Hg0. injection Hg0 as <-. discriminate.
    + intros Habs K0 Hin.
      eapply (others_stay gs i _ (fun x => building x = true)).
      * now apply (inv_origin _ _ _ _ _ _ HI Habs K0).
      * intros g0 Hg0. rewrite Hg in Hg0. injection Hg0 as <-. discriminate.
    + now apply warm_kept.
Qed.

Lemma case_exists root th' s' hist' :
  gs !! i = Some (GRun (SExists root)) ->
  code th = inl (stage_code (fst job) tn (SExists root)) ->
  stage_ok D hash dbs0 (fst job) (shared sys) (migrations sys) (ttb th) (SExists root) ->
  thread_step pgInit mgr pgDb th (shared sys) (history sys) = Some (th', s', hist') ->
  Next th' s' hist'.
Proof.
  intros Hg Hcode Hok Hstep. cbn in Hok. destruct Hok as [Hh Hcl].
  pose proof (proj2 Hh) as Hcon.
  rewrite (thread_step_st _ _ _ (OpExists root tn) _ (pgInitializer.Exists root tn)
             Hcode (fun _ => eq_refl)) in Hstep.
  rewrite Exists_unfold, Hcon in Hstep. injection Hstep as <- <- <-.
  case_bool_decide as Hin.
  - exists (GRun (SUuid root)).
    eapply calm; try eassumption; same_server.
    split; [reflexivity|]. split; [now apply holds_same|].
    split; [now apply settled_nil|]. split; [exact Hin|].
    eapply template_found; [exact Hg|reflexivity|reflexivity|exact Hin].
  - exists (GRun (SCreate root)).
    eapply calm; try eassumption; same_server.
    split; [reflexivity|]. split; [now apply holds_same|]. split; [assumption|].
    split; [|now apply cold_start].
    eapply template_missing; [exact Hg|reflexivity|reflexivity|exact Hin].
Qed.

Lemma case_create root th' s' hist' :
  gs !! i = Some (GRun (SCreate root)) ->
  code th = inl (stage_code (fst job) tn (SCreate root)) ->
  stage_ok D hash dbs0 (fst job) (shared sys) (migrations sys) (ttb th) (SCreate root) ->
  thread_step pgInit mgr pgDb th (shared sys) (history sys) = Some (th', s', hist') ->
  Next th' s' hist'.
Proof.
  intros Hg Hcode Hok Hstep. cbn in Hok. destruct Hok as (Hh & Hcl & K0 & Hcold).
  pose proof (proj2 Hh) as Hcon.
  assert (Hsafe : Forall (closure_safe (fst job)) (cleanups (ttb th))).
  { rewrite Hcl. constructor. }
  assert (Hnot : tn ∈ dbs0 -> settled (fst job) (ttb th)) by (intros; contradiction).
  rewrite (thread_step_st _ _ _ (OpCreate root tn) _ (pgInitializer.Create root tn)
             Hcode (fun _ => eq_refl)) in Hstep.
  rewrite Create_unfold, Hcon in Hstep.
  destruct (Regexp.pgDbNameRegex_MatchString tn).
  - case_bool_decide as Hin; cbn in Hstep; injection Hstep as <- <- <-.
    + eapply halt_stuck; try eassumption; try reflexivity.
    + exists (GRun (SVarNew root)).
      eapply (update D hash dbs0 jobs sys gs HI); try eassumption; same_server.
      * split; [reflexivity|]. split; [now apply holds_same|].
        repeat split; auto. set_solver.
      * apply (server_ok_same (shared sys));
          [reflexivity|reflexivity|cbn; lia|apply (inv_server _ _ _ _ _ _ HI)].
      * intros holder c E.
        eapply (others_stay gs i _ (fun x => in_cr x = Some holder)).
        -- eapply (inv_lock _ _ _ _ _ _ HI), E.
        -- intros g0 Hg0. rewrite Hg in Hg0. injection Hg0 as <-. auto.
      * intros _ _ _. eapply here; [exact Hg|reflexivity].
  - cbn in Hstep. injection Hstep as <- <- <-.
    eapply halt_stuck; try eassumption; try reflexivity.
Qed.

Lemma case_var_new root th' s' hist' :
  gs !! i = Some (GRun (SVarNew root)) ->
  code th = inl (stage_code (fst job) tn (SVarNew root)) ->
  stage_ok D hash dbs0 (fst job) (shared sys) (migrations sys) (ttb th) (SVarNew root) ->
  thread_step pgInit mgr pgDb th (shared sys) (history sys) = Some (th', s', hist') ->
  Next th' s' hist'.
Proof.
  intros Hg Hcode Hok Hstep. cbn in Hok. destruct Hok as (Hh & Hcl & K0 & Hin & Hcold).
  rewrite (thread_step_tb _ _ _ (OpVarNew false) _ _ Hcode (fun _ => eq_refl)) in Hstep.
  cbn in Hstep. injection Hstep as <- <- <-.
  exists (GRun (SRegister root (length (vars (ttb th))))).
  eapply calm; try eassumption; same_server.
  split; [reflexivity|]. split; [exact Hh|]. split; [exact Hcl|]. split; [|tauto].
  now rewrite lookup_app_r, Nat.sub_diag by lia.
Qed.

Lemma case_register root v th' s' hist' :
  gs !! i = Some (GRun (SRegister root v)) ->
  code th = inl (stage_code (fst job) tn (SRegister root v)) ->
  stage_ok D hash dbs0 (fst job) (shared sys) (migrations sys) (ttb th) (SRegister root v) ->
  thread_step pgInit mgr pgDb th (shared sys) (history sys) = Some (th', s', hist') ->
  Next th' s' hist'.
Proof.
  intros Hg Hcode Hok Hstep. cbn in Hok.
  destruct Hok as (Hh & Hcl & Hv & K0 & Hin & Hcold).
  rewrite (thread_step_tb _ _ _ (OpCleanup (RemoveUnlessDone v root tn)) _ _ Hcode
             (fun _ => eq_refl)) in Hstep.
  cbn in Hstep. injection Hstep as <- <- <-.
  exists (GRun (STemplateDsn root v)).
  eapply calm; try eassumption; same_server.
  split; [reflexivity|]. split; [exact Hh|]. split; [|tauto].
  split; [cbn; now rewrite Hcl|exact Hv].
Qed.

Lemma pending_safe t v root :
  pending hash t v root -> Forall (closure_safe (fst job)) (cleanups t).
Proof. intros [-> _]. repeat constructor. Qed.

Lemma case_template_dsn root v th' s' hist' :
  gs !! i = Some (GRun (STemplateDsn root v)) ->
  code th = inl (stage_code (fst job) tn (STemplateDsn root v)) ->
  stage_ok D hash dbs0 (fst job) (shared sys) (migrations sys) (ttb th) (STemplateDsn root v) ->
  thread_step pgInit mgr pgDb th (shared sys) (history sys) = Some (th', s', hist') ->
  Next th' s' hist'.
Proof.
  intros Hg Hcode Hok Hstep. cbn in Hok. destruct Hok as (Hh & Hp & K0 & Hin & Hcold).
  assert (Hnot : tn ∈ dbs0 -> settled (fst job) (ttb th)) by (intros; contradiction).
  rewrite (thread_step_st _ _ _ (OpNewDsn (fst job) tn) _ (lift (NewDsn (fst job) tn))
             Hcode (fun _ => eq_refl)) in Hstep.
  unfold lift in Hstep.
  destruct (NewDsn (fst job) tn) as [out|rep|msg|]; cbn in Hstep; [| | |discriminate];
    injection Hstep as <- <- <-.
  - exists (GRun (SMigrate root v out)).
    eapply calm; try eassumption; same_server.
  - eapply halt_stuck; try eassumption; try reflexivity. eapply pending_safe, Hp.
  - eapply halt_stuck; try eassumption; try reflexivity. eapply pending_safe, Hp.
Qed.

Lemma case_migrate root v dsn th' s' hist' :
  gs !! i = Some (GRun (SMigrate root v dsn)) ->
  code th = inl (stage_code (fst job) tn (SMigrate root v dsn)) ->
  stage_ok D hash dbs0 (fst job) (shared sys) (migrations sys) (ttb th) (SMigrate root v dsn) ->
  thread_step pgInit mgr pgDb th (shared sys) (history sys) = Some (th', s', hist') ->
  Next th' s' hist'.
Proof.
  intros Hg Hcode Hok Hstep. cbn in Hok. destruct Hok as (Hh & Hp & K0 & Hin & Hcold).
  rewrite (thread_step_st _ _ _ (OpMigrate dsn) _ (lift (migrate dsn))
             Hcode (fun _ => eq_refl)) in Hstep.
  unfold lift in Hstep.
  assert (Hal : alone gs i).
  { eapply (mutex D hash dbs0 jobs sys gs HI); [exact Hg|reflexivity]. }
  assert (Hlock : forall g', in_cr g' = Some root ->
            forall holder c, advisory (shared sys) !! key = Some (holder, c) ->
            exists j gj, <[i := g']> gs !! j = Some gj /\ in_cr gj = Some holder).
  { intros g' Hg' holder c E.
    eapply (others_stay gs i _ (fun x => in_cr x = Some holder)).
    - eapply (inv_lock _ _ _ _ _ _ HI), E.
    - intros g0 Hg0. rewrite Hg in Hg0. injection Hg0 as <-. cbn. congruence. }
  destruct (migrate dsn) as [[]|rep|msg|]; cbn in Hstep; [| | |discriminate];
    injection Hstep as <- <- <-.
  - exists (GRun (SMarkDone root v)).
    eapply (update D hash dbs0 jobs sys gs HI); try eassumption; same_server.
    + split; [reflexivity|]. split; [exact Hh|]. split; [exact Hp|]. split; [exact Hin|lia].
    + apply (inv_server _ _ _ _ _ _ HI).
    + now apply Hlock.
  - exists (GStuck root).
    eapply (update D hash dbs0 jobs sys gs HI); try eassumption; same_server.
    + split; [eexists; split; reflexivity|]. split; [assumption|].
      split; [eapply pending_safe, Hp|intros; contradiction].
    + apply (inv_server _ _ _ _ _ _ HI).
    + now apply Hlock.
  - exists (GStuck root).
    eapply (update D hash dbs0 jobs sys gs HI); try eassumption; same_server.
    + split; [eexists; split; reflexivity|]. split; [assumption|].
      split; [eapply pending_safe, Hp|intros; contradiction].
    + apply (inv_server _ _ _ _ _ _ HI).
    + now apply Hlock.
Qed.

Lemma case_mark_done root v th' s' hist' :
  gs !! i = Some (GRun (SMarkDone root v)) ->
  code th = inl (stage_code (fst job) tn (SMarkDone root v)) ->
  stage_ok D hash dbs0 (fst job) (shared sys) (migrations sys) (ttb th) (SMarkDone root v) ->
  thread_step pgInit mgr pgDb th (shared sys) (history sys) = Some (th', s', hist') ->
  Next th' s' hist'.
Proof.
  intros Hg Hcode Hok Hstep. cbn in Hok. destruct Hok as (Hh & [Hcl Hv] & Hin & K1).
  rewrite (thread_step_tb _ _ _ (OpVarSet v true) _ _ Hcode (fun _ => eq_refl)) in Hstep.
  cbn in Hstep. injection Hstep as <- <- <-.
  exists (GRun (SUuid root)).
  eapply calm; try eassumption; same_server.
  split; [reflexivity|]. split; [exact Hh|]. split; [|split; [exact Hin|]].
  - unfold settled. cbn. rewrite Hcl. repeat constructor. cbn.
    apply list_lookup_insert_eq. eapply lookup_lt_Some, Hv.
  - intros _. exact K1.
Qed.

Lemma case_uuid root th' s' hist' :
  gs !! i = Some (GRun (SUuid root)) ->
  code th = inl (stage_code (fst job) tn (SUuid root)) ->
  stage_ok D hash dbs0 (fst job) (shared sys) (migrations sys) (ttb th) (SUuid root) ->
  thread_step pgInit mgr pgDb th (shared sys) (history sys) = Some (th', s', hist') ->
  Next th' s' hist'.
Proof.
  intros Hg Hcode Hok Hstep. cbn in Hok. destruct Hok as (Hh & Hset & Hin & Hf).
  rewrite (thread_step_tb _ _ _ OpUuid _ _ Hcode (fun _ => eq_refl)) in Hstep.
  cbn in Hstep. injection Hstep as <- <- <-.
  exists (GRun (SClone root (uuids (ttb th) (drawn (ttb th))))).
  eapply calm; try eassumption; same_server.
Qed.

Lemma case_clone root u th' s' hist' :
  gs !! i = Some (GRun (SClone root u)) ->
  code th = inl (stage_code (fst job) tn (SClone root u)) ->
  stage_ok D hash dbs0 (fst job) (shared sys) (migrations sys) (ttb th) (SClone root u) ->
  thread_step pgInit mgr pgDb th (shared sys) (history sys) = Some (th', s', hist') ->
  Next th' s' hist'.
Proof.
  intros Hg Hcode Hok Hstep. cbn in Hok. destruct Hok as (Hh & Hset & Hin & Hf).
  rewrite (thread_step_st _ _ _ (OpCreateFromTemplate root tn (instance_name u)) _
             (pgInitializer.CreateFromTemplate root tn (instance_name u))
             Hcode (fun _ => eq_refl)) in Hstep.
  pose proof (CreateFromTemplate_effect root tn (instance_name u) (shared sys)) as He.
  destruct (pgInitializer.CreateFromTemplate root tn (instance_name u) (shared sys))
    as [r s1].
  destruct He as (Es & Ea & En & _ & Hd).
  destruct r as [[]|rep|msg|]; [| | |discriminate]; injection Hstep as <- <- <-.
  - destruct Hd as [Hd Hv]. exists (GRun (SUnlock root (instance_name u))).
    eapply calm; try eassumption; same_server.
    + split; [reflexivity|]. split; [now apply holds_same|]. rewrite Hd.
      repeat split; auto using instance_name_prefix. set_solver.
    + rewrite Hd. set_solver.
  - eapply halt_stuck; try eassumption; try reflexivity; try lia.
    + now apply settled_safe.
    + intros _. exact Hset.
    + now rewrite Hd.
  - eapply halt_stuck; try eassumption; try reflexivity; try lia.
    + now apply settled_safe.
    + intros _. exact Hset.
    + now rewrite Hd.
Qed.

Lemma case_unlock root n th' s' hist' :
  gs !! i = Some (GRun (SUnlock root n)) ->
  code th = inl (stage_code (fst job) tn (SUnlock root n)) ->
  stage_ok D hash dbs0 (fst job) (shared sys) (migrations sys) (ttb th) (SUnlock root n) ->
  thread_step pgInit mgr pgDb th (shared sys) (history sys) = Some (th', s', hist') ->
  Next th' s' hist'.
Proof.
  intros Hg Hcode Hok Hstep. cbn in Hok. destruct Hok as (Hh & Hset & Hin & Hf & Hn).
  destruct Hh as [Hlk Hcon].
  rewrite (thread_step_st _ _ _ (OpUnlock root tn) _ (pgInitializer.Unlock root tn)
             Hcode (fun _ => eq_refl)) in Hstep.
  rewrite Unlock_unfold, Hcon in Hstep. fold (key_of hash) in Hstep.
  rewrite Hlk, bool_decide_eq_true_2 in Hstep by reflexivity.
  injection Hstep as <- <- <-. exists (GRun (SInstanceDsn n)).
  eapply (update D hash dbs0 jobs sys gs HI); try eassumption; same_server.
  - destruct (inv_server _ _ _ _ _ _ HI) as [H1 H2 H3].
    constructor; unfold live in *; cbn; try assumption.
    intros k holder c [_ E]%lookup_delete_Some. eapply H2, E.
  - pose proof (inv_once _ _ _ _ _ _ HI). lia.
  - right. eapply (mutex D hash dbs0 jobs sys gs HI); [exact Hg|reflexivity].
  - intros holder c. rewrite lookup_delete_eq. discriminate.
  - intros Habs K0. specialize (Hf Habs). lia.
  - now apply warm_kept.
Qed.

Lemma case_instance_dsn n th' s' hist' :
  gs !! i = Some (GRun (SInstanceDsn n)) ->
  code th = inl (stage_code (fst job) tn (SInstanceDsn n)) ->
  stage_ok D hash dbs0 (fst job) (shared sys) (migrations sys) (ttb th) (SInstanceDsn n) ->
  thread_step pgInit mgr pgDb th (shared sys) (history sys) = Some (th', s', hist') ->
  Next th' s' hist'.
Proof.
  intros Hg Hcode Hok Hstep. cbn in Hok. destruct Hok as (Hset & Hf & Hn).
  rewrite (thread_step_st _ _ _ (OpNewDsn (fst job) n) _ (lift (NewDsn (fst job) n))
             Hcode (fun _ => eq_refl)) in Hstep.
  unfold lift in Hstep.
  destruct (NewDsn (fst job) n) as [out|rep|msg|] eqn:Hout; cbn in Hstep;
    [| | |discriminate]; injection Hstep as <- <- <-.
  - exists (GRun (SNewDb n out)).
    eapply calm; try eassumption; same_server.
  - eapply halt_free; try eassumption; try reflexivity.
  - eapply halt_free; try eassumption; try reflexivity.
Qed.

Lemma case_new_db n out th' s' hist' :
  gs !! i = Some (GRun (SNewDb n out)) ->
  code th = inl (stage_code (fst job) tn (SNewDb n out)) ->
  stage_ok D hash dbs0 (fst job) (shared sys) (migrations sys) (ttb th) (SNewDb n out) ->
  thread_step pgInit mgr pgDb th (shared sys) (history sys) = Some (th', s', hist') ->
  Next th' s' hist'.
Proof.
  intros Hg Hcode Hok Hstep. cbn in Hok. destruct Hok as (Hset & Hf & [Hv Hp] & Hout).
  rewrite (thread_step_st _ _ _ (OpNewDb (fst job) out) _
             (pgInitializer.NewDb (fst job) out) Hcode (fun _ => eq_refl)) in Hstep.
  unfold pgInitializer.NewDb in Hstep.
  rewrite (proj2 Hadm n out Hv Hout) in Hstep. cbn in Hstep.
  injection Hstep as <- <- <-.
  exists (GRun (SRegisterDrop (mkPgDb n out (fst job) ∅))).
  eapply calm; try eassumption; same_server.
  split; [reflexivity|]. repeat split; auto.
Qed.

Lemma case_register_drop db th' s' hist' :
  gs !! i = Some (GRun (SRegisterDrop db)) ->
  code th = inl (stage_code (fst job) tn (SRegisterDrop db)) ->
  stage_ok D hash dbs0 (fst job) (shared sys) (migrations sys) (ttb th) (SRegisterDrop db) ->
  thread_step pgInit mgr pgDb th (shared sys) (history sys) = Some (th', s', hist') ->
  Next th' s' hist'.
Proof.
  intros Hg Hcode Hok Hstep. cbn in Hok. destruct Hok as (Hset & Hf & Hdb).
  rewrite (thread_step_tb _ _ _ (OpCleanup (DropDb db)) _ _ Hcode (fun _ => eq_refl))
    in Hstep.
  cbn in Hstep. injection Hstep as <- <- <-.
  exists (GRun (SReturn db)).
  eapply calm; try eassumption; same_server.
  split; [reflexivity|]. split; [|assumption].
  unfold settled. cbn. constructor; assumption.
Qed.

Lemma case_return db th' s' hist' :
  gs !! i = Some (GRun (SReturn db)) ->
  code th = inl (stage_code (fst job) tn (SReturn db)) ->
  stage_ok D hash dbs0 (fst job) (shared sys) (migrations sys) (ttb th) (SReturn db) ->
  thread_step pgInit mgr pgDb th (shared sys) (history sys) = Some (th', s', hist') ->
  Next th' s' hist'.
Proof.
  intros Hg Hcode Hok Hstep. cbn in Hok. destruct Hok as (Hset & Hf).
  unfold thread_step in Hstep. rewrite Hcode in Hstep. cbn in Hstep.
  injection Hstep as <- <- <-.
  exists GFree.
  eapply calm; try eassumption; same_server.
  split; [|assumption]. eexists. split; [reflexivity|]. intros _. exact Hf.
Qed.

(** The cleanups. *)
Lemma case_free th' s' hist' :
  gs !! i = Some GFree ->
  ghost_ok D hash dbs0 (fst job) (shared sys) (migrations sys) th GFree ->
  thread_step pgInit mgr pgDb th (shared sys) (history sys) = Some (th', s', hist') ->
  Next th' s' hist'.
Proof.
  intros Hg [(r & Hcode & Hr) Hset] Hstep.
  destruct (thread_step_done _ _ _ _ _ _ _ Hcode Hstep)
    as (f & fs & r' & w' & Hcl & Hrun & Hnb & -> & -> & ->).
  unfold settled in Hset. rewrite Hcl in Hset.
  apply Forall_cons in Hset. destruct Hset as [Hf Hfs].
  destruct (closure_effect (fst job) f _ _ _ _ _ Hadm (inv_server _ _ _ _ _ _ HI)
              (closure_ok_safe _ _ _ Hf) Hrun Hnb)
    as (Etb & Ek & Es & Ea & En & Hsub & Hkeep).
  exists GFree.
  eapply calm; try eassumption; try reflexivity; try tauto.
  - cbn. rewrite Ek, Etb. split; [exists r; split; [reflexivity|exact Hr]|].
    exact Hfs.
  - split; [now apply Hkeep|]. intros H. now apply Hsub.
Qed.

Lemma case_stuck root th' s' hist' :
  gs !! i = Some (GStuck root) ->
  ghost_ok D hash dbs0 (fst job) (shared sys) (migrations sys) th (GStuck root) ->
  thread_step pgInit mgr pgDb th (shared sys) (history sys) = Some (th', s', hist') ->
  Next th' s' hist'.
Proof.
  intros Hg ((r & Hcode & Hr) & Hh & Hset & Hw) Hstep.
  destruct (thread_step_done _ _ _ _ _ _ _ Hcode Hstep)
    as (f & fs & r' & w' & Hcl & Hrun & Hnb & -> & -> & ->).
  rewrite Hcl in Hset. unfold settled in Hw. rewrite Hcl in Hw.
  apply Forall_cons in Hset. destruct Hset as [Hf Hfs].
  destruct (closure_effect (fst job) f _ _ _ _ _ Hadm (inv_server _ _ _ _ _ _ HI) Hf Hrun Hnb)
    as (Etb & Ek & Es & Ea & En & Hsub & Hkeep).
  exists (GStuck root).
  eapply (update D hash dbs0 jobs sys gs HI); try eassumption.
  - cbn. rewrite Etb. split; [exists r; split; [reflexivity|exact Hr]|].
    split; [now apply holds_same|]. split; [exact Hfs|].
    intros Hin. unfold settled. cbn. specialize (Hw Hin).
    now apply Forall_cons in Hw as [_ Hw].
  - apply (server_ok_same (shared sys)); try assumption. apply (inv_server _ _ _ _ _ _ HI).
  - unfold connected. now rewrite Es.
  - rewrite Ek. pose proof (inv_once _ _ _ _ _ _ HI). lia.
  - right. eapply (mutex D hash dbs0 jobs sys gs HI); [exact Hg|reflexivity].
  - right. left. reflexivity.
  - rewrite Ea. intros holder c E.
    eapply (others_stay gs i _ (fun x => in_cr x = Some holder)).
    + eapply (inv_lock _ _ _ _ _ _ HI), E.
    + intros g0 Hg0. rewrite Hg in Hg0. injection Hg0 as <-. auto.
  - intros _. right. eapply here; [exact Hg|reflexivity].
  - intros _ _ _. eapply here; [exact Hg|reflexivity].
  - intros Hin. destruct (inv_warm _ _ _ _ _ _ HI Hin) as [H1 H2].
    specialize (Hw Hin). apply Forall_cons in Hw as [Hok _].
    split; [now apply Hkeep|]. rewrite Ek. exact H2.
Qed.

(** Every step of test [i] keeps the invariant. *)
Lemma thread_step_keeps_Inv th' s' hist' :
  thread_step pgInit mgr pgDb th (shared sys) (history sys) = Some (th', s', hist') ->
  Next th' s' hist'.
Proof.
  intros Hstep.
  destruct (inv_thread D hash dbs0 jobs sys gs HI i th Hth) as (job' & g & Hjob' & Hg & Hok).
  rewrite Hjob in Hjob'. injection Hjob' as <-.
  destruct g as [stage| |root].
  - destruct Hok as [Hcode Hok].
    destruct stage;
      eauto using case_connect, case_hash, case_lock, case_exists, case_create,
        case_var_new, case_register, case_template_dsn, case_migrate, case_mark_done,
        case_uuid, case_clone, case_unlock, case_instance_dsn, case_new_db,
        case_register_drop, case_return.
  - eauto using case_free.
  - eauto using case_stuck.
Qed.

End Cases.

Lemma sys_step_keeps_Inv sys gs i sys' :
  Forall (fun job => admin_dsn (fst job) /\ Pgx.ParseConfig_Database (fst job) = inr D)
         jobs ->
  Inv D hash dbs0 jobs sys gs ->
  sys_step pgInit mgr pgDb i sys = Some sys' ->
  exists gs', Inv D hash dbs0 jobs sys' gs'.
Proof.
  intros Hjobs HI Hstep. unfold sys_step in Hstep.
  destruct (threads sys !! i) as [th|] eqn:Hth; [|discriminate].
  destruct (thread_step pgInit mgr pgDb th (shared sys) (history sys))
    as [[[th' s'] hist']|] eqn:Hts; [|discriminate].
  injection Hstep as <-.
  destruct (inv_thread D hash dbs0 jobs sys gs HI i th Hth) as (job & g & Hjob & _ & _).
  rewrite Forall_lookup in Hjobs. destruct (Hjobs i job Hjob) as [Hadm HD].
  destruct (thread_step_keeps_Inv sys gs HI i job th Hjob Hth Hadm HD _ _ _ Hts)
    as [g' H'].
  eauto.
Qed.

End Steps.

(** *** From the start *)

Section FromTheStart.

Variable D : string.
Variable hash : string.
Variable migrate : string -> res unit.
Variable dbs : gset string.
Variable jobs : list (string * (nat -> string)).

Abbreviation mgr := (migrator_of hash migrate).

Lemma Inv_start :
  Inv D hash dbs jobs (start jobs (fresh_server dbs)) (map (fun _ => GRun SConnect) jobs).
Proof.
  constructor; cbn.
  - now rewrite length_map.
  - now rewrite length_map.
  - intros i job th g Hjob Hth Hg.
    rewrite list_lookup_fmap, Hjob in Hth. injection Hth as <-.
    rewrite list_lookup_fmap, Hjob in Hg. injection Hg as <-.
    cbn. split; reflexivity.
  - constructor; unfold live; cbn.
    + intros pid db. rewrite lookup_empty. discriminate.
    + intros k holder c. rewrite lookup_empty. discriminate.
    + intros pid [x Hx]. rewrite lookup_empty in Hx. discriminate.
  - intros i j gi gj r Hi _ Hr.
    rewrite list_lookup_fmap in Hi. destruct (jobs !! i); [|discriminate].
    injection Hi as <-. discriminate.
  - intros holder c. rewrite lookup_empty. discriminate.
  - lia.
  - discriminate.
  - tauto.
  - tauto.
Qed.

Lemma reachable_Inv sys :
  Forall (fun job => admin_dsn (fst job) /\ Pgx.ParseConfig_Database (fst job) = inr D)
         jobs ->
  reachable pgInit mgr pgDb (start jobs (fresh_server dbs)) sys ->
  exists gs, Inv D hash dbs jobs sys gs.
Proof.
  intros Hjobs Hr. induction Hr as [|sys i sys' _ [gs HI] Hstep].
  - eexists. apply Inv_start.
  - eapply sys_step_keeps_Inv; eassumption.
Qed.

End FromTheStart.

Lemma run_schedule_reachable {Conn Db St} (h : Initializer Conn Db St) m (d : DbMethods Db St)
    schedule sys0 sys :
  reachable h m d sys0 sys -> reachable h m d sys0 (run_schedule h m d schedule sys).
Proof.
  revert sys. induction schedule as [|i rest IH]; intros sys Hr; [exact Hr|].
  cbn. destruct (sys_step h m d i sys) as [sys'|] eqn:E.
  - apply IH. eapply reach_step; eassumption.
  - apply IH, Hr.
Qed.

(** *** The DSN of the README *)

Lemma name_byte_in_path c :
  Bytes.in_class Regexp.pgDbNameClass c = true ->
  Bytes.in_class Pgx.path_bytes c = true /\ Ascii.eqb c "/" = false.
Proof.
  destruct c as [[] [] [] [] [] [] [] []]; vm_compute; intros [=]; split; reflexivity.
Qed.

Lemma name_in_path n :
  Bytes.all_in Regexp.pgDbNameClass n = true -> Bytes.all_in Pgx.path_bytes n = true.
Proof.
  induction n as [|c n IH]; [reflexivity|]. cbn [Bytes.all_in].
  intros [Hc Hn]%andb_true_iff. rewrite (IH Hn).
  now rewrite (proj1 (name_byte_in_path c Hc)).
Qed.

Lemma trim_left_name n :
  Bytes.all_in Regexp.pgDbNameClass n = true -> Pgx.trim_left "/" n = n.
Proof.
  destruct n as [|c n]; [reflexivity|]. cbn [Bytes.all_in Pgx.trim_left].
  intros [Hc _]%andb_true_iff. now rewrite (proj2 (name_byte_in_path c Hc)).
Qed.

(** The database of a URL that ends in a verified name and a query. *)
Lemma url_database_name host n post :
  Bytes.all_in Pgx.authority_bytes host = true ->
  Bytes.all_in Regexp.pgDbNameClass n = true ->
  Pgx.url_database (host +:+ String "/" (n +:+ String "?" post)) = n.
Proof.
  intros Hh Hn. unfold Pgx.url_database.
  rewrite StringFacts.span_stop by (assumption || reflexivity).
  cbn [Bytes.span]. change (Bytes.in_class Pgx.path_bytes "/") with true. cbn iota.
  rewrite StringFacts.span_stop by (reflexivity || now apply name_in_path).
  cbn [Pgx.trim_left]. change (Ascii.eqb "/" "/") with true. cbn iota.
  now apply trim_left_name.
Qed.

Lemma readme_dsn_admin : admin_dsn readme_dsn.
Proof.
  split.
  - intros D H. vm_compute in H. injection H as <-. reflexivity.
  - intros n out Hv Hout.
    pose proof (StringFacts.verified_no_dollar n Hv) as Hd.
    assert (Hn : Bytes.all_in Regexp.pgDbNameClass n = true).
    { unfold verifyPgDbName, Regexp.pgDbNameRegex_MatchString in Hv.
      destruct (negb (Bytes.is_empty n) && Bytes.all_in Regexp.pgDbNameClass n) eqn:E;
        [|discriminate].
      now apply andb_true_iff in E as [_ E]. }
    change readme_dsn
      with ("postgresql://db" +:+ "/" +:+ "test_db" +:+ "?"
            +:+ "user=testuser&password=testpassword") in Hout.
    rewrite StringFacts.NewDsn_rewrite in Hout by (try discriminate; try reflexivity; assumption).
    injection Hout as <-.
    change (Pgx.ParseConfig_Database _)
      with (@inr error string
              (Pgx.url_database
                 ("db" +:+ String "/"
                    (n +:+ String "?" "user=testuser&password=testpassword")))).
    f_equal. now apply url_database_name.
Qed.

(** *** Migrations under the lock *)


Lemma two_tests_on_one_database :
  Forall (fun job => admin_dsn (fst job)
                     /\ Pgx.ParseConfig_Database (fst job) = inr "test_db") two_tests.
Proof.
  constructor; [split; [exact readme_dsn_admin|reflexivity]|].
  constructor; [split; [exact readme_dsn_admin|reflexivity]|]. constructor.
Qed.


(** * Sequential runs and the backend, call by call *)

(** ** A build that fails *)

Lemma lower_word_byte c :
  Bytes.in_class lower_word c = true ->
  Bytes.in_class Regexp.pgDbNameClass c = true
  /\ Bytes.in_class [("a", "z"); ("A", "Z"); ("_", "_"); ("0", "9"); ("$", "$")]%char c = true
  /\ Bytes.lower_byte c = c.
Proof.
  destruct c as [[] [] [] [] [] [] [] []]; vm_compute; intros [=]; repeat split.
Qed.

Lemma lower_word_all hash :
  Bytes.all_in lower_word hash = true ->
  Bytes.all_in Regexp.pgDbNameClass hash = true
  /\ Bytes.all_in [("a", "z"); ("A", "Z"); ("_", "_"); ("0", "9"); ("$", "$")]%char hash = true
  /\ Bytes.to_lower hash = hash.
Proof.
  induction hash as [|c hash IH]; [repeat split|]. cbn [Bytes.all_in Bytes.to_lower].
  intros [Hc Hh]%andb_true_iff.
  destruct (lower_word_byte c Hc) as (-> & -> & ->).
  destruct (IH Hh) as (-> & -> & ->). repeat split.
Qed.

Lemma to_lower_app s t : Bytes.to_lower (s +:+ t) = Bytes.to_lower s +:+ Bytes.to_lower t.
Proof.
  induction s as [|c s IH]; [reflexivity|].
  change (String c s +:+ t) with (String c (s +:+ t)). cbn [Bytes.to_lower].
  now rewrite IH.
Qed.

(** The template of a fingerprint in lower case passes the check, can be
    written without quotes, and is its own lower-casing. *)
Lemma lower_template hash :
  Bytes.all_in lower_word hash = true ->
  Regexp.pgDbNameRegex_MatchString (template_of hash) = true
  /\ Engine.plain_identifier (template_of hash) = true
  /\ Bytes.to_lower (template_of hash) = template_of hash.
Proof.
  intros H. destruct (lower_word_all hash H) as (H1 & H2 & H3). unfold template_of.
  split; [|split].
  - unfold Regexp.pgDbNameRegex_MatchString.
    rewrite StringFacts.all_in_app, H1. reflexivity.
  - change ("test_template_" +:+ hash) with (String "t" ("est_template_" +:+ hash)).
    cbn [Engine.plain_identifier]. rewrite StringFacts.all_in_app, H2. reflexivity.
  - rewrite to_lower_app, H3. reflexivity.
Qed.

(** A server without sessions is in order. *)
Lemma fresh_server_ok dbs : server_ok (fresh_server dbs).
Proof.
  split; unfold live; cbn.
  - intros pid db H. now rewrite lookup_empty in H.
  - intros key holder c H. now rewrite lookup_empty in H.
  - intros pid [x H]. now rewrite lookup_empty in H.
Qed.

Section FailedBuild.

Variable hash : string.
Variable migrate : string -> res unit.

Abbreviation mg := (migrator_of hash migrate).
Abbreviation tn := (template_of hash).
Abbreviation W := (World nat PgDb Server).

Lemma step_st (o : Op nat PgDb) (f : M Server (Ret o)) (w : W) x s' :
  (forall w, perform pgInit mg pgDb o w = on_st f w) ->
  f (st w) = (Returns x, s') ->
  step pgInit mg pgDb o w = (Returns x, mkWorld (tb w) s' (calls w ++ [o])).
Proof. intros P E. unfold step. rewrite P. unfold on_st. now rewrite E. Qed.

Lemma record_mk p q d se a n j :
  Engine.record p q (mkServer d se a n j) = mkServer d se a n (j ++ [(p, q)]).
Proof. reflexivity. Qed.

Lemma set_databases_mk d' d se a n j :
  Engine.set_databases d' (mkServer d se a n j) = mkServer d' se a n j.
Proof. reflexivity. Qed.

Lemma set_advisory_mk a' d se a n j :
  Engine.set_advisory a' (mkServer d se a n j) = mkServer d se a' n j.
Proof. reflexivity. Qed.

Lemma step_st_halts (o : Op nat PgDb) (f : M Server (Ret o)) (w : W) rep s' :
  (forall w, perform pgInit mg pgDb o w = on_st f w) ->
  f (st w) = (Halts rep, s') ->
  step pgInit mg pgDb o w = (Halts rep, mkWorld (tb w) s' (calls w ++ [o])).
Proof. intros P E. unfold step. rewrite P. unfold on_st. now rewrite E. Qed.

Lemma run_Do_halts {A} (o : Op nat PgDb) (k : Ret o -> Prog nat PgDb A) (w w' : W) rep :
  step pgInit mg pgDb o w = (Halts rep, w') ->
  run pgInit mg pgDb (Do o k) w = (Halts rep, w').
Proof. intros E. cbn [run]. now rewrite E. Qed.

(** [New] up to the failing [Migrate], on a server without the template. *)
Lemma run_New_failing_build dsn (w : W) D out rep :
  Pgx.ParseConfig_Database dsn = inr D ->
  D ∈ databases (st w) ->
  tn ∉ databases (st w) ->
  advisory (st w) !! (D, key_of hash) = None ->
  Regexp.pgDbNameRegex_MatchString tn = true ->
  NewDsn dsn tn = Returns out ->
  migrate out = Halts rep ->
  run pgInit mg pgDb (New dsn) w
  = (Halts rep,
     mkWorld (mkTB (RemoveUnlessDone (length (vars (tb w))) (next_pid (st w)) tn
                      :: cleanups (tb w))
                   (vars (tb w) ++ [false]) (uuids (tb w)) (drawn (tb w)))
             (mkServer ({[tn]} ∪ databases (st w))
                       (<[next_pid (st w) := D]> (sessions (st w)))
                       (<[(D, key_of hash) := (next_pid (st w), 1)]> (advisory (st w)))
                       (S (next_pid (st w)))
                       (journal (st w)
                        ++ [(next_pid (st w), AdvisoryLock (key_of hash));
                            (next_pid (st w), SelectDatabase tn);
                            (next_pid (st w), CreateDatabase tn)]))
             (calls w ++ [OpConnect dsn; OpHash; OpLock (next_pid (st w)) tn;
                          OpExists (next_pid (st w)) tn; OpCreate (next_pid (st w)) tn;
                          OpVarNew false;
                          OpCleanup (RemoveUnlessDone (length (vars (tb w)))
                                       (next_pid (st w)) tn);
                          OpNewDsn dsn tn; OpMigrate out])).
Proof.
  intros HD HDin Hout Hfree Hv Hdsn Hm. destruct w as [t s hist]. cbn [tb st calls] in *.
  destruct s as [dbs sess adv pid jrn]. cbn [databases sessions advisory next_pid journal] in *.
  unfold New.
  erewrite run_Do_goes.
  2:{ apply (step_st (OpConnect dsn) (pgInitializer.Connect dsn)); [reflexivity|].
      cbn [st]. rewrite Connect_unfold, HD.
      cbn [databases sessions advisory next_pid journal].
      rewrite bool_decide_eq_true_2 by assumption. reflexivity. }
  cbn beta. cbn [tb st calls]. erewrite run_Do_goes.
  2:{ apply (step_st OpHash (lift (Returns hash))); reflexivity. }
  cbn beta zeta. cbn [tb st calls]. fold tn. erewrite run_Do_goes.
  2:{ eapply (step_st (OpLock _ _) (pgInitializer.Lock _ _)); [reflexivity|].
      cbn [st]. rewrite Lock_unfold. cbn [sessions advisory]. rewrite lookup_insert_eq.
      fold (key_of hash). rewrite Hfree.
      rewrite set_advisory_mk, record_mk. reflexivity. }
  cbn beta. cbn [tb st calls]. erewrite run_Do_goes.
  2:{ eapply (step_st (OpExists _ _) (pgInitializer.Exists _ _)); [reflexivity|].
      cbn [st]. rewrite Exists_unfold. cbn [sessions databases].
      rewrite lookup_insert_eq, bool_decide_eq_false_2 by assumption.
      rewrite record_mk. reflexivity. }
  cbn beta. cbn [tb st calls negb]. unfold New_build. erewrite run_Do_goes.
  2:{ eapply (step_st (OpCreate _ _) (pgInitializer.Create _ _)); [reflexivity|].
      cbn [st]. rewrite Create_unfold, Hv. cbn [sessions databases].
      rewrite lookup_insert_eq, bool_decide_eq_false_2 by assumption.
      rewrite set_databases_mk, record_mk. reflexivity. }
  cbn beta. cbn [tb st calls]. erewrite run_Do_goes; [|reflexivity].
  cbn beta. cbn [tb st calls cleanups vars uuids drawn].
  erewrite run_Do_goes; [|reflexivity].
  cbn beta. cbn [tb st calls cleanups vars uuids drawn]. erewrite run_Do_goes.
  2:{ eapply (step_st (OpNewDsn _ _) (lift (NewDsn dsn tn))); [reflexivity|].
      unfold lift. now rewrite Hdsn. }
  cbn beta. cbn [tb st calls]. erewrite run_Do_halts.
  2:{ eapply (step_st_halts (OpMigrate _) (lift (migrate out))); [reflexivity|].
      unfold lift. now rewrite Hm. }
  cbn [tb st calls]. rewrite <- !app_assoc. reflexivity.
Qed.



(** The cleanup of a build that did not get to [done = true]. *)
Lemma run_cleanups_removes (t : TB nat PgDb) s hist v root name s2 :
  cleanups t = [RemoveUnlessDone v root name] ->
  vars t !! v = Some false ->
  pgInitializer.Remove root name s = (Returns tt, s2) ->
  run_cleanups pgInit mg pgDb (mkWorld t s hist)
  = mkWorld (mkTB [] (vars t) (uuids t) (drawn t)) s2
            (hist ++ [OpVarGet v; OpRemove root name]).
Proof.
  intros Hcl Hv Hr. unfold run_cleanups. cbn [tb st calls]. rewrite Hcl.
  cbn [run_closures closure_code].
  erewrite run_Do_goes.
  2:{ unfold step. cbn [perform]. unfold on_tb. cbn [tb st calls vars]. rewrite Hv.
      reflexivity. }
  change (negb (default false (Some false))) with true. cbn iota. erewrite run_Do_goes.
  2:{ eapply (step_st (OpRemove _ _) (pgInitializer.Remove _ _)); [reflexivity|].
      cbn [st]. exact Hr. }
  cbn [run tb st calls]. rewrite <- app_assoc. reflexivity.
Qed.


Lemma step_st_blocks (o : Op nat PgDb) (f : M Server (Ret o)) (w : W) s' :
  (forall w, perform pgInit mg pgDb o w = on_st f w) ->
  f (st w) = (Blocks, s') ->
  step pgInit mg pgDb o w = (Blocks, mkWorld (tb w) (st w) (calls w ++ [o])).
Proof. intros P E. unfold step. rewrite P. unfold on_st. now rewrite E. Qed.

Lemma run_Do_blocks {A} (o : Op nat PgDb) (k : Ret o -> Prog nat PgDb A) (w w' : W) :
  step pgInit mg pgDb o w = (Blocks, w') ->
  run pgInit mg pgDb (Do o k) w = (Blocks, w').
Proof. intros E. cbn [run]. now rewrite E. Qed.

(** [New] up to its existence check, when the lock is free. *)
Lemma run_New_prefix dsn t dbs sess adv pid jrn hist D :
  Pgx.ParseConfig_Database dsn = inr D ->
  D ∈ dbs ->
  adv !! (D, key_of hash) = None ->
  run pgInit mg pgDb (New dsn) (mkWorld t (mkServer dbs sess adv pid jrn) hist)
  = run pgInit mg pgDb
      (if negb (bool_decide (tn ∈ dbs))
       then New_build dsn pid tn else New_clone dsn pid tn)
      (mkWorld t
         (mkServer dbs (<[pid := D]> sess) (<[(D, key_of hash) := (pid, 1)]> adv) (S pid)
                   (jrn ++ [(pid, AdvisoryLock (key_of hash)); (pid, SelectDatabase tn)]))
         (hist ++ [OpConnect dsn; OpHash; OpLock pid tn; OpExists pid tn])).
Proof.
  intros HD HDin Hfree. unfold New.
  erewrite run_Do_goes.
  2:{ apply (step_st (OpConnect dsn) (pgInitializer.Connect dsn)); [reflexivity|].
      cbn [st]. rewrite Connect_unfold, HD.
      cbn [databases sessions advisory next_pid journal].
      rewrite bool_decide_eq_true_2 by assumption. reflexivity. }
  cbn beta. cbn [tb st calls]. erewrite run_Do_goes.
  2:{ apply (step_st OpHash (lift (Returns hash))); reflexivity. }
  cbn beta zeta. cbn [tb st calls]. fold tn. erewrite run_Do_goes.
  2:{ eapply (step_st (OpLock _ _) (pgInitializer.Lock _ _)); [reflexivity|].
      cbn [st]. rewrite Lock_unfold. cbn [sessions advisory]. rewrite lookup_insert_eq.
      fold (key_of hash). rewrite Hfree.
      rewrite set_advisory_mk, record_mk. reflexivity. }
  cbn beta. cbn [tb st calls]. erewrite run_Do_goes.
  2:{ eapply (step_st (OpExists _ _) (pgInitializer.Exists _ _)); [reflexivity|].
      cbn [st]. rewrite Exists_unfold. cbn [sessions databases].
      rewrite lookup_insert_eq. rewrite record_mk. reflexivity. }
  cbn beta. cbn [tb st calls]. rewrite <- !app_assoc. reflexivity.
Qed.

(** The build, when [Migrate] returns. *)
Lemma run_New_build_returns dsn t dbs sess adv pid jrn hist D out :
  sess !! pid = Some D ->
  tn ∉ dbs ->
  Regexp.pgDbNameRegex_MatchString tn = true ->
  NewDsn dsn tn = Returns out ->
  migrate out = Returns tt ->
  run pgInit mg pgDb (New_build dsn pid tn) (mkWorld t (mkServer dbs sess adv (S pid) jrn) hist)
  = run pgInit mg pgDb (New_clone dsn pid tn)
      (mkWorld (mkTB (RemoveUnlessDone (length (vars t)) pid tn :: cleanups t)
                     (<[length (vars t) := true]> (vars t ++ [false]))
                     (uuids t) (drawn t))
               (mkServer ({[tn]} ∪ dbs) sess adv (S pid) (jrn ++ [(pid, CreateDatabase tn)]))
               (hist ++ [OpCreate pid tn; OpVarNew false;
                         OpCleanup (RemoveUnlessDone (length (vars t)) pid tn);
                         OpNewDsn dsn tn; OpMigrate out;
                         OpVarSet (length (vars t)) true])).
Proof.
  intros Hroot Hout Hv Hdsn Hm. unfold New_build.
  erewrite run_Do_goes.
  2:{ eapply (step_st (OpCreate _ _) (pgInitializer.Create _ _)); [reflexivity|].
      cbn [st]. rewrite Create_unfold, Hv. cbn [sessions databases].
      rewrite Hroot, bool_decide_eq_false_2 by assumption.
      rewrite set_databases_mk, record_mk. reflexivity. }
  cbn beta. cbn [tb st calls]. erewrite run_Do_goes; [|reflexivity].
  cbn beta. cbn [tb st calls cleanups vars uuids drawn].
  erewrite run_Do_goes; [|reflexivity].
  cbn beta. cbn [tb st calls cleanups vars uuids drawn]. erewrite run_Do_goes.
  2:{ eapply (step_st (OpNewDsn _ _) (lift (NewDsn dsn tn))); [reflexivity|].
      unfold lift. now rewrite Hdsn. }
  cbn beta. cbn [tb st calls]. erewrite run_Do_goes.
  2:{ eapply (step_st (OpMigrate _) (lift (migrate out))); [reflexivity|].
      unfold lift. now rewrite Hm. }
  cbn beta. cbn [tb st calls]. erewrite run_Do_goes; [|reflexivity].
  cbn beta. cbn [tb st calls cleanups vars uuids drawn].
  rewrite <- !app_assoc. reflexivity.
Qed.

(** The clone, when every call returns. *)
Lemma run_New_clone_returns dsn t dbs sess adv pid jrn hist D out n :
  sess !! pid = Some D ->
  adv !! (D, key_of hash) = Some (pid, 1) ->
  tn ∈ dbs ->
  Regexp.pgDbNameRegex_MatchString tn = true ->
  Regexp.pgDbNameRegex_MatchString (instance_name (uuids t (drawn t))) = true ->
  instance_name (uuids t (drawn t)) ∉ dbs ->
  (forall p, p <> pid -> sess !! p <> Some tn) ->
  NewDsn dsn (instance_name (uuids t (drawn t))) = Returns out ->
  Pgx.ParseConfig_Database out = inr n ->
  run pgInit mg pgDb (New_clone dsn pid tn) (mkWorld t (mkServer dbs sess adv (S pid) jrn) hist)
  = (Returns (mkPgDb n out dsn ∅),
     mkWorld (mkTB (DropDb (mkPgDb n out dsn ∅) :: cleanups t) (vars t) (uuids t)
                   (S (drawn t)))
             (mkServer ({[instance_name (uuids t (drawn t))]} ∪ dbs) sess
                       (delete (D, key_of hash) adv)
                       (S pid)
                       (jrn ++ [(pid, CreateDatabaseTemplate
                                        (instance_name (uuids t (drawn t))) tn);
                                (pid, AdvisoryUnlock (key_of hash))]))
             (hist ++ [OpUuid;
                       OpCreateFromTemplate pid tn (instance_name (uuids t (drawn t)));
                       OpUnlock pid tn;
                       OpNewDsn dsn (instance_name (uuids t (drawn t)));
                       OpNewDb dsn out;
                       OpCleanup (DropDb (mkPgDb n out dsn ∅))])).
Proof.
  intros Hroot Hlock Htn Hvt Hv Hfresh Hquiet Hdsn Hn. unfold New_clone.
  erewrite run_Do_goes; [|reflexivity].
  cbn beta zeta. cbn [tb st calls cleanups vars uuids drawn].
  fold (instance_name (uuids t (drawn t))).
  erewrite run_Do_goes.
  2:{ eapply (step_st (OpCreateFromTemplate _ _ _) (pgInitializer.CreateFromTemplate _ _ _));
        [reflexivity|].
      cbn [st]. unfold pgInitializer.CreateFromTemplate.
      rewrite verified_bind, Hv, verified_bind, Hvt.
      unfold must_ok, bind, Engine.exec. cbn [sessions]. rewrite Hroot.
      cbn [Engine.effect databases].
      rewrite (bool_decide_eq_false_2 _ Hfresh), (bool_decide_eq_true_2 _ Htn).
      cbn [negb]. unfold Engine.in_use. cbn [sessions].
      rewrite bool_decide_eq_false_2.
      2:{ intros (p & d & Hp & Hne & ->). exact (Hquiet p Hne Hp). }
      rewrite set_databases_mk, record_mk. reflexivity. }
  cbn beta. cbn [tb st calls]. erewrite run_Do_goes.
  2:{ eapply (step_st (OpUnlock _ _) (pgInitializer.Unlock _ _)); [reflexivity|].
      cbn [st]. rewrite Unlock_unfold. cbn [sessions advisory]. rewrite Hroot.
      fold (key_of hash). rewrite Hlock, bool_decide_eq_true_2 by reflexivity.
      rewrite set_advisory_mk, record_mk. reflexivity. }
  cbn beta. cbn [tb st calls]. erewrite run_Do_goes.
  2:{ eapply (step_st (OpNewDsn _ _) (lift (NewDsn dsn _))); [reflexivity|].
      unfold lift. now rewrite Hdsn. }
  cbn beta. cbn [tb st calls]. erewrite run_Do_goes.
  2:{ eapply (step_st (OpNewDb _ _) (pgInitializer.NewDb _ _)); [reflexivity|].
      unfold pgInitializer.NewDb. rewrite Hn. reflexivity. }
  cbn beta. cbn [tb st calls]. erewrite run_Do_goes; [|reflexivity].
  cbn [run tb st calls cleanups vars uuids drawn].
  rewrite <- !app_assoc. reflexivity.
Qed.


Lemma run_closure_drop (h : PgDb) (w : W) s2 :
  Drop pgDb h (st w) = (Returns tt, s2) ->
  run pgInit mg pgDb (closure_code (DropDb h)) w
  = (Returns tt, mkWorld (tb w) s2 (calls w ++ [OpDrop h])).
Proof.
  intros E. cbn [closure_code]. erewrite run_Do_goes.
  2:{ eapply (step_st (OpDrop _) (Drop pgDb _)); [reflexivity|]. exact E. }
  reflexivity.
Qed.

Lemma run_closure_done v root name (w : W) :
  vars (tb w) !! v = Some true ->
  run pgInit mg pgDb (closure_code (RemoveUnlessDone v root name)) w
  = (Returns tt, mkWorld (tb w) (st w) (calls w ++ [OpVarGet v])).
Proof.
  intros Hv. cbn [closure_code]. erewrite run_Do_goes.
  2:{ unfold step. cbn [perform]. unfold on_tb. rewrite Hv. reflexivity. }
  change (negb (default false (Some true))) with false. cbn iota.
  destruct w; reflexivity.
Qed.

End FailedBuild.

(** [Remove] takes away a database with a plain name in lower case to which
    no other session is connected. *)
Lemma Remove_plain conn name s D :
  Regexp.pgDbNameRegex_MatchString name = true ->
  Engine.plain_identifier name = true ->
  Bytes.to_lower name = name ->
  sessions s !! conn = Some D -> D <> name ->
  name ∈ databases s ->
  (forall pid, pid <> conn -> sessions s !! pid <> Some name) ->
  pgInitializer.Remove conn name s
  = (Returns tt,
     Engine.record conn (DropDatabaseIfExists false name)
       (Engine.set_databases (databases s ∖ {[name]}) s)).
Proof.
  intros Hv Hp Hl Hc HD Hin Hfree.
  unfold pgInitializer.Remove. rewrite verified_bind, Hv.
  unfold must_ok, bind, Engine.exec. rewrite Hc. cbn [Engine.effect]. rewrite Hp, Hl.
  unfold Engine.drop_database.
  rewrite bool_decide_eq_true_2 by assumption.
  rewrite bool_decide_eq_false_2 by (rewrite Hc; congruence).
  unfold Engine.in_use. rewrite bool_decide_eq_false_2; [reflexivity|].
  intros (pid & d & Hpid & Hne & ->). exact (Hfree pid Hne Hpid).
Qed.

(** *** Teardown of an instance nobody else uses *)

Lemma Drop_statements_quiet root n dbs sess adv pid jrn D :
  sess !! root = Some D -> D <> n ->
  Regexp.pgDbNameRegex_MatchString n = true ->
  (forall q d, sess !! q = Some d -> d <> n) ->
  (forall key holder c, adv !! key = Some (holder, c) -> is_Some (sess !! holder)) ->
  Drop_statements root n (mkServer dbs sess adv pid jrn)
  = (Returns tt,
     mkServer (dbs ∖ {[n]}) sess adv pid
              (jrn ++ [(root, TerminateBackends n); (root, DropDatabaseIfExists true n)])).
Proof.
  intros Hroot HD Hv Hquiet Hhold. unfold Drop_statements. rewrite verified_bind, Hv.
  assert (Hf : filter (fun kv : nat * string => snd kv <> n) sess = sess).
  { apply map_filter_id. intros q d E. cbn. eapply Hquiet, E. }
  unfold bind at 1. unfold must_ok at 1. unfold bind at 1. unfold Engine.exec at 1.
  cbn [sessions]. rewrite Hroot. cbn [Engine.effect sessions]. rewrite Hf.
  unfold Engine.set_sessions. cbn [sessions advisory databases next_pid journal].
  rewrite (release_dead_id _ _ Hhold).
  rewrite bool_decide_eq_false_2 by (rewrite Hroot; congruence).
  rewrite record_mk. cbn [lift must]. rewrite verified_bind, Hv.
  unfold must_ok, bind, Engine.exec. cbn [sessions]. rewrite Hroot.
  cbn [Engine.effect]. unfold Engine.drop_database. cbn [databases sessions].
  case_bool_decide as Hin.
  - rewrite bool_decide_eq_false_2 by (rewrite Hroot; congruence).
    unfold Engine.in_use. cbn [sessions]. rewrite bool_decide_eq_false_2.
    2:{ intros (q & d & Hq & _ & ->). exact (Hquiet q n Hq eq_refl). }
    rewrite set_databases_mk, record_mk. cbn [must lift]. rewrite <- app_assoc. reflexivity.
  - rewrite record_mk. cbn [must lift]. rewrite <- app_assoc.
    replace (dbs ∖ {[n]}) with dbs by (apply set_eq; set_solver). reflexivity.
Qed.

Lemma Drop_quiet n out dsn dbs sess adv pid jrn D :
  Pgx.ParseConfig_Database dsn = inr D -> D ∈ dbs -> D <> n ->
  Regexp.pgDbNameRegex_MatchString n = true ->
  sess !! pid = None ->
  (forall q d, sess !! q = Some d -> d <> n) ->
  (forall key holder c, adv !! key = Some (holder, c) -> is_Some (sess !! holder)) ->
  PgDb_Drop (mkPgDb n out dsn ∅) (mkServer dbs sess adv pid jrn)
  = (Returns (tt, mkPgDb n out dsn ∅),
     mkServer (dbs ∖ {[n]}) sess adv (S pid)
              (jrn ++ [(pid, TerminateBackends n); (pid, DropDatabaseIfExists true n)])).
Proof.
  intros HD HDin Hne Hv Hfresh Hquiet Hhold.
  unfold PgDb_Drop, PgDb_connect. cbn [conns rootDsn name].
  unfold close_conns. rewrite map_fold_empty, lookup_empty.
  unfold Pgx.Connect. rewrite HD. unfold Engine.connect. cbn [databases].
  rewrite bool_decide_eq_true_2 by assumption.
  cbn [next_pid sessions advisory journal].
  rewrite (Drop_statements_quiet _ _ _ _ _ _ _ D).
  - unfold Engine.close, Engine.set_sessions.
    cbn [sessions advisory databases next_pid journal].
    rewrite delete_insert_id by assumption.
    rewrite (release_dead_id _ _ Hhold). reflexivity.
  - apply lookup_insert_eq.
  - exact Hne.
  - exact Hv.
  - intros q d [[_ <-]|[_ E]]%lookup_insert_Some; [exact Hne|eapply Hquiet, E].
  - intros key holder c E. destruct (Hhold _ _ _ E) as [x Hx].
    destruct (decide (pid = holder)) as [<-|Hn]; [congruence|].
    rewrite lookup_insert_ne by assumption. now exists x.
Qed.


(** X1: when [NewPg] finds no template, makes one and [Migrate] fails, for a
    fingerprint of lower-case letters, digits and underscores, the call
    halts with the report of [Migrate], the template is there when it halts,
    and the cleanup, one [Remove], takes it away. *)
Theorem failed_build_removes_the_template (hash : string) (migrate : string -> res unit)
    (dsn : string) (w : World nat PgDb Server) (D out : string) (rep : any) :
  Pgx.ParseConfig_Database dsn = inr D ->
  D ∈ databases (st w) ->
  template_of hash ∉ databases (st w) ->
  advisory (st w) !! (D, key_of hash) = None ->
  (forall pid db, sessions (st w) !! pid = Some db -> db ∈ databases (st w)) ->
  cleanups (tb w) = [] ->
  Bytes.all_in lower_word hash = true ->
  NewDsn dsn (template_of hash) = Returns out ->
  migrate out = Halts rep ->
  let '(r, w1, w2) := NewPg (migrator_of hash migrate) dsn w in
  r = Halts rep
  /\ template_of hash ∈ databases (st w1)
  /\ calls w2 = calls w1 ++ [OpVarGet (length (vars (tb w)));
                             OpRemove (next_pid (st w)) (template_of hash)]
  /\ template_of hash ∉ databases (st w2).
Proof.
  intros HD HDin Hout Hfree Hwf Hcl Hlow Hdsn Hm.
  destruct (lower_template hash Hlow) as (Hv & Hp & Hl).
  unfold NewPg, run_test.
  rewrite (run_New_failing_build hash migrate dsn w D out rep HD HDin Hout Hfree Hv Hdsn Hm).
  erewrite run_cleanups_removes.
  2:{ cbn [cleanups]. rewrite Hcl. reflexivity. }
  2:{ cbn [vars]. now rewrite lookup_app_r, Nat.sub_diag by lia. }
  2:{ apply (Remove_plain _ _ _ D); try assumption; cbn [sessions databases].
      - apply lookup_insert_eq.
      - intros ->. contradiction.
      - set_solver.
      - intros pid Hne E. rewrite lookup_insert_ne in E by congruence.
        apply Hwf in E. contradiction. }
  cbn [st calls databases Engine.record Engine.set_databases].
  split; [reflexivity|]. split; [set_solver|]. split; [reflexivity|]. set_solver.
Qed.

Lemma failed_build_removes_the_template_witness :
  let '(r, w1, w2) := NewPg (migrator_of "abc" migrate_fails) readme_dsn reuse_w0 in
  r = Halts (ErrorHandler_report
               (ErrNew "failed to migrate test DB (exit code: 1): error: migration failed")
               [ASlice []])
  /\ template_of "abc" ∈ databases (st w1)
  /\ calls w2 = calls w1 ++ [OpVarGet (length (vars (tb reuse_w0)));
                             OpRemove (next_pid (st reuse_w0)) (template_of "abc")]
  /\ template_of "abc" ∉ databases (st w2).
Proof.
  apply (failed_build_removes_the_template "abc" migrate_fails readme_dsn reuse_w0 "test_db"
           "postgresql://db/test_template_abc?user=testuser&password=testpassword").
  - reflexivity.
  - apply present_by_decide. vm_compute. reflexivity.
  - apply absent_by_decide. vm_compute. reflexivity.
  - vm_compute. reflexivity.
  - intros pid db H. cbn in H. now rewrite lookup_empty in H.
  - reflexivity.
  - reflexivity.
  - vm_compute. reflexivity.
  - reflexivity.
Defined.


Lemma Drop_pgDb_quiet n out dsn dbs sess adv pid jrn D :
  Pgx.ParseConfig_Database dsn = inr D -> D ∈ dbs -> D <> n ->
  Regexp.pgDbNameRegex_MatchString n = true ->
  sess !! pid = None ->
  (forall q d, sess !! q = Some d -> d <> n) ->
  (forall key holder c, adv !! key = Some (holder, c) -> is_Some (sess !! holder)) ->
  Drop pgDb (mkPgDb n out dsn ∅) (mkServer dbs sess adv pid jrn)
  = (Returns tt,
     mkServer (dbs ∖ {[n]}) sess adv (S pid)
              (jrn ++ [(pid, TerminateBackends n); (pid, DropDatabaseIfExists true n)])).
Proof.
  intros. cbn [Drop pgDb]. unfold bind.
  erewrite Drop_quiet by eassumption. reflexivity.
Qed.

(** A test that passes: [NewPg] returns the handle of a new instance, and
    the cleanups take the instance away and leave the template. *)
Lemma run_test_passing (hash : string) (migrate : string -> res unit)
    (dsn : string) (w : World nat PgDb Server) (D out : string) :
  let inst := instance_name (uuids (tb w) (drawn (tb w))) in
  admin_dsn dsn ->
  Pgx.ParseConfig_Database dsn = inr D ->
  D ∈ databases (st w) ->
  server_ok (st w) ->
  advisory (st w) !! (D, key_of hash) = None ->
  (forall p, sessions (st w) !! p <> Some (template_of hash)) ->
  cleanups (tb w) = [] ->
  Regexp.pgDbNameRegex_MatchString (template_of hash) = true ->
  (template_of hash ∉ databases (st w) ->
   exists tpl, NewDsn dsn (template_of hash) = Returns tpl /\ migrate tpl = Returns tt) ->
  verifyPgDbName inst = Returns inst ->
  inst ∉ databases (st w) ->
  NewDsn dsn inst = Returns out ->
  let '(r, w1, w2) := NewPg (migrator_of hash migrate) dsn w in
  r = Returns (mkPgDb inst out dsn ∅)
  /\ databases (st w1) = {[inst]} ∪ ({[template_of hash]} ∪ databases (st w))
  /\ databases (st w2) = {[template_of hash]} ∪ databases (st w)
  /\ sessions (st w2) = <[next_pid (st w) := D]> (sessions (st w))
  /\ advisory (st w2) = advisory (st w).
Proof.
  intros inst Hadm HD HDin Hok Hfree Hquiet Hcl Hvt Hbuild Hvi Hfresh Hdsn.
  destruct w as [t [dbs sess adv pid jrn] hist].
  cbn [tb st calls databases sessions advisory next_pid journal] in *.
  destruct Hok as [Hadmin Hhold Hpids]. unfold live in *.
  cbn [databases sessions advisory next_pid journal] in *.
  assert (Hvi' : Regexp.pgDbNameRegex_MatchString inst = true).
  { unfold verifyPgDbName in Hvi.
    destruct (Regexp.pgDbNameRegex_MatchString inst); [reflexivity|discriminate]. }
  pose proof (proj2 Hadm inst out Hvi Hdsn) as Hn.
  pose proof (instance_name_prefix (uuids t (drawn t))) as Hpre. fold inst in Hpre.
  assert (Hne : inst <> template_of hash).
  { intros E. rewrite E in Hpre. discriminate. }
  assert (HDi : D <> inst).
  { intros ->. contradiction. }
  assert (Hpid : sess !! pid = None).
  { destruct (sess !! pid) eqn:E; [|reflexivity].
    assert (pid < pid) by (apply Hpids; eauto). lia. }
  assert (HSpid : <[pid := D]> sess !! S pid = None).
  { rewrite lookup_insert_ne by lia.
    destruct (sess !! S pid) eqn:E; [|reflexivity].
    assert (S pid < pid) by (apply Hpids; eauto). lia. }
  assert (Hsess : forall q d, <[pid := D]> sess !! q = Some d -> d <> inst).
  { intros q d [[_ <-]|[_ E]]%lookup_insert_Some; [exact HDi|].
    intros ->. apply Hadmin in E. congruence. }
  assert (Hhold' : forall key holder c, adv !! key = Some (holder, c) ->
                     is_Some (<[pid := D]> sess !! holder)).
  { intros key holder c E. destruct (Hhold _ _ _ E) as [x Hx].
    destruct (decide (pid = holder)) as [<-|Hn']; [congruence|].
    rewrite lookup_insert_ne by assumption. now exists x. }
  assert (Hq' : forall p, p <> pid -> <[pid := D]> sess !! p <> Some (template_of hash)).
  { intros p Hp. rewrite lookup_insert_ne by congruence. apply Hquiet. }
  unfold NewPg, run_test.
  rewrite (run_New_prefix hash migrate dsn t dbs sess adv pid jrn hist D HD HDin Hfree).
  case_bool_decide as Hin; cbn [negb].
  - rewrite (run_New_clone_returns hash migrate dsn _ _ _ _ _ _ _ D out inst
               (lookup_insert_eq _ _ _) (lookup_insert_eq _ _ _) Hin Hvt Hvi' Hfresh Hq'
               Hdsn Hn).
    unfold run_cleanups. cbn [tb st calls cleanups vars uuids drawn]. rewrite Hcl.
    cbn [run_closures]. erewrite run_closure_drop.
    2:{ cbn [st]. rewrite delete_insert_id by assumption.
        apply (Drop_pgDb_quiet _ _ _ _ _ _ _ _ D); try assumption. set_solver. }
    cbn [st databases sessions advisory].
    split; [reflexivity|]. split; [apply set_eq; set_solver|].
    split; [apply set_eq; set_solver|]. split; reflexivity.
  - destruct (Hbuild Hin) as (tpl & Htpl & Hm).
    assert (Htn : template_of hash ∈ {[template_of hash]} ∪ dbs) by set_solver.
    assert (Hfresh' : inst ∉ {[template_of hash]} ∪ dbs) by set_solver.
    rewrite (run_New_build_returns hash migrate dsn _ _ _ _ _ _ _ D tpl
               (lookup_insert_eq _ _ _) Hin Hvt Htpl Hm).
    rewrite (run_New_clone_returns hash migrate dsn
               (mkTB (RemoveUnlessDone (length (vars t)) pid (template_of hash) :: cleanups t)
                     (<[length (vars t) := true]> (vars t ++ [false])) (uuids t) (drawn t))
               _ _ _ _ _ _ D out inst
               (lookup_insert_eq _ _ _) (lookup_insert_eq _ _ _) Htn Hvt Hvi' Hfresh' Hq'
               Hdsn Hn).
    unfold run_cleanups. cbn [tb st calls cleanups vars uuids drawn]. rewrite Hcl.
    cbn [run_closures]. erewrite run_closure_drop.
    2:{ cbn [st]. rewrite delete_insert_id by assumption.
        apply (Drop_pgDb_quiet _ _ _ _ _ _ _ _ D); try assumption. set_solver. }
    erewrite run_closure_done.
    2:{ cbn [tb vars]. apply list_lookup_insert_eq. rewrite length_app. cbn. lia. }
    cbn [st databases sessions advisory].
    split; [reflexivity|]. split; [reflexivity|].
    split; [apply set_eq; set_solver|]. split; reflexivity.
Qed.

(** X2: a test that passes.  On a server whose sessions are administrative
    ones, with the lock of the fingerprint free and nobody connected to the
    template, a call of [NewPg] whose statements all go through returns the
    handle of a new instance; at that point the instance and the template
    exist.  Once the cleanups have run the instance is gone, the template is
    kept, the lock is free again, and the connection that [New] opened is
    still open. *)
Theorem passing_test_keeps_only_the_template (hash : string) (migrate : string -> res unit)
    (dsn : string) (w : World nat PgDb Server) (D out : string) :
  let inst := instance_name (uuids (tb w) (drawn (tb w))) in
  admin_dsn dsn ->
  Pgx.ParseConfig_Database dsn = inr D ->
  D ∈ databases (st w) ->
  server_ok (st w) ->
  advisory (st w) !! (D, key_of hash) = None ->
  (forall p, sessions (st w) !! p <> Some (template_of hash)) ->
  cleanups (tb w) = [] ->
  Regexp.pgDbNameRegex_MatchString (template_of hash) = true ->
  (template_of hash ∉ databases (st w) ->
   exists tpl, NewDsn dsn (template_of hash) = Returns tpl /\ migrate tpl = Returns tt) ->
  verifyPgDbName inst = Returns inst ->
  inst ∉ databases (st w) ->
  NewDsn dsn inst = Returns out ->
  let '(r, w1, w2) := NewPg (migrator_of hash migrate) dsn w in
  r = Returns (mkPgDb inst out dsn ∅)
  /\ databases (st w1) = {[inst]} ∪ ({[template_of hash]} ∪ databases (st w))
  /\ databases (st w2) = {[template_of hash]} ∪ databases (st w)
  /\ sessions (st w2) = <[next_pid (st w) := D]> (sessions (st w))
  /\ advisory (st w2) = advisory (st w).
Proof. exact (run_test_passing hash migrate dsn w D out). Qed.

(** X18: a [migrate] command that cannot be run goes unreported.  With the
    command line migrator, when [NewPg] finds no template and the [migrate]
    command fails to start (an error that is no exit status), nothing is
    reported: the call returns the handle of an instance cloned from the
    template as [Create] left it, and after the cleanups that template is
    still on the server. *)
Theorem migrate_that_cannot_run_goes_unreported (md5out : string)
    (migrate_up : string -> CmdResult) (dsn : string) (w : World nat PgDb Server)
    (D out tpl : string) (e : error) :
  let hash := cliMigrator.TrimSpace md5out in
  let inst := instance_name (uuids (tb w) (drawn (tb w))) in
  admin_dsn dsn ->
  Pgx.ParseConfig_Database dsn = inr D ->
  D ∈ databases (st w) ->
  server_ok (st w) ->
  advisory (st w) !! (D, key_of hash) = None ->
  (forall p, sessions (st w) !! p <> Some (template_of hash)) ->
  cleanups (tb w) = [] ->
  Regexp.pgDbNameRegex_MatchString (template_of hash) = true ->
  template_of hash ∉ databases (st w) ->
  NewDsn dsn (template_of hash) = Returns tpl ->
  migrate_up tpl = CmdError e ->
  verifyPgDbName inst = Returns inst ->
  inst ∉ databases (st w) ->
  NewDsn dsn inst = Returns out ->
  let '(r, w1, w2) := NewPg (Some (CliMigrator (CmdOk md5out) migrate_up)) dsn w in
  r = Returns (mkPgDb inst out dsn ∅)
  /\ databases (st w1) = {[inst]} ∪ ({[template_of hash]} ∪ databases (st w))
  /\ databases (st w2) = {[template_of hash]} ∪ databases (st w).
Proof.
  intros hash inst Hadm HD HDin Hok Hfree Hquiet Hcl Hvt Hcold Htpl Hup Hvi Hfresh Hdsn.
  pose proof (run_test_passing hash (cliMigrator.Migrate migrate_up) dsn w D out
                Hadm HD HDin Hok Hfree Hquiet Hcl Hvt) as H.
  cbv zeta in H. fold inst in H.
  assert (Hm : cliMigrator.Migrate migrate_up tpl = Returns tt).
  { unfold cliMigrator.Migrate. now rewrite Hup. }
  specialize (H (fun _ => ex_intro _ tpl (conj Htpl Hm)) Hvi Hfresh Hdsn).
  change (NewPg (Some (CliMigrator (CmdOk md5out) migrate_up)) dsn w)
    with (NewPg (migrator_of hash (cliMigrator.Migrate migrate_up)) dsn w).
  destruct (NewPg (migrator_of hash (cliMigrator.Migrate migrate_up)) dsn w) as [[r w1] w2].
  destruct H as (H1 & H2 & H3 & _). auto.
Qed.

Lemma migrate_that_cannot_run_goes_unreported_witness :
  let '(r, w1, w2) :=
    NewPg (Some (CliMigrator (CmdOk (String.append "abc" (String "010" EmptyString)))
                   (fun _ => CmdError (ErrNew "exec: migrate: executable file not found"))))
          readme_dsn reuse_w0 in
  r = Returns (mkPgDb (instance_name (uuids (tb reuse_w0) (drawn (tb reuse_w0))))
                 "postgresql://db/test_db_6ba7b8109dad11d180b400c04fd430c0?user=testuser&password=testpassword"
                 readme_dsn ∅)
  /\ databases (st w1)
     = {[instance_name (uuids (tb reuse_w0) (drawn (tb reuse_w0)))]}
       ∪ ({[template_of (cliMigrator.TrimSpace (String.append "abc" (String "010" EmptyString)))]}
          ∪ databases (st reuse_w0))
  /\ databases (st w2)
     = {[template_of (cliMigrator.TrimSpace (String.append "abc" (String "010" EmptyString)))]}
       ∪ databases (st reuse_w0).
Proof.
  apply (migrate_that_cannot_run_goes_unreported
           (String.append "abc" (String "010" EmptyString))
           (fun _ => CmdError (ErrNew "exec: migrate: executable file not found"))
           readme_dsn reuse_w0 "test_db"
           "postgresql://db/test_db_6ba7b8109dad11d180b400c04fd430c0?user=testuser&password=testpassword"
           "postgresql://db/test_template_abc?user=testuser&password=testpassword"
           (ErrNew "exec: migrate: executable file not found")).
  - exact readme_dsn_admin.
  - reflexivity.
  - apply present_by_decide. vm_compute. reflexivity.
  - apply fresh_server_ok.
  - vm_compute. reflexivity.
  - intros p H. cbn in H. now rewrite lookup_empty in H.
  - reflexivity.
  - vm_compute. reflexivity.
  - apply absent_by_decide. vm_compute. reflexivity.
  - vm_compute. reflexivity.
  - reflexivity.
  - vm_compute. reflexivity.
  - apply absent_by_decide. vm_compute. reflexivity.
  - vm_compute. reflexivity.
Defined.

Lemma passing_test_keeps_only_the_template_witness :
  let '(r, w1, w2) := NewPg (migrator_of "abc" migrate_ok) readme_dsn reuse_w0 in
  r = Returns (mkPgDb (instance_name (uuids (tb reuse_w0) (drawn (tb reuse_w0))))
                 "postgresql://db/test_db_6ba7b8109dad11d180b400c04fd430c0?user=testuser&password=testpassword"
                 readme_dsn ∅)
  /\ databases (st w1)
     = {[instance_name (uuids (tb reuse_w0) (drawn (tb reuse_w0)))]}
       ∪ ({[template_of "abc"]} ∪ databases (st reuse_w0))
  /\ databases (st w2) = {[template_of "abc"]} ∪ databases (st reuse_w0)
  /\ sessions (st w2) = <[next_pid (st reuse_w0) := "test_db"]> (sessions (st reuse_w0))
  /\ advisory (st w2) = advisory (st reuse_w0).
Proof.
  apply (passing_test_keeps_only_the_template "abc" migrate_ok readme_dsn reuse_w0 "test_db").
  - exact readme_dsn_admin.
  - reflexivity.
  - apply present_by_decide. vm_compute. reflexivity.
  - apply fresh_server_ok.
  - vm_compute. reflexivity.
  - intros p H. cbn in H. now rewrite lookup_empty in H.
  - reflexivity.
  - vm_compute. reflexivity.
  - intros _. exists "postgresql://db/test_template_abc?user=testuser&password=testpassword".
    split; [vm_compute; reflexivity|reflexivity].
  - vm_compute. reflexivity.
  - apply absent_by_decide. vm_compute. reflexivity.
  - vm_compute. reflexivity.
Defined.


(** X3: a call of [NewPg] that finds the lock of its fingerprint held, in
    the database it connects to, by another session waits at [Lock]: it has opened its connection and made
    three calls, no database, no lock and no cleanup has changed, and no
    cleanup runs while it waits. *)
Theorem New_waits_for_the_lock (hash : string) (migrate : string -> res unit)
    (dsn : string) (w : World nat PgDb Server) (D : string) (holder c : nat) :
  Pgx.ParseConfig_Database dsn = inr D ->
  D ∈ databases (st w) ->
  advisory (st w) !! (D, key_of hash) = Some (holder, c) ->
  holder <> next_pid (st w) ->
  let '(r, w1, w2) := NewPg (migrator_of hash migrate) dsn w in
  r = Blocks
  /\ w2 = w1
  /\ calls w1 = calls w ++ [OpConnect dsn; OpHash; OpLock (next_pid (st w)) (template_of hash)]
  /\ databases (st w1) = databases (st w)
  /\ advisory (st w1) = advisory (st w)
  /\ sessions (st w1) = <[next_pid (st w) := D]> (sessions (st w))
  /\ tb w1 = tb w.
Proof.
  intros HD HDin Hheld Hne. destruct w as [t [dbs sess adv pid jrn] hist].
  cbn [tb st calls databases sessions advisory next_pid journal] in *.
  unfold NewPg, run_test, New.
  erewrite run_Do_goes.
  2:{ apply (step_st hash migrate (OpConnect dsn) (pgInitializer.Connect dsn)); [reflexivity|].
      cbn [st]. rewrite Connect_unfold, HD.
      cbn [databases sessions advisory next_pid journal].
      rewrite bool_decide_eq_true_2 by assumption. reflexivity. }
  cbn beta. cbn [tb st calls]. erewrite run_Do_goes.
  2:{ apply (step_st hash migrate OpHash (lift (Returns hash))); reflexivity. }
  cbn beta zeta. cbn [tb st calls]. fold (template_of hash). erewrite run_Do_blocks.
  2:{ eapply (step_st_blocks hash migrate (OpLock _ _) (pgInitializer.Lock _ _)); [reflexivity|].
      cbn [st]. rewrite Lock_unfold. cbn [sessions advisory]. rewrite lookup_insert_eq.
      fold (key_of hash). rewrite Hheld.
      rewrite bool_decide_eq_false_2 by assumption. reflexivity. }
  cbn [tb st calls databases sessions advisory].
  repeat split. now rewrite <- !app_assoc.
Qed.

Lemma New_waits_for_the_lock_witness :
  let '(r, w1, w2) := NewPg (migrator_of "abc" migrate_ok) readme_dsn locked_world in
  r = Blocks
  /\ w2 = w1
  /\ calls w1 = calls locked_world
                ++ [OpConnect readme_dsn; OpHash;
                    OpLock (next_pid (st locked_world)) (template_of "abc")]
  /\ databases (st w1) = databases (st locked_world)
  /\ advisory (st w1) = advisory (st locked_world)
  /\ sessions (st w1) = <[next_pid (st locked_world) := "test_db"]> (sessions (st locked_world))
  /\ tb w1 = tb locked_world.
Proof.
  apply (New_waits_for_the_lock "abc" migrate_ok readme_dsn locked_world "test_db" 0 1).
  - reflexivity.
  - apply present_by_decide. vm_compute. reflexivity.
  - vm_compute. reflexivity.
  - cbn. lia.
Defined.

(** X4: when [Remove] returns, it has sent one statement, the unquoted drop;
    the database that is gone is the one whose name is the lower-cased
    [name]; every other database, every session and every lock is as it
    was. *)
Theorem Remove_drops_the_folded_name (conn : nat) (name : string) (s s' : Server) :
  pgInitializer.Remove conn name s = (Returns tt, s') ->
  databases s' = databases s ∖ {[Bytes.to_lower name]}
  /\ sessions s' = sessions s
  /\ advisory s' = advisory s
  /\ journal s' = journal s ++ [(conn, DropDatabaseIfExists false name)].
Proof.
  unfold pgInitializer.Remove. rewrite verified_bind.
  destruct (Regexp.pgDbNameRegex_MatchString name); [|discriminate].
  unfold must_ok, bind, Engine.exec.
  destruct (sessions s !! conn); [|discriminate]. cbn [Engine.effect].
  destruct (Engine.plain_identifier name); [|discriminate].
  unfold Engine.drop_database.
  case_bool_decide as Hin.
  - case_bool_decide; [discriminate|].
    destruct (Engine.in_use s conn (Bytes.to_lower name)); [discriminate|].
    cbn. intros [= <-]. cbn. repeat split.
  - cbn. intros [= <-]. cbn. repeat split. apply set_eq. set_solver.
Qed.

Lemma Remove_drops_the_folded_name_witness :
  let s' := snd (pgInitializer.Remove 0 "Victim" mixed_case_server) in
  databases s' = databases mixed_case_server ∖ {[Bytes.to_lower "Victim"]}
  /\ sessions s' = sessions mixed_case_server
  /\ advisory s' = advisory mixed_case_server
  /\ journal s' = journal mixed_case_server ++ [(0, DropDatabaseIfExists false "Victim")].
Proof.
  apply (Remove_drops_the_folded_name 0 "Victim" mixed_case_server).
  vm_compute. reflexivity.
Defined.

(** The bytes of the class of [pgDbNameRegex]: the digits, and every byte
    from [A] to [z]. *)
Lemma pgDbNameClass_bytes c :
  Bytes.in_class Regexp.pgDbNameClass c
  = Bytes.in_class [("0", "9"); ("A", "z")]%char c.
Proof. destruct c as [[] [] [] [] [] [] [] []]; reflexivity. Qed.

Lemma pgDbNameClass_all s :
  Bytes.all_in Regexp.pgDbNameClass s = Bytes.all_in [("0", "9"); ("A", "z")]%char s.
Proof.
  induction s as [|c s IH]; [reflexivity|]. cbn [Bytes.all_in].
  now rewrite IH, pgDbNameClass_bytes.
Qed.

(** X5: [verifyPgDbName] returns the name it is given exactly when the name
    is not empty and each of its bytes is a digit or lies between [A] and
    [z]; it halts the test otherwise.  A name that it returns holds neither
    a quote, nor a double quote, nor a semicolon, nor a blank. *)
Theorem verifyPgDbName_accepts (name : string) :
  (verifyPgDbName name
   = if negb (Bytes.is_empty name) && Bytes.all_in [("0", "9"); ("A", "z")]%char name
     then Returns name
     else ErrorHandler
            (ErrNew (name +:+ " as a DB name may be unsafe. letters, numbers and _ only")) [])
  /\ (verifyPgDbName name = Returns name ->
      Bytes.contains "'" name = false /\ Bytes.contains "034" name = false
      /\ Bytes.contains ";" name = false /\ Bytes.contains " " name = false).
Proof.
  assert (E : Regexp.pgDbNameRegex_MatchString name
              = negb (Bytes.is_empty name) && Bytes.all_in [("0", "9"); ("A", "z")]%char name).
  { unfold Regexp.pgDbNameRegex_MatchString. now rewrite pgDbNameClass_all. }
  split.
  - unfold verifyPgDbName. now rewrite E.
  - unfold verifyPgDbName. rewrite E.
    destruct (negb (Bytes.is_empty name) && _) eqn:H; [|discriminate]. intros _.
    apply andb_true_iff in H as [_ H].
    repeat split; apply (StringFacts.all_in_contains [("0", "9"); ("A", "z")]%char);
      (reflexivity || assumption).
Qed.


(** ** The handle: its connections and its teardown *)

Lemma close_conns_inv (c : gmap string nat) (s : Server) :
  databases (close_conns c s) = databases s
  /\ next_pid (close_conns c s) = next_pid s
  /\ journal (close_conns c s) = journal s
  /\ (forall q d, sessions (close_conns c s) !! q = Some d -> sessions s !! q = Some d)
  /\ (forall dsn x, c !! dsn = Some x -> sessions (close_conns c s) !! x = None).
Proof.
  unfold close_conns.
  apply (map_fold_weak_ind
           (fun r (m : gmap string nat) =>
              databases r = databases s /\ next_pid r = next_pid s
              /\ journal r = journal s
              /\ (forall q d, sessions r !! q = Some d -> sessions s !! q = Some d)
              /\ (forall dsn x, m !! dsn = Some x -> sessions r !! x = None))).
  - do 3 (split; [reflexivity|]). split; [auto|].
    intros dsn x. rewrite lookup_empty. discriminate.
  - intros i x m r Hi (Hd & Hn & Hj & Hs & Hc). cbn.
    do 3 (split; [assumption|]). split.
    + intros q d [_ E]%lookup_delete_Some. now apply Hs.
    + intros dsn y [[_ <-]|[_ E]]%lookup_insert_Some.
      * apply lookup_delete_eq.
      * apply lookup_delete_None. right. eapply Hc, E.
Qed.

(** The statements of [Drop], when both return. *)
Lemma Drop_statements_returns root n s s' :
  Drop_statements root n s = (Returns tt, s') ->
  exists D, sessions s !! root = Some D /\ D <> n
    /\ sessions s' = filter (fun kv : nat * string => snd kv <> n) (sessions s)
    /\ databases s' = databases s ∖ {[n]}
    /\ next_pid s' = next_pid s
    /\ journal s' = journal s ++ [(root, TerminateBackends n);
                                  (root, DropDatabaseIfExists true n)].
Proof.
  unfold Drop_statements. rewrite verified_bind.
  destruct (Regexp.pgDbNameRegex_MatchString n) eqn:Hv; [|discriminate].
  unfold bind at 1. unfold must_ok at 1. unfold bind at 1. unfold Engine.exec at 1.
  destruct (sessions s !! root) as [D|] eqn:Hroot; [|discriminate].
  cbn [Engine.effect].
  case_bool_decide as Hopen; [discriminate|].
  assert (HD : D <> n) by congruence.
  cbn [lift must]. rewrite verified_bind, Hv.
  unfold must_ok, bind, Engine.exec, Engine.set_sessions, Engine.record.
  cbn [sessions databases advisory next_pid journal].
  assert (Hkeep : filter (fun kv : nat * string => snd kv <> n) (sessions s) !! root = Some D).
  { apply map_lookup_filter_Some. split; [exact Hroot|exact HD]. }
  rewrite Hkeep. cbn [Engine.effect]. unfold Engine.drop_database.
  cbn [sessions databases advisory next_pid journal].
  case_bool_decide as Hin.
  - case_bool_decide; [discriminate|].
    destruct (Engine.in_use _ _ _); [discriminate|].
    cbn. intros [= <-]. cbn. exists D. repeat split; try assumption.
    now rewrite <- app_assoc.
  - cbn. intros [= <-]. cbn. exists D. repeat split; try assumption.
    + apply set_eq. set_solver.
    + now rewrite <- app_assoc.
Qed.

(** Whatever becomes of the statements of [Drop], no other database is
    touched. *)
Lemma Drop_statements_others root n s x :
  x <> n ->
  (x ∈ databases (snd (Drop_statements root n s)) <-> x ∈ databases s).
Proof.
  intros Hx. unfold Drop_statements. rewrite verified_bind.
  destruct (Regexp.pgDbNameRegex_MatchString n) eqn:Hv; [|reflexivity].
  unfold bind at 1. unfold must_ok at 1. unfold bind at 1. unfold Engine.exec at 1.
  destruct (sessions s !! root) as [D|] eqn:Hroot; [|reflexivity].
  cbn [Engine.effect].
  case_bool_decide as Hopen; [reflexivity|].
  cbn [lift must]. rewrite verified_bind, Hv.
  unfold must_ok, bind, Engine.exec, Engine.set_sessions, Engine.record.
  cbn [sessions databases advisory next_pid journal].
  destruct (filter _ (sessions s) !! root); [|reflexivity].
  cbn [Engine.effect]. unfold Engine.drop_database.
  cbn [sessions databases advisory next_pid journal].
  case_bool_decide as Hin; [|reflexivity].
  case_bool_decide; [reflexivity|].
  destruct (Engine.in_use _ _ _); [reflexivity|].
  cbn. set_solver.
Qed.

(** X6: [Drop] takes no database away but its own, and adds none, whether
    it returns or halts. *)
Theorem Drop_touches_no_other_database (p : PgDb) (s : Server) (x : string) :
  x <> name p ->
  (x ∈ databases (snd (PgDb_Drop p s)) <-> x ∈ databases s).
Proof.
  intros Hx. unfold PgDb_Drop.
  destruct (close_conns_inv (conns p) s) as (Hd & _).
  unfold PgDb_connect.
  destruct (conns p !! rootDsn p) as [existing|].
  - cbn [ret].
    pose proof (Drop_statements_others existing (name p) (close_conns (conns p) s) x Hx) as H.
    destruct (Drop_statements existing (name p) (close_conns (conns p) s)) as [[[]| | |] s2];
      cbn [snd] in *; unfold Engine.close; cbn; rewrite H, Hd; reflexivity.
  - unfold Pgx.Connect.
    destruct (Pgx.ParseConfig_Database (rootDsn p)) as [err|D]; [cbn; now rewrite Hd|].
    unfold Engine.connect. case_bool_decide; [|cbn; now rewrite Hd].
    match goal with |- context [Drop_statements ?r ?n ?s1] =>
      pose proof (Drop_statements_others r n s1 x Hx) as Ho;
      destruct (Drop_statements r n s1) as [[[]| | |] s2] end;
      cbn [snd] in *; unfold Engine.close; cbn in *; rewrite Ho, Hd; reflexivity.
Qed.

Lemma Drop_touches_no_other_database_witness :
  "test_db" ∈ databases (snd (PgDb_Drop sample_handle instance_server))
  <-> "test_db" ∈ databases instance_server.
Proof.
  apply (Drop_touches_no_other_database sample_handle instance_server "test_db").
  discriminate.
Defined.

(** X7: when [Drop] returns, the database of the handle is gone and
    nobody is connected to it, whoever was; the connections of the handle
    are closed and forgotten; and the connection that [Drop] opened for
    itself, the only one it opened, is closed again. *)
Theorem Drop_returns_with_the_database_gone (p p' : PgDb) (s s' : Server) :
  PgDb_Drop p s = (Returns (tt, p'), s') ->
  name p ∉ databases s'
  /\ (forall q, sessions s' !! q <> Some (name p))
  /\ (forall dsn c, conns p !! dsn = Some c -> sessions s' !! c = None)
  /\ conns p' = ∅
  /\ sessions s' !! next_pid s = None
  /\ (forall q d, sessions s' !! q = Some d -> sessions s !! q = Some d).
Proof.
  unfold PgDb_Drop.
  destruct (close_conns_inv (conns p) s) as (Hd & Hn & _ & Hsub & Hclosed).
  unfold PgDb_connect.
  destruct (conns p !! rootDsn p) as [existing|] eqn:Hex.
  - cbn [ret].
    destruct (Drop_statements existing (name p) (close_conns (conns p) s))
      as [[[]| | |] s2] eqn:E; try discriminate.
    apply Drop_statements_returns in E as (D & Hroot & _).
    rewrite (Hclosed _ _ Hex) in Hroot. discriminate.
  - unfold Pgx.Connect.
    destruct (Pgx.ParseConfig_Database (rootDsn p)) as [err|D]; [discriminate|].
    unfold Engine.connect. case_bool_decide; [|discriminate].
    match goal with |- context [Drop_statements ?r ?n ?s1] =>
      destruct (Drop_statements r n s1) as [[[]| | |] s2] eqn:E end; try discriminate.
    apply Drop_statements_returns in E as (D' & Hroot & HD & Hs & Hdb & Hnp & Hj).
    cbn [sessions databases next_pid] in *.
    intros [= <- <-]. unfold Engine.close, Engine.set_sessions.
    cbn [sessions databases]. rewrite Hs, Hdb, Hn.
    repeat split.
    + set_solver.
    + intros q [_ [_ Hq]%map_lookup_filter_Some]%lookup_delete_Some. now apply Hq.
    + intros dsn c Hc. apply lookup_delete_None.
      destruct (decide (next_pid s = c)) as [|Hne]; [now left|right].
      apply map_lookup_filter_None. left.
      rewrite lookup_insert_ne by assumption. eapply Hclosed, Hc.
    + apply lookup_delete_eq.
    + intros q d [Hq [E _]%map_lookup_filter_Some]%lookup_delete_Some.
      rewrite lookup_insert_ne in E by congruence. now apply Hsub.
Qed.

Lemma Drop_returns_with_the_database_gone_witness :
  let s' := snd (PgDb_Drop sample_handle instance_server) in
  name sample_handle ∉ databases s'
  /\ (forall q, sessions s' !! q <> Some (name sample_handle))
  /\ (forall dsn c, conns sample_handle !! dsn = Some c -> sessions s' !! c = None)
  /\ conns sample_handle = ∅
  /\ sessions s' !! next_pid instance_server = None
  /\ (forall q d, sessions s' !! q = Some d -> sessions instance_server !! q = Some d).
Proof.
  apply (Drop_returns_with_the_database_gone sample_handle sample_handle instance_server).
  vm_compute. reflexivity.
Defined.

(** X8: a connection that the handle has for a DSN is the one [connect]
    returns, and nothing changes on the server; and after any [connect]
    that returns, the handle has that connection, so that asking again is
    such a call. *)
Theorem connect_keeps_one_connection_per_dsn (p p' : PgDb) (dsn : string) (c : nat)
    (s s' : Server) :
  PgDb_connect p dsn s = (Returns (c, p'), s') ->
  conns p' !! dsn = Some c
  /\ PgDb_connect p' dsn s' = (Returns (c, p'), s')
  /\ (is_Some (conns p !! dsn) -> conns p !! dsn = Some c /\ p' = p /\ s' = s)
  /\ (conns p !! dsn = None ->
      c = next_pid s
      /\ exists D, Pgx.ParseConfig_Database dsn = inr D /\ D ∈ databases s
                   /\ sessions s' = <[c := D]> (sessions s)).
Proof.
  unfold PgDb_connect at 1.
  destruct (conns p !! dsn) as [existing|] eqn:Hc.
  - cbn. intros [= <- <- <-]. unfold PgDb_connect. rewrite Hc.
    split; [reflexivity|]. split; [reflexivity|]. split; [intros _; repeat split|].
    discriminate.
  - unfold Pgx.Connect.
    destruct (Pgx.ParseConfig_Database dsn) as [err|D]; [discriminate|].
    unfold Engine.connect. case_bool_decide as HD; [|discriminate].
    intros [= <- <- <-]. unfold PgDb_connect. cbn [conns set_conns].
    rewrite lookup_insert_eq. split; [reflexivity|]. split; [reflexivity|].
    split; [intros [x Hx]; discriminate|].
    intros _. split; [reflexivity|]. exists D. repeat split. exact HD.
Qed.

Lemma connect_keeps_one_connection_per_dsn_witness :
  let p' := set_conns {[dsn sample_handle := 0]} sample_handle in
  let s' := snd (PgDb_connect sample_handle (dsn sample_handle) instance_server) in
  conns p' !! dsn sample_handle = Some 0
  /\ PgDb_connect p' (dsn sample_handle) s' = (Returns (0, p'), s')
  /\ (is_Some (conns sample_handle !! dsn sample_handle) ->
      conns sample_handle !! dsn sample_handle = Some 0
      /\ p' = sample_handle /\ s' = instance_server)
  /\ (conns sample_handle !! dsn sample_handle = None ->
      0 = next_pid instance_server
      /\ exists D, Pgx.ParseConfig_Database (dsn sample_handle) = inr D
                   /\ D ∈ databases instance_server
                   /\ sessions s' = <[0 := D]> (sessions instance_server)).
Proof.
  apply (connect_keeps_one_connection_per_dsn sample_handle
           (set_conns {[dsn sample_handle := 0]} sample_handle) (dsn sample_handle) 0
           instance_server).
  vm_compute. reflexivity.
Defined.

(** X9: a name that does not pass [verifyPgDbName] reaches no statement:
    [Create], [CreateFromTemplate] (for its new name as for its template)
    and [Remove] halt and leave the server as it is, and [Drop] on a handle
    of that name does not return, sends nothing and takes no database
    away. *)
Theorem unverified_name_reaches_no_statement (conn : nat) (n other : string)
    (p : PgDb) (s : Server) :
  Regexp.pgDbNameRegex_MatchString n = false ->
  (is_halts (fst (pgInitializer.Create conn n s)) = true
   /\ snd (pgInitializer.Create conn n s) = s)
  /\ (is_halts (fst (pgInitializer.CreateFromTemplate conn other n s)) = true
      /\ snd (pgInitializer.CreateFromTemplate conn other n s) = s)
  /\ (is_halts (fst (pgInitializer.CreateFromTemplate conn n other s)) = true
      /\ snd (pgInitializer.CreateFromTemplate conn n other s) = s)
  /\ (is_halts (fst (pgInitializer.Remove conn n s)) = true
      /\ snd (pgInitializer.Remove conn n s) = s)
  /\ (name p = n ->
      is_returns (fst (PgDb_Drop p s)) = false
      /\ journal (snd (PgDb_Drop p s)) = journal s
      /\ databases (snd (PgDb_Drop p s)) = databases s).
Proof.
  intros Hv. repeat split.
  - unfold pgInitializer.Create. now rewrite verified_bind, Hv.
  - unfold pgInitializer.Create. now rewrite verified_bind, Hv.
  - unfold pgInitializer.CreateFromTemplate. now rewrite verified_bind, Hv.
  - unfold pgInitializer.CreateFromTemplate. now rewrite verified_bind, Hv.
  - unfold pgInitializer.CreateFromTemplate. rewrite verified_bind.
    destruct (Regexp.pgDbNameRegex_MatchString other); [|reflexivity].
    now rewrite verified_bind, Hv.
  - unfold pgInitializer.CreateFromTemplate. rewrite verified_bind.
    destruct (Regexp.pgDbNameRegex_MatchString other); [|reflexivity].
    now rewrite verified_bind, Hv.
  - unfold pgInitializer.Remove. now rewrite verified_bind, Hv.
  - unfold pgInitializer.Remove. now rewrite verified_bind, Hv.
  - unfold PgDb_Drop, PgDb_connect, Drop_statements.
    destruct (conns p !! rootDsn p); cbn [ret].
    + rewrite verified_bind, H, Hv. reflexivity.
    + unfold Pgx.Connect. destruct (Pgx.ParseConfig_Database (rootDsn p)); [reflexivity|].
      unfold Engine.connect. case_bool_decide; [|reflexivity].
      rewrite verified_bind, H, Hv. reflexivity.
  - destruct (close_conns_inv (conns p) s) as (_ & _ & Hj & _).
    unfold PgDb_Drop, PgDb_connect, Drop_statements.
    destruct (conns p !! rootDsn p); cbn [ret].
    + rewrite verified_bind, H, Hv. cbn. exact Hj.
    + unfold Pgx.Connect. destruct (Pgx.ParseConfig_Database (rootDsn p)); [exact Hj|].
      unfold Engine.connect. case_bool_decide; [|exact Hj].
      rewrite verified_bind, H, Hv. cbn. exact Hj.
  - destruct (close_conns_inv (conns p) s) as (Hd & _).
    unfold PgDb_Drop, PgDb_connect, Drop_statements.
    destruct (conns p !! rootDsn p); cbn [ret].
    + rewrite verified_bind, H, Hv. cbn. exact Hd.
    + unfold Pgx.Connect. destruct (Pgx.ParseConfig_Database (rootDsn p)); [exact Hd|].
      unfold Engine.connect. case_bool_decide; [|exact Hd].
      rewrite verified_bind, H, Hv. cbn. exact Hd.
Qed.

Lemma unverified_name_reaches_no_statement_witness :
  (is_halts (fst (pgInitializer.Create 0 "my-db" admin_server)) = true
   /\ snd (pgInitializer.Create 0 "my-db" admin_server) = admin_server)
  /\ (is_halts (fst (pgInitializer.CreateFromTemplate 0 "test_db" "my-db" admin_server)) = true
      /\ snd (pgInitializer.CreateFromTemplate 0 "test_db" "my-db" admin_server) = admin_server)
  /\ (is_halts (fst (pgInitializer.CreateFromTemplate 0 "my-db" "test_db" admin_server)) = true
      /\ snd (pgInitializer.CreateFromTemplate 0 "my-db" "test_db" admin_server) = admin_server)
  /\ (is_halts (fst (pgInitializer.Remove 0 "my-db" admin_server)) = true
      /\ snd (pgInitializer.Remove 0 "my-db" admin_server) = admin_server)
  /\ (name unsafe_handle = "my-db" ->
      is_returns (fst (PgDb_Drop unsafe_handle admin_server)) = false
      /\ journal (snd (PgDb_Drop unsafe_handle admin_server)) = journal admin_server
      /\ databases (snd (PgDb_Drop unsafe_handle admin_server)) = databases admin_server).
Proof.
  apply (unverified_name_reaches_no_statement 0 "my-db" "test_db" unsafe_handle admin_server).
  reflexivity.
Defined.


(** ** One test at a time between [Lock] and [Unlock] *)

Lemma region_ghost D hash dbs0 dsn s k (th : Thread nat PgDb) (g : Ghost nat PgDb) :
  ghost_ok D hash dbs0 dsn s k th g ->
  in_region (template_of hash) (code th) = true ->
  exists r, in_cr g = Some r.
Proof.
  destruct g as [stage| |root]; cbn [ghost_ok].
  - intros [-> Hok]. destruct stage; cbn; try discriminate; eauto.
    intros E%String.eqb_eq. subst testDbName.
    destruct Hok as (_ & _ & [_ Hp]). discriminate.
  - intros [(r & -> & _) _]. discriminate.
  - intros [(r & -> & _) _]. discriminate.
Qed.

(** X10: however tests with one fingerprint that connect to one database
    take their steps, only one of them at a time is between its [Lock] and
    its [Unlock], and while it is, the advisory lock of the template in that
    database is held by a session that is connected to it. *)
Theorem one_test_between_lock_and_unlock (hash : string) (migrate : string -> res unit)
    (D : string) (dbs : gset string) (jobs : list (string * (nat -> string)))
    (sys : System nat PgDb Server) (i j : nat) (ti tj : Thread nat PgDb) :
  Forall (fun job => admin_dsn (fst job) /\ Pgx.ParseConfig_Database (fst job) = inr D)
         jobs ->
  reachable pgInit (migrator_of hash migrate) pgDb (start jobs (fresh_server dbs)) sys ->
  threads sys !! i = Some ti -> threads sys !! j = Some tj -> i <> j ->
  in_region (template_of hash) (code ti) = true ->
  in_region (template_of hash) (code tj) = false
  /\ exists root, advisory (shared sys) !! (D, key_of hash) = Some (root, 1)
                 /\ sessions (shared sys) !! root = Some D.
Proof.
  intros Hjobs Hr Hi Hj Hne Hin.
  destruct (reachable_Inv D hash migrate dbs jobs sys Hjobs Hr) as [gs HI].
  destruct (inv_thread D hash dbs jobs sys gs HI i ti Hi) as (jobi & gi & _ & Hgi & Hoki).
  destruct (inv_thread D hash dbs jobs sys gs HI j tj Hj) as (jobj & gj & _ & Hgj & Hokj).
  destruct (region_ghost _ _ _ _ _ _ _ _ Hoki Hin) as [r Hr'].
  split.
  - destruct (in_region (template_of hash) (code tj)) eqn:E; [exfalso|reflexivity].
    destruct (region_ghost _ _ _ _ _ _ _ _ Hokj E) as [r' Hr''].
    pose proof (mutex D hash dbs jobs sys gs HI i gi r Hgi Hr' j gj (not_eq_sym Hne) Hgj).
    congruence.
  - exists r. exact (in_cr_holds _ _ _ _ _ _ _ _ _ Hoki Hr').
Qed.

Lemma one_test_between_lock_and_unlock_witness :
  in_region (template_of "abc") (code (test_at 1 lock_held_run)) = false
  /\ exists root,
       advisory (shared lock_held_run) !! ("test_db", key_of "abc") = Some (root, 1)
       /\ sessions (shared lock_held_run) !! root = Some "test_db".
Proof.
  apply (one_test_between_lock_and_unlock "abc" migrate_ok "test_db" {["test_db"]} two_tests
           lock_held_run 0 1 (test_at 0 lock_held_run) (test_at 1 lock_held_run)).
  - exact two_tests_on_one_database.
  - apply run_schedule_reachable, reach_start.
  - vm_compute. reflexivity.
  - vm_compute. reflexivity.
  - lia.
  - vm_compute. reflexivity.
Defined.

(** ** The expression of [NewDsn] on a URL *)

Lemma span_rest_contains cls s c r :
  snd (Bytes.span cls s) = String c r -> Bytes.contains c s = true.
Proof.
  induction s as [|a s IH]; cbn [Bytes.span Bytes.contains]; [discriminate|].
  destruct (Bytes.in_class cls a).
  - destruct (Bytes.span cls s) as [w r'] eqn:E. cbn [snd] in *. intros H.
    rewrite (IH H). apply orb_true_r.
  - cbn [snd]. intros [= -> _]. now rewrite Ascii.eqb_refl.
Qed.

(** The expression of [NewDsn] needs a question mark. *)
Lemma no_question_mark_no_match s :
  Bytes.contains "?" s = false -> Regexp.dsn_MatchString s = false.
Proof.
  induction s as [|c s IH]; [reflexivity|]. intros H.
  cbn [Regexp.dsn_MatchString].
  assert (Regexp.match_here (String c s) = None) as ->.
  { destruct (Regexp.match_here (String c s)) as [len|] eqn:E; [exfalso|reflexivity].
    destruct (StringFacts.match_here_slash (String c s)) as [s1 Hs]; [congruence|].
    injection Hs as -> ->. unfold Regexp.match_here in E.
    destruct (Bytes.span Regexp.word s1) as [w r] eqn:Esp.
    destruct w as [|c w]; [discriminate|]. destruct r as [|q r]; [discriminate|].
    destruct (Ascii.eqb_spec q "?") as [->|Hq].
    - pose proof (span_rest_contains Regexp.word s1 "?" r) as Hc.
      rewrite Esp in Hc. specialize (Hc eq_refl).
      cbn [Bytes.contains] in H. rewrite Hc, orb_true_r in H. discriminate.
    - destruct q as [[] [] [] [] [] [] [] []]; try discriminate; congruence. }
  apply IH. cbn [Bytes.contains] in H. now apply orb_false_iff in H as [_ H].
Qed.

Lemma authority_no_question_mark host :
  Bytes.all_in Pgx.authority_bytes host = true -> Bytes.contains "?" host = false.
Proof. apply StringFacts.all_in_contains. reflexivity. Qed.

(** ** Taking the lock and giving it back *)

(** X14: [Unlock] gives back what [Lock] took: after a [Lock] that returned,
    [Unlock] on the same connection and name returns, and the advisory
    locks of the server are what they were before the [Lock]; both use the
    checksum of the name as the key. *)
Theorem Unlock_gives_back_what_Lock_took (conn : nat) (name : string) (s s1 : Server) :
  (forall key holder, advisory s !! key <> Some (holder, 0)) ->
  pgInitializer.Lock conn name s = (Returns tt, s1) ->
  exists s2, pgInitializer.Unlock conn name s1 = (Returns tt, s2)
    /\ advisory s2 = advisory s
    /\ databases s2 = databases s /\ sessions s2 = sessions s
    /\ journal s2 = journal s ++ [(conn, AdvisoryLock (Crc32.ChecksumIEEE name));
                                  (conn, AdvisoryUnlock (Crc32.ChecksumIEEE name))].
Proof.
  intros Hpos. rewrite Lock_unfold.
  destruct (sessions s !! conn) as [D|] eqn:Hc; [|discriminate].
  destruct (advisory s !! (D, Crc32.ChecksumIEEE name)) as [[holder c]|] eqn:Hk.
  - case_bool_decide as Hh; [|discriminate]. subst holder. intros [= <-].
    rewrite Unlock_unfold. cbn [sessions advisory Engine.record Engine.set_advisory].
    rewrite Hc, lookup_insert_eq, bool_decide_eq_true_2 by reflexivity.
    destruct c as [|c]; [destruct (Hpos _ _ Hk)|].
    eexists. split; [reflexivity|]. cbn.
    rewrite insert_insert_eq, insert_id by assumption.
    repeat split. now rewrite <- app_assoc.
  - intros [= <-].
    rewrite Unlock_unfold. cbn [sessions advisory Engine.record Engine.set_advisory].
    rewrite Hc, lookup_insert_eq, bool_decide_eq_true_2 by reflexivity.
    eexists. split; [reflexivity|]. cbn.
    rewrite delete_insert_id by assumption.
    repeat split. now rewrite <- app_assoc.
Qed.

Lemma Unlock_gives_back_what_Lock_took_witness :
  exists s2,
    pgInitializer.Unlock 0 "test_template_abc"
      (snd (pgInitializer.Lock 0 "test_template_abc" admin_server)) = (Returns tt, s2)
    /\ advisory s2 = advisory admin_server
    /\ databases s2 = databases admin_server /\ sessions s2 = sessions admin_server
    /\ journal s2 = journal admin_server
                    ++ [(0, AdvisoryLock (Crc32.ChecksumIEEE "test_template_abc"));
                        (0, AdvisoryUnlock (Crc32.ChecksumIEEE "test_template_abc"))].
Proof.
  apply (Unlock_gives_back_what_Lock_took 0 "test_template_abc" admin_server).
  - intros key holder H. cbn in H. now rewrite lookup_empty in H.
  - vm_compute. reflexivity.
Defined.


(** ** Creating, finding and removing a database *)

(** X15: a database that [Create] made is found by [Exists]: after a
    [Create] that returned, the name was not on the server before, and
    [Exists] on the same connection and name returns true and changes
    nothing but the journal. *)
Theorem Exists_finds_what_Create_made (conn : nat) (name : string) (s s1 : Server) :
  pgInitializer.Create conn name s = (Returns tt, s1) ->
  name ∉ databases s
  /\ exists s2, pgInitializer.Exists conn name s1 = (Returns true, s2)
       /\ databases s2 = {[name]} ∪ databases s
       /\ journal s2 = journal s ++ [(conn, CreateDatabase name); (conn, SelectDatabase name)].
Proof.
  rewrite Create_unfold.
  destruct (Regexp.pgDbNameRegex_MatchString name); [|discriminate].
  destruct (sessions s !! conn) as [D|] eqn:Hc; [|discriminate].
  case_bool_decide as Hin; [discriminate|]. intros [= <-].
  split; [exact Hin|]. rewrite Exists_unfold.
  cbn [sessions databases Engine.record Engine.set_databases]. rewrite Hc.
  eexists. split; [|split].
  - f_equal. f_equal. apply bool_decide_eq_true_2. set_solver.
  - reflexivity.
  - cbn. now rewrite <- app_assoc.
Qed.

Lemma Exists_finds_what_Create_made_witness :
  "test_template_abc" ∉ databases admin_server
  /\ exists s2,
       pgInitializer.Exists 0 "test_template_abc"
         (snd (pgInitializer.Create 0 "test_template_abc" admin_server)) = (Returns true, s2)
       /\ databases s2 = {["test_template_abc"]} ∪ databases admin_server
       /\ journal s2 = journal admin_server
                       ++ [(0, CreateDatabase "test_template_abc");
                           (0, SelectDatabase "test_template_abc")].
Proof.
  apply (Exists_finds_what_Create_made 0 "test_template_abc" admin_server).
  vm_compute. reflexivity.
Defined.

(** X16: [Remove] undoes [Create] for the template of a fingerprint in
    lower case: on a server whose sessions are connected to databases it
    has, after a [Create] of the template that returned, [Remove] on the
    same connection and name returns and the server has the databases,
    sessions and locks it had before the [Create]. *)
Theorem Remove_undoes_Create (conn : nat) (hash : string) (s s1 : Server) :
  Bytes.all_in lower_word hash = true ->
  (forall pid db, sessions s !! pid = Some db -> db ∈ databases s) ->
  pgInitializer.Create conn (template_of hash) s = (Returns tt, s1) ->
  exists s2, pgInitializer.Remove conn (template_of hash) s1 = (Returns tt, s2)
    /\ databases s2 = databases s /\ sessions s2 = sessions s
    /\ advisory s2 = advisory s.
Proof.
  intros Hlow Hwf. rewrite Create_unfold.
  destruct (lower_template hash Hlow) as (Hv & Hplain & Hl). rewrite Hv.
  destruct (sessions s !! conn) as [D|] eqn:Hc; [|discriminate].
  case_bool_decide as Hin; [discriminate|]. intros [= <-].
  erewrite (Remove_plain conn (template_of hash) _ D); try assumption.
  - eexists. split; [reflexivity|]. cbn. repeat split. apply set_eq. set_solver.
  - intros E. apply Hin. rewrite <- E. eapply Hwf. eassumption.
  - cbn. set_solver.
  - cbn. intros pid _ E. apply Hin. eapply Hwf. eassumption.
Qed.

Lemma Remove_undoes_Create_witness :
  exists s2,
    pgInitializer.Remove 0 (template_of "abc")
      (snd (pgInitializer.Create 0 (template_of "abc") admin_server)) = (Returns tt, s2)
    /\ databases s2 = databases admin_server /\ sessions s2 = sessions admin_server
    /\ advisory s2 = advisory admin_server.
Proof.
  apply (Remove_undoes_Create 0 "abc" admin_server).
  - reflexivity.
  - intros pid db H. apply present_by_decide. cbn in H.
    apply lookup_singleton_Some in H as [_ <-]. vm_compute. reflexivity.
  - vm_compute. reflexivity.
Defined.

(** ** The fingerprint of the command line migrator *)

Lemma lower_word_no_space c :
  Bytes.in_class lower_word c = true -> Ascii.is_space c = false.
Proof. destruct c as [[] [] [] [] [] [] [] []]; vm_compute; intros [=]; reflexivity. Qed.

Lemma trim_right_space_line h :
  Bytes.all_in lower_word h = true ->
  cliMigrator.trim_right_space (h +:+ String "010" EmptyString) = h.
Proof.
  induction h as [|c h IH]; [reflexivity|]. cbn [Bytes.all_in].
  intros [Hc Hh]%andb_true_iff.
  change (String c h +:+ String "010" EmptyString)
    with (String c (h +:+ String "010" EmptyString)).
  cbn [cliMigrator.trim_right_space]. rewrite (IH Hh).
  destruct h; [|reflexivity]. now rewrite (lower_word_no_space c Hc).
Qed.

Lemma trim_left_space_word h t :
  Bytes.all_in lower_word h = true ->
  cliMigrator.trim_left_space (h +:+ String "010" t) = h +:+ String "010" t
  \/ h = EmptyString.
Proof.
  destruct h as [|c h]; [now right|]. left. cbn [Bytes.all_in] in H.
  apply andb_true_iff in H as [Hc _].
  change (String c h +:+ String "010" t) with (String c (h +:+ String "010" t)).
  cbn [cliMigrator.trim_left_space]. now rewrite (lower_word_no_space c Hc).
Qed.

(** X17: when the checksum pipeline prints a line of lower-case letters,
    digits and underscores (as [md5sum] and [awk] do), [Hash] returns the
    line without its newline, and the template name made from it passes
    [verifyPgDbName]. *)
Theorem Hash_of_a_checksum_line_names_a_template (h : string) :
  Bytes.all_in lower_word h = true ->
  cliMigrator.Hash (CmdOk (h +:+ String "010" EmptyString)) = Returns h
  /\ verifyPgDbName (template_of h) = Returns (template_of h).
Proof.
  intros Hlow. split.
  - unfold cliMigrator.Hash, cliMigrator.TrimSpace. f_equal.
    destruct (trim_left_space_word h EmptyString Hlow) as [-> | ->]; [|reflexivity].
    now apply trim_right_space_line.
  - destruct (lower_template h Hlow) as (Hv & _). unfold verifyPgDbName. now rewrite Hv.
Qed.

Lemma Hash_of_a_checksum_line_names_a_template_witness :
  cliMigrator.Hash (CmdOk ("d41d8cd98f00b204e9800998ecf8427e" +:+ String "010" EmptyString))
  = Returns "d41d8cd98f00b204e9800998ecf8427e"
  /\ verifyPgDbName (template_of "d41d8cd98f00b204e9800998ecf8427e")
     = Returns (template_of "d41d8cd98f00b204e9800998ecf8427e").
Proof.
  apply (Hash_of_a_checksum_line_names_a_template "d41d8cd98f00b204e9800998ecf8427e").
  reflexivity.
Defined.
(** * The statements of [Insert] *)

Module InsertFacts.
Import PgInsert.

Section Loop.

Context {V : Type}.

Lemma Insert_columns_from (entry : list (string * V)) (acc : Columns) :
  fold_left add_column entry acc
  = mkColumns (args acc ++ map snd entry) (cols acc ++ map fst entry)
              (vals acc ++ map (fun k => "$" +:+ pretty k) (seq (i acc) (length entry)))
              (i acc + length entry).
Proof.
  revert acc. induction entry as [|[n v] entry IH]; intros [a c vs k].
  - cbn. now rewrite !app_nil_r, Nat.add_0_r.
  - cbn [fold_left]. rewrite IH. cbn. rewrite <- !app_assoc. cbn.
    f_equal. lia.
Qed.

Lemma Insert_statement_eq (table : string) (entry : list (string * V)) :
  Insert_statement table entry
  = ("INSERT INTO " +:+ table +:+ "(" +:+ Join (map fst entry) "," +:+ ") VALUES("
       +:+ Join (map (fun k => "$" +:+ pretty k) (seq 1 (length entry))) "," +:+ ")",
     map snd entry).
Proof.
  unfold Insert_statement, Insert_columns. rewrite Insert_columns_from. reflexivity.
Qed.

Variable Exec : list (string * list V) -> string * list V -> option error.

Lemma Insert_entries_spec table (data : list (list (string * V))) sent :
  let '(r, out) := Insert_entries Exec table data sent in
  (is_returns r = true
   /\ out = sent ++ map (Insert_statement table) data
   /\ forall n e, data !! n = Some e ->
        Exec (sent ++ map (Insert_statement table) (take n data)) (Insert_statement table e)
        = None)
  \/ (is_halts r = true
      /\ exists n e, data !! n = Some e
         /\ out = sent ++ map (Insert_statement table) (take (S n) data)
         /\ is_Some (Exec (sent ++ map (Insert_statement table) (take n data))
                          (Insert_statement table e))
         /\ forall m e', m < n -> data !! m = Some e' ->
              Exec (sent ++ map (Insert_statement table) (take m data))
                   (Insert_statement table e') = None).
Proof.
  revert sent. induction data as [|entry rest IH]; intros sent.
  - cbn. left. rewrite app_nil_r. repeat split. intros n e. discriminate.
  - cbn [Insert_entries].
    destruct (Exec sent (Insert_statement table entry)) as [err|] eqn:E;
      cbn [must ErrorHandler].
    + right. split; [reflexivity|]. exists 0, entry. cbn. rewrite app_nil_r.
      repeat split; [rewrite E; eauto|]. intros m e' Hm. lia.
    + specialize (IH (sent ++ [Insert_statement table entry])).
      destruct (Insert_entries Exec table rest (sent ++ [Insert_statement table entry]))
        as [r out].
      destruct IH as [(Hr & Ho & Hall)|(Hh & n & e & Hn & Ho & Hfail & Hall)].
      * left. split; [exact Hr|]. split.
        { rewrite Ho, <- app_assoc. reflexivity. }
        intros [|n] e Hn.
        -- cbn in *. injection Hn as <-. now rewrite app_nil_r.
        -- cbn in *. specialize (Hall n e Hn). now rewrite <- app_assoc in Hall.
      * right. split; [exact Hh|]. exists (S n), e. cbn [lookup list_lookup take map].
        split; [exact Hn|]. split.
        { rewrite Ho, <- app_assoc. reflexivity. }
        split.
        { now rewrite <- app_assoc in Hfail. }
        intros [|m] e' Hm He'.
        -- cbn in *. injection He' as <-. now rewrite app_nil_r.
        -- cbn in *. assert (m < n) as Hm' by lia.
           specialize (Hall m e' Hm' He'). now rewrite <- app_assoc in Hall.
Qed.

End Loop.

End InsertFacts.

(** X11: the inner loop of [Insert] pairs the columns, the placeholders and
    the arguments position by position: for the pairs of the entry in the
    order of the loop, the columns are their names, the arguments their
    values, and the placeholders [$1] to [$n]; the text of the statement
    depends on the table and the names only. *)
Theorem Insert_pairs_columns_and_arguments {V : Type} (table : string)
    (entry : list (string * V)) :
  PgInsert.Insert_statement table entry
  = ("INSERT INTO " +:+ table +:+ "(" +:+ PgInsert.Join (map fst entry) ","
       +:+ ") VALUES("
       +:+ PgInsert.Join (map (fun k => "$" +:+ pretty k) (seq 1 (length entry))) ","
       +:+ ")",
     map snd entry)
  /\ length (snd (PgInsert.Insert_statement table entry)) = length entry
  /\ (forall entry' : list (string * V),
        map fst entry' = map fst entry ->
        fst (PgInsert.Insert_statement table entry')
        = fst (PgInsert.Insert_statement table entry)).
Proof.
  split; [apply InsertFacts.Insert_statement_eq|]. split.
  - rewrite InsertFacts.Insert_statement_eq. cbn. apply length_map.
  - intros entry' Hn. rewrite !InsertFacts.Insert_statement_eq. cbn [fst].
    assert (length entry' = length entry) as ->.
    { rewrite <- (length_map fst entry'), Hn. apply length_map. }
    now rewrite Hn.
Qed.

(** X12: [Insert] sends one statement for each entry, in the order of the
    entries, each after the one before has gone through.  When all go
    through it returns, having sent a statement for every entry (none, for no
    entries); otherwise it halts the test at the first statement that fails,
    which is the last one sent. *)
Theorem Insert_sends_one_statement_per_entry {V : Type}
    (Exec : list (string * list V) -> string * list V -> option error)
    (table : string) (data : list (list (string * V))) :
  let '(r, sent) := PgInsert.Insert_entries Exec table data [] in
  (is_returns r = true
   /\ sent = map (PgInsert.Insert_statement table) data
   /\ forall n e, data !! n = Some e ->
        Exec (map (PgInsert.Insert_statement table) (take n data))
             (PgInsert.Insert_statement table e) = None)
  \/ (is_halts r = true
      /\ exists n e, data !! n = Some e
         /\ sent = map (PgInsert.Insert_statement table) (take (S n) data)
         /\ is_Some (Exec (map (PgInsert.Insert_statement table) (take n data))
                          (PgInsert.Insert_statement table e))
         /\ forall m e', m < n -> data !! m = Some e' ->
              Exec (map (PgInsert.Insert_statement table) (take m data))
                   (PgInsert.Insert_statement table e') = None).
Proof. exact (InsertFacts.Insert_entries_spec Exec table data []). Qed.

(** ** Names, DSNs and handles *)

Import Bytes Regexp StringFacts.

Lemma word_byte_in_name c :
  in_class word c = true -> in_class pgDbNameClass c = true.
Proof. destruct c as [[] [] [] [] [] [] [] []]; vm_compute; intros [=]; reflexivity. Qed.

Lemma word_in_name s : all_in word s = true -> all_in pgDbNameClass s = true.
Proof.
  induction s as [|c s IH]; [reflexivity|]. cbn [all_in].
  intros [Hc Hs]%andb_true_iff. now rewrite (word_byte_in_name c Hc), (IH Hs).
Qed.

(** C6, as amended: when the base is a URL [postgres://authority/db?query]
    or [postgresql://authority/db?query], whose path [/db], a run of word
    bytes, names the database, and whose query holds no further slash, word
    bytes and question mark in a row, and the new name passes
    [verifyPgDbName], [NewDsn] returns the URL with the path [/newName] and
    with the scheme, the authority and the query of the base, byte for
    byte: the path named [db] before and names [newName] after. *)
Theorem NewDsn_rewrites_the_database_name scheme authority db query newName :
  scheme = "postgres://" \/ scheme = "postgresql://" ->
  all_in Pgx.authority_bytes authority = true ->
  db <> "" -> all_in word db = true ->
  dsn_MatchString query = false ->
  verifyPgDbName newName = Returns newName ->
  NewDsn (scheme +:+ authority +:+ "/" +:+ db +:+ "?" +:+ query) newName
  = Returns (scheme +:+ authority +:+ "/" +:+ newName +:+ "?" +:+ query)
  /\ Pgx.url_database (authority +:+ "/" +:+ db +:+ "?" +:+ query) = db
  /\ Pgx.url_database (authority +:+ "/" +:+ newName +:+ "?" +:+ query) = newName.
Proof.
  intros Hs Ha Hne Hw Hq Hn.
  assert (Hcls : all_in pgDbNameClass newName = true).
  { unfold verifyPgDbName, pgDbNameRegex_MatchString in Hn.
    destruct (negb (is_empty newName) && all_in pgDbNameClass newName) eqn:E;
      [|discriminate].
    now apply andb_true_iff in E as [_ E]. }
  assert (Hpre : dsn_MatchString (scheme +:+ authority) = false).
  { apply no_question_mark_no_match. rewrite contains_app.
    rewrite (authority_no_question_mark _ Ha), orb_false_r.
    destruct Hs as [-> | ->]; reflexivity. }
  split; [|split].
  - rewrite <- !(app_assoc scheme authority).
    rewrite NewDsn_rewrite by auto using verified_no_dollar.
    now rewrite !replace_all_no_match by assumption.
  - apply url_database_name; [assumption|now apply word_in_name].
  - now apply url_database_name.
Qed.

Lemma NewDsn_rewrites_the_database_name_witness :
  NewDsn ("postgresql://" +:+ "db" +:+ "/" +:+ "test_db" +:+ "?"
          +:+ "user=testuser&password=testpassword") "test_template_abc"
  = Returns ("postgresql://" +:+ "db" +:+ "/" +:+ "test_template_abc" +:+ "?"
             +:+ "user=testuser&password=testpassword")
  /\ Pgx.url_database ("db" +:+ "/" +:+ "test_db" +:+ "?"
                       +:+ "user=testuser&password=testpassword") = "test_db"
  /\ Pgx.url_database ("db" +:+ "/" +:+ "test_template_abc" +:+ "?"
                       +:+ "user=testuser&password=testpassword") = "test_template_abc".
Proof.
  apply (NewDsn_rewrites_the_database_name "postgresql://" "db" "test_db"
           "user=testuser&password=testpassword" "test_template_abc").
  - right. reflexivity.
  - reflexivity.
  - discriminate.
  - reflexivity.
  - reflexivity.
  - reflexivity.
Defined.

(** C6 as stated fails on bases that name a database.  A URL without a
    query is refused; so is a URL whose database name holds a byte that is
    no word byte, and a DSN of the keyword and value form; and a URL whose
    query holds a slash, word bytes and a question mark in a row has that
    parameter rewritten too. *)
Lemma NewDsn_needs_one_question_mark :
  Pgx.ParseConfig_Database "postgresql://db/test_db" = inr "test_db"
  /\ verifyPgDbName "fresh" = Returns "fresh"
  /\ is_halts (NewDsn "postgresql://db/test_db" "fresh") = true
  /\ NewDsn "postgresql://db/test_db?user=u&password=a/b?c" "fresh"
     = Returns "postgresql://db/fresh?user=u&password=a/fresh?c"
  /\ is_halts (NewDsn "postgresql://db/my-db?user=u" "fresh") = true
  /\ is_halts (NewDsn "host=db user=u dbname=test_db" "fresh") = true.
Proof. vm_compute. repeat split. Qed.

(** C5 at a failing input: [verifyPgDbName] lets a name with brackets
    through, as the range [A-z] of its expression holds the six bytes between
    [Z] and [a]; [Create] then writes the name into its statement. *)
Lemma verifyPgDbName_lets_brackets_through :
  let name := "test_template_v[1]" in
  verifyPgDbName name = Returns name
  /\ all_in word name = false
  /\ journal (snd (pgInitializer.Create 0 name mixed_case_server))
     = [(0, CreateDatabase name)].
Proof. vm_compute. repeat split. Qed.

(** C8: when the handle is connected and [Scan] reports no row, what
    [QueryValue] and the function [QueryRow] returns hand to [t.Fatal] is the
    opening text, the error, and a message of their own that says that the
    query returned 0 rows; for any other error the report carries no
    message.  So the zero-rows report differs from the report of any other
    error, and also from the plain report of the same error. *)
Theorem zero_rows_reported_apart (p : PgDb) (s : Server) (e e' : error) :
  is_returns (fst (PgDb_connect p (dsn p) s)) = true ->
  errors_Is_NoRows e = true ->
  errors_Is_NoRows e' = false ->
  fst (PgDb_QueryValue (Some e) p s)
  = Halts (ASlice [AString "testdb initialisation failed"; AError e;
                   ASlice [AString "test database query for a single value returned 0 rows"]])
  /\ fst (PgDb_QueryRow (Some e) p s)
     = Halts (ASlice [AString "testdb initialisation failed"; AError e;
                      ASlice [AString "test database query for a single row returned 0 rows"]])
  /\ fst (PgDb_QueryValue (Some e') p s)
     = Halts (ASlice [AString "testdb initialisation failed"; AError e'; ASlice []])
  /\ fst (PgDb_QueryRow (Some e') p s)
     = Halts (ASlice [AString "testdb initialisation failed"; AError e'; ASlice []])
  /\ fst (PgDb_QueryValue (Some e) p s) <> fst (PgDb_QueryValue (Some e') p s)
  /\ fst (PgDb_QueryRow (Some e) p s) <> fst (PgDb_QueryRow (Some e') p s)
  /\ fst (PgDb_QueryValue (Some e) p s)
     <> Halts (ASlice [AString "testdb initialisation failed"; AError e; ASlice []])
  /\ fst (PgDb_QueryRow (Some e) p s)
     <> Halts (ASlice [AString "testdb initialisation failed"; AError e; ASlice []]).
Proof.
  intros Hc He He'.
  unfold PgDb_QueryValue, PgDb_QueryRow, bind, lift, QueryValue_must, QueryRow_must.
  destruct (PgDb_connect p (dsn p) s) as [[cp| | |] s1]; try discriminate.
  rewrite He, He'. destruct e' as [|msg|msg cause]; [discriminate He'| |];
    cbn; repeat split; intros [=].
Qed.

Lemma zero_rows_reported_apart_witness :
  let s := mkServer {["test_db"; "test_db_1"]} ∅ ∅ 0 [] in
  let e := ErrWrap "scan" ErrNoRows in
  let e' := ErrNew "syntax error" in
  fst (PgDb_QueryValue (Some e) sample_handle s)
  = Halts (ASlice [AString "testdb initialisation failed"; AError e;
                   ASlice [AString "test database query for a single value returned 0 rows"]])
  /\ fst (PgDb_QueryRow (Some e) sample_handle s)
     = Halts (ASlice [AString "testdb initialisation failed"; AError e;
                      ASlice [AString "test database query for a single row returned 0 rows"]])
  /\ fst (PgDb_QueryValue (Some e') sample_handle s)
     = Halts (ASlice [AString "testdb initialisation failed"; AError e'; ASlice []])
  /\ fst (PgDb_QueryRow (Some e') sample_handle s)
     = Halts (ASlice [AString "testdb initialisation failed"; AError e'; ASlice []])
  /\ fst (PgDb_QueryValue (Some e) sample_handle s)
     <> fst (PgDb_QueryValue (Some e') sample_handle s)
  /\ fst (PgDb_QueryRow (Some e) sample_handle s)
     <> fst (PgDb_QueryRow (Some e') sample_handle s)
  /\ fst (PgDb_QueryValue (Some e) sample_handle s)
     <> Halts (ASlice [AString "testdb initialisation failed"; AError e; ASlice []])
  /\ fst (PgDb_QueryRow (Some e) sample_handle s)
     <> Halts (ASlice [AString "testdb initialisation failed"; AError e; ASlice []]).
Proof.
  apply (zero_rows_reported_apart sample_handle
           (mkServer {["test_db"; "test_db_1"]} ∅ ∅ 0 [])
           (ErrWrap "scan" ErrNoRows) (ErrNew "syntax error")).
  - vm_compute. reflexivity.
  - reflexivity.
  - reflexivity.
Defined.

(** C9: [Name] returns what [Dsn] returns, the connection string; for a
    handle made by [NewDb] that is the DSN it was given, and not the database
    name kept in the field [name]. *)
Theorem PgDb_Name_is_the_dsn :
  (forall p, PgDb_Name p = PgDb_Dsn p)
  /\ (forall rootDsn dsn0 s p s',
        pgInitializer.NewDb rootDsn dsn0 s = (Returns p, s') -> PgDb_Name p = dsn0)
  /\ PgDb_Name sample_handle <> name sample_handle.
Proof.
  split; [reflexivity|]. split; [|discriminate].
  intros rootDsn dsn0 s p s'. unfold pgInitializer.NewDb.
  destruct (Pgx.ParseConfig_Database dsn0); [discriminate|].
  now intros [= <- _].
Qed.

(** ** Removal *)

(** C7 at two failing inputs: [Remove] sends one statement, the drop with the
    name unquoted.  While another session is connected to the database the
    drop is refused and that session goes on; [PgDb.Drop] on the same server
    ends the session and drops the database.  On a database whose name has an
    upper-case letter the statement names the lower-cased database, returns,
    and the database is still there. *)
Lemma Remove_neither_forces_nor_quotes :
  (let '(r, s') := pgInitializer.Remove 0 "victim" busy_server in
   is_halts r = true
   /\ bool_decide ("victim" ∈ databases s') = true
   /\ sessions s' !! 1 = Some "victim"
   /\ journal s' = [(0, DropDatabaseIfExists false "victim")])
  /\ (let '(r, s') :=
        PgDb_Drop (mkPgDb "victim" "postgresql://db/victim?x=1" "postgresql://db/postgres?x=1" ∅)
          busy_server in
      is_returns r = true
      /\ bool_decide ("victim" ∈ databases s') = false
      /\ sessions s' !! 1 = None
      /\ map snd (journal s') = [TerminateBackends "victim"; DropDatabaseIfExists true "victim"])
  /\ (let '(r, s') := pgInitializer.Remove 0 "Victim" mixed_case_server in
      is_returns r = true
      /\ bool_decide ("Victim" ∈ databases s') = true
      /\ journal s' = [(0, DropDatabaseIfExists false "Victim")]).
Proof. vm_compute. repeat split. Qed.

(** C3 at a failing input: the fingerprint has upper-case letters and
    [Migrate] fails.  The cleanup calls [Remove] on the template, the
    statement names the lower-cased database, and the template that [Create]
    made is still there.  With the fingerprint in lower case it is gone. *)
Lemma failed_migration_leaves_mixed_case_template :
  (let '(r, w1, w2) :=
     NewPg (migrator_of "ABC" migrate_fails) readme_dsn
       (fresh_world {["test_db"]} sample_uuids) in
   is_halts r = true
   /\ count isMigrate (calls w1) = 1
   /\ In (OpRemove 0 "test_template_ABC") (calls w2)
   /\ bool_decide ("test_template_ABC" ∈ databases (st w2)) = true)
  /\ (let '(r, w1, w2) :=
        NewPg (migrator_of "abc" migrate_fails) readme_dsn
          (fresh_world {["test_db"]} sample_uuids) in
      is_halts r = true
      /\ In (OpRemove 0 "test_template_abc") (calls w2)
      /\ bool_decide ("test_template_abc" ∈ databases (st w2)) = false)
  /\ (let '(r, w1, w2) :=
        NewPg (migrator_of "abc" migrate_ok) readme_dsn
          (fresh_world {["test_db"]} sample_uuids) in
      is_returns r = true
      /\ count isRemove (calls w2) = 0
      /\ bool_decide ("test_template_abc" ∈ databases (st w2)) = true).
Proof. vm_compute. repeat split; auto 12. Qed.
